(** * DMS transcoding and seek engine: a shallow embedding

    The development follows three packages of the server:
    - [dlna]: NPT time parsing and formatting, NPT ranges, the conversion of
      an HTTP byte range into a play-time range;
    - [transcode]: the stream codec planner [generateStreamArgs] and the
      command line tokenizer [parseCommandLine];
    - further on: [misc.FormatDurationSexagesimal], the content features
      header (module [features]), [Exec] and [transcodePipe] (module
      [launch]) and the second copy of the planner (module [strict]);
    - the parts of the Go standard library these functions call
      ([strconv], [strings], [fmt], [math/big], [math]), modelled from their
      documented behaviour on the inputs the packages hand to them.

    Go values are embedded as follows.  [int64] and [time.Duration] are [Z]
    with the wrap-around of every arithmetic operation written out
    ([Int64.wrap]); a [string] is a sequence of bytes ([string] of [ascii]);
    a pair [(v, err)] returned by a Go function is a pair [(v, option error)];
    a run-time panic is an [outcome]. *)

From Stdlib Require Import ZArith List String Ascii Bool Lia.
From Stdlib Require Import QArith Qround Qabs Qpower Qreduction Lqa.
From Stdlib Require Import Floats.SpecFloat.
Import ListNotations.

Close Scope Q_scope.
Open Scope string_scope.
Open Scope Z_scope.

(** ** Machine integers *)

Module Int64.
Definition min_int : Z := - 2 ^ 63.
Definition max_int : Z := 2 ^ 63 - 1.

Definition in_range (z : Z) : Prop := min_int <= z <= max_int.

Definition in_rangeb (z : Z) : bool := (min_int <=? z) && (z <=? max_int).

(** Two's complement wrap-around of a mathematical result. *)
Definition wrap (z : Z) : Z := (z + 2 ^ 63) mod 2 ^ 64 - 2 ^ 63.

Definition add (a b : Z) : Z := wrap (a + b).
Definition sub (a b : Z) : Z := wrap (a - b).
Definition mul (a b : Z) : Z := wrap (a * b).
End Int64.

(** ** Errors and panics *)

(** The error values the modelled functions build.  A constructor stands for
    one [fmt.Errorf] or library error; it carries the text the message
    quotes. *)
Inductive error : Type :=
| ErrSyntax (fn num : string)        (* strconv.NumError{Err: ErrSyntax} *)
| ErrRange (fn num : string)         (* strconv.NumError{Err: ErrRange} *)
| ErrEOF                             (* io.EOF *)
| ErrUnexpectedEOF                   (* io.ErrUnexpectedEOF *)
| ErrUnexpectedNewline               (* fmt: "unexpected newline" *)
| ErrExpectedInteger                 (* fmt: "expected integer" *)
| ErrInputDoesNotMatchFormat         (* fmt: "input does not match format" *)
| ErrInvalidNPTTime (s : string)     (* "invalid npt time: %s" *)
| ErrUnsupportedRangeFormat (h : string) (* "unsupported range format: %q" *)
| ErrInvalidRangeFormat              (* "invalid range format" *)
| ErrInvalidStartByte                (* "invalid start byte value" *)
| ErrInvalidEndByte                  (* "invalid end byte value" *)
| ErrRangeOutOfBounds                (* "range out of bounds" *)
| ErrUnclosedQuote (command : string). (* "Unclosed quote in command line: %s" *)

Inductive panic : Type :=
| IndexOutOfRange (index len : nat).

Inductive outcome (A : Type) : Type :=
| Returns (a : A)
| Panics (p : panic).
Arguments Returns {A} a.
Arguments Panics {A} p.

(** ** Package strings *)

Module strings.

Fixpoint strip_prefix (prefix s : string) : option string :=
  match prefix, s with
  | EmptyString, _ => Some s
  | String a p, String b t => if Ascii.eqb a b then strip_prefix p t else None
  | String _ _, EmptyString => None
  end.

Definition HasPrefix (s prefix : string) : bool :=
  match strip_prefix prefix s with Some _ => true | None => false end.

Definition TrimPrefix (s prefix : string) : string :=
  match strip_prefix prefix s with Some t => t | None => s end.

(** [Cut s sep] splits [s] around the first occurrence of the byte [sep]. *)
Fixpoint Cut (s : string) (sep : ascii) : option (string * string) :=
  match s with
  | EmptyString => None
  | String c t =>
      if Ascii.eqb c sep then Some (EmptyString, t)
      else match Cut t sep with
           | Some (a, b) => Some (String c a, b)
           | None => None
           end
  end.

(** [strings.SplitN(s, sep, 2)] for a separator of one byte: at most two
    substrings, the second one being the unsplit remainder. *)
Definition SplitN2 (s : string) (sep : ascii) : list string :=
  match Cut s sep with
  | Some (a, b) => [a; b]
  | None => [s]
  end.

Fixpoint Contains (s : string) (c : ascii) : bool :=
  match s with
  | EmptyString => false
  | String d t => Ascii.eqb d c || Contains t c
  end.

End strings.

(** ** Package strconv (base 10, 64 bits) *)

Module strconv.

Definition isDigit (c : ascii) : bool :=
  (48 <=? nat_of_ascii c)%nat && (nat_of_ascii c <=? 57)%nat.

Definition digitVal (c : ascii) : Z := Z.of_nat (nat_of_ascii c) - 48.

Definition digitChar (d : Z) : ascii := ascii_of_nat (48 + Z.to_nat d).

Definition maxUint64 : Z := 2 ^ 64 - 1.

(** The digit loop of [ParseUint]: [n] is the value read so far.  A byte
    that is no decimal digit is a syntax error; the range is checked before
    each multiplication and after each addition, as in the library. *)
Fixpoint parseUintLoop (s0 s : string) (n : Z) : Z * option error :=
  match s with
  | EmptyString => (n, None)
  | String c t =>
      if isDigit c then
        if maxUint64 / 10 + 1 <=? n then (maxUint64, Some (ErrRange "ParseUint" s0))
        else
          let n1 := n * 10 + digitVal c in
          if maxUint64 <? n1 then (maxUint64, Some (ErrRange "ParseUint" s0))
          else parseUintLoop s0 t n1
      else (0, Some (ErrSyntax "ParseUint" s0))
  end.

Definition ParseUint (s : string) : Z * option error :=
  match s with
  | EmptyString => (0, Some (ErrSyntax "ParseUint" s))
  | _ => parseUintLoop s s 0
  end.

(** [strconv.ParseInt(s, 10, 64)]. *)
Definition ParseInt (s0 : string) : Z * option error :=
  match s0 with
  | EmptyString => (0, Some (ErrSyntax "ParseInt" s0))
  | String c t =>
      let neg := Ascii.eqb c "-" in
      let s := if Ascii.eqb c "+" || neg then t else s0 in
      let cutoff := 2 ^ 63 in
      match ParseUint s with
      | (_, Some (ErrSyntax _ _)) => (0, Some (ErrSyntax "ParseInt" s0))
      | (un, _) =>
          if negb neg && (cutoff <=? un) then (cutoff - 1, Some (ErrRange "ParseInt" s0))
          else if neg && (cutoff <? un) then (- cutoff, Some (ErrRange "ParseInt" s0))
          else (if neg then - un else un, None)
      end
  end.

(** The digit loop of [formatBits] for base 10: digits are produced from
    the least significant one and pushed in front of [acc]. *)
Fixpoint formatBits (fuel : nat) (u : Z) (acc : string) : string :=
  match fuel with
  | O => acc
  | S f =>
      if u <? 10 then String (digitChar u) acc
      else formatBits f (u / 10) (String (digitChar (u mod 10)) acc)
  end.

(** A number [u] has at most [log2 u + 1] decimal digits. *)
Definition FormatUint (u : Z) : string :=
  formatBits (S (Z.to_nat (Z.log2 u))) u EmptyString.

(** [strconv.FormatInt(i, 10)]. *)
Definition FormatInt (i : Z) : string :=
  if i <? 0 then String "-" (FormatUint (- i)) else FormatUint i.

Definition Itoa (i : Z) : string := FormatInt i.

End strconv.

(** ** Package fmt *)

Module fmt.

Definition code (c : ascii) : N := N_of_ascii c.

(** The runes of three bytes that [isSpace] accepts: U+1680,
    U+2000..U+200A, U+2028, U+2029, U+202F, U+205F and U+3000, in their
    UTF-8 encoding. *)
Definition isSpace3 (b1 b2 b3 : N) : bool :=
  ((b1 =? 225) && (b2 =? 154) && (b3 =? 128)
   || (b1 =? 226) && (b2 =? 128)
      && (((128 <=? b3) && (b3 <=? 138)) || (b3 =? 168) || (b3 =? 169) || (b3 =? 175))
   || (b1 =? 226) && (b2 =? 129) && (b3 =? 159)
   || (b1 =? 227) && (b2 =? 128) && (b3 =? 128))%N.

(** [ss.SkipSpace] in the mode of [Sscanf] (a newline is no space, it
    must match the format): the runes of the table [space] are skipped, a
    newline is an error.  The input is the unread rest of the string; the
    space runes U+0085 and U+00A0 take two bytes. *)
Fixpoint SkipSpace (s : string) : string + error :=
  match s with
  | EmptyString => inl s
  | String c1 t1 =>
      let b1 := code c1 in
      if (b1 =? 10)%N then inr ErrUnexpectedNewline
      else if (((9 <=? b1) && (b1 <=? 13)) || (b1 =? 32))%N then SkipSpace t1
      else
        match t1 with
        | EmptyString => inl s
        | String c2 t2 =>
            let b2 := code c2 in
            if ((b1 =? 194) && ((b2 =? 133) || (b2 =? 160)))%N then SkipSpace t2
            else
              match t2 with
              | EmptyString => inl s
              | String c3 t3 =>
                  if isSpace3 b1 b2 (code c3) then SkipSpace t3 else inl s
              end
        end
  end.

(** A width is the number of runes the current verb may still read;
    [None] stands for no width in the format.  (The library then reads at
    most 2^30 runes in total; that cap is not modelled.) *)
Definition width := option nat.

Definition exhausted (w : width) : bool :=
  match w with Some O => true | _ => false end.

Definition consume (w : width) : width := option_map Nat.pred w.

(** [for s.accept(digits) {}]: the longest run of decimal digits within the
    width; returns the digits and the unread rest. *)
Fixpoint acceptDigits (w : width) (s : string) : string * string :=
  match s with
  | EmptyString => (EmptyString, s)
  | String c t =>
      if negb (exhausted w) && strconv.isDigit c then
        let '(ds, r) := acceptDigits (consume w) t in (String c ds, r)
      else (EmptyString, s)
  end.

(** [ss.scanInt] for the verb d: an optional sign, then at least one digit,
    all within the width; the token is handed to [strconv.ParseInt]. *)
Definition scanInt (w : width) (s0 : string) : (Z * string) + error :=
  match SkipSpace s0 with
  | inr e => inr e
  | inl s =>
      match s with
      | EmptyString => inr ErrEOF
      | String c t =>
          if exhausted w then inr ErrEOF
          else
            let signed := Ascii.eqb c "+" || Ascii.eqb c "-" in
            let w1 := if signed then consume w else w in
            let s1 := if signed then t else s in
            match s1 with
            | EmptyString => inr ErrEOF
            | String d _ =>
                if exhausted w1 then inr ErrEOF
                else if negb (strconv.isDigit d) then inr ErrExpectedInteger
                else
                  let '(ds, rest) := acceptDigits w1 s1 in
                  let tok := if signed then String c ds else ds in
                  match strconv.ParseInt tok with
                  | (_, Some e) => inr e
                  | (v, None) => inl (v, rest)
                  end
            end
      end
  end.

(** A format is a sequence of directives; those of ["%d:%2d:%2d.%3d"] are
    the verb [%d] with or without a width and literal bytes. *)
Inductive directive : Type :=
| Verb_d (w : width)
| Lit (c : ascii).

(** [ss.doScanf]: the values scanned so far are [vals]; an error stops
    the scan and leaves the later operands untouched.  A literal must be
    the next byte of the input ([advance], [mustReadRune]). *)
Fixpoint doScanf (format : list directive) (s : string) (vals : list Z)
  : list Z * option error :=
  match format with
  | [] => (vals, None)
  | Lit c :: format' =>
      match s with
      | EmptyString => (vals, Some ErrUnexpectedEOF)
      | String c' s' =>
          if Ascii.eqb c c' then doScanf format' s' vals
          else (vals, Some ErrInputDoesNotMatchFormat)
      end
  | Verb_d w :: format' =>
      match SkipSpace s with
      | inr e => (vals, Some e)
      | inl s1 =>
          match scanInt w s1 with
          | inr e => (vals, Some e)
          | inl (v, s2) => doScanf format' s2 (vals ++ [v])%list
          end
      end
  end.

(** [fmt.Sscanf(s, format, ...)] with integer operands: the operands that
    were assigned, in order, and the error; the count [n] that Go returns
    is the length of the list. *)
Definition Sscanf (s : string) (format : list directive) : list Z * option error :=
  doScanf format s [].

Fixpoint zeros (n : nat) : string :=
  match n with
  | O => EmptyString
  | S k => String "0" (zeros k)
  end.

(** [fmtInteger] for the verb [%0<wid>d]: the magnitude is padded with
    zeros up to the width, one column of which is left to the sign of a
    negative number. *)
Definition fmt_0d (wid : nat) (v : Z) : string :=
  let negative := v <? 0 in
  let digits := strconv.FormatUint (Z.abs v) in
  let prec := if negative then Nat.pred wid else wid in
  let body := zeros (prec - String.length digits) ++ digits in
  if negative then String "-" body else body.

End fmt.

(** ** Packages math/big and math *)

(** A [big.Rat] is a rational number in lowest terms: [Q] with [Qred] after
    each operation.  A finite [float64] is the rational it denotes. *)
Module big.

(** [SetFrac64(a, b)] is [a/b]; it panics when [b] is 0, a case
    [calculateNPTPosition] returns before. *)
Definition SetFrac64 (a b : Z) : Q :=
  Qred (if b <? 0 then Qmake (- a) (Z.to_pos (- b)) else Qmake a (Z.to_pos b)).

Definition SetInt64 (x : Z) : Q := inject_Z x.

Definition Mul (x y : Q) : Q := Qred (Qmult x y).

Definition pow2 (e : Z) : Q := Qpower (2 # 1) e.

(** The integer [e] with [2^e <= x < 2^(e+1)], for [x > 0]. *)
Definition ilog2 (x : Q) : Z :=
  let k := Z.log2 (Qnum x) - Z.log2 (Zpos (Qden x)) in
  if Qle_bool (pow2 k) x then k else k - 1.

(** Rounding to the nearest integer, ties to even. *)
Definition roundHalfEven (x : Q) : Z :=
  let f := Qfloor x in
  match Qcompare (Qminus x (inject_Z f)) (1 # 2) with
  | Lt => f
  | Gt => f + 1
  | Eq => if Z.even f then f else f + 1
  end.

(** The nearest number with a significand of 53 bits, for [x > 0]. *)
Definition nearest53 (x : Q) : Q :=
  let e := ilog2 x - 52 in
  Qmult (inject_Z (roundHalfEven (Qdiv x (pow2 e)))) (pow2 e).

(** [Rat.Float64]: the nearest [float64], ties to even.  The operands
    of [calculateNPTPosition] are 64-bit integers, so that a non-zero
    magnitude lies between 2^-63 and 2^126: the result is a normal number,
    neither subnormal nor infinite, and the exponent range of [float64]
    needs no clamp here. *)
Definition Float64 (x : Q) : Q :=
  match Qcompare x 0 with
  | Eq => 0%Q
  | Gt => nearest53 x
  | Lt => Qopp (nearest53 (Qopp x))
  end.

End big.

Module math.

(** [math.Round]: the nearest integer, halves away from zero.  The result
    is an integral [float64]; it is given as the integer. *)
Definition Round (x : Q) : Z :=
  if Qle_bool 0 x then Qfloor (Qplus x (1 # 2))
  else - Qfloor (Qplus (Qopp x) (1 # 2)).

End math.

(** The conversion [time.Duration(f)] of an integral [float64].  Go leaves
    the result to the implementation when [f] does not fit 64 bits; the
    value modelled there is the one of amd64 (the "integer indefinite"
    [-2^63]).  No statement below depends on that branch. *)
Definition int64_of_float64 (f : Z) : Z :=
  if Int64.in_rangeb f then f else Int64.min_int.

(** ** Package dlna *)

Module dlna.

(** [time.Duration] constants, in nanoseconds. *)
Definition Millisecond : Z := 1000000.
Definition Second : Z := 1000 * Millisecond.
Definition Minute : Z := 60 * Second.
Definition Hour : Z := 60 * Minute.

(** The format ["%d:%2d:%2d.%3d"]. *)
Definition nptFormat : list fmt.directive :=
  [fmt.Verb_d None; fmt.Lit ":"; fmt.Verb_d (Some 2%nat); fmt.Lit ":";
   fmt.Verb_d (Some 2%nat); fmt.Lit "."; fmt.Verb_d (Some 3%nat)].

Definition ParseNPTTime (s : string) : Z * option error :=
  let '(vals, err) := fmt.Sscanf s nptFormat in
  let n := List.length vals in
  let h := nth 0 vals 0 in
  let m := nth 1 vals 0 in
  let sec := nth 2 vals 0 in
  let ms := nth 3 vals 0 in
  match err with
  | Some e => (-1, Some e)
  | None =>
      if (n <? 3)%nat then (-1, Some (ErrInvalidNPTTime s))
      else
        let ret := Int64.mul h Hour in
        let ret := Int64.add ret (Int64.mul m Minute) in
        let ret := Int64.add ret (Int64.mul sec Second) in
        let ret := Int64.add ret (Int64.mul ms Millisecond) in
        (ret, None)
  end.

(** Go's [/] and [%] truncate towards zero: [Z.quot] and [Z.rem]. *)
Definition FormatNPTTime (npt : Z) : string :=
  let npt := Z.quot npt Millisecond in
  let ms := Z.rem npt 1000 in
  let npt := Z.quot npt 1000 in
  let s := Z.rem npt 60 in
  let npt := Z.quot npt 60 in
  let m := Z.rem npt 60 in
  let npt := Z.quot npt 60 in
  let h := npt in
  fmt.fmt_0d 2 h ++ ":" ++ fmt.fmt_0d 2 m ++ ":" ++ fmt.fmt_0d 2 s ++ "."
    ++ fmt.fmt_0d 3 ms.

Record NPTRange : Type := mkNPTRange {
  Start : Z;      (* NPT start time *)
  End : Z;        (* NPT end time *)
  StartByte : Z;  (* byte offset start *)
  EndByte : Z     (* byte offset end, inclusive *)
}.

(** The zero value [NPTRange{}]. *)
Definition zeroRange : NPTRange := mkNPTRange 0 0 0 0.

Definition index (ss : list string) (i : nat) : outcome string :=
  match nth_error ss i with
  | Some x => Returns x
  | None => Panics (IndexOutOfRange i (List.length ss))
  end.

(** The results [ret] and [err] are named: a failed [ParseNPTTime] has
    already stored its [-1] in the field when the function returns. *)
Definition ParseNPTRange (s : string) : outcome (NPTRange * option error) :=
  let ss := strings.SplitN2 s "-" in
  let ret := zeroRange in
  match index ss 0 with
  | Panics p => Panics p
  | Returns ss0 =>
      let '(ret, err) :=
        if negb (String.eqb ss0 EmptyString) then
          let '(t, err) := ParseNPTTime ss0 in
          (mkNPTRange t (End ret) (StartByte ret) (EndByte ret), err)
        else (ret, None) in
      match err with
      | Some e => Returns (ret, Some e)
      | None =>
          match index ss 1 with
          | Panics p => Panics p
          | Returns ss1 =>
              if negb (String.eqb ss1 EmptyString) then
                let '(t, err) := ParseNPTTime ss1 in
                Returns (mkNPTRange (Start ret) t (StartByte ret) (EndByte ret), err)
              else Returns (ret, None)
          end
      end
  end.

(** calculateNPTPosition calculates the NPT position with high precision. *)
Definition calculateNPTPosition (bytePos totalSize duration : Z) : Z :=
  if totalSize <=? 0 then 0
  else
    let position := big.SetFrac64 bytePos totalSize in
    let nanos := big.Mul position (big.SetInt64 duration) in
    let durNanos := big.Float64 nanos in
    int64_of_float64 (math.Round durNanos).

Definition prefix : string := "bytes=".

(** [ParseHTTPRangeToNPTRange], with the position calculator as a
    parameter, so that a statement can tell whether a path calls it. *)
Definition ParseHTTPRangeToNPTRange_with (position : Z -> Z -> Z -> Z)
  (rangeHeader : string) (totalSize duration : Z) : NPTRange * option error :=
  if String.eqb rangeHeader (prefix ++ "0-")
     || String.eqb rangeHeader
          (prefix ++ "0-" ++ strconv.FormatInt (Int64.sub totalSize 1))
  then (mkNPTRange 0 duration 0 (Int64.sub totalSize 1), None)
  else if negb (strings.HasPrefix rangeHeader prefix)
  then (zeroRange, Some (ErrUnsupportedRangeFormat rangeHeader))
  else
    let rangeSpec := strings.TrimPrefix rangeHeader prefix in
    let parts := strings.SplitN2 rangeSpec "-" in
    match parts with
    | [part0; part1] =>
        match strconv.ParseInt part0 with
        | (_, Some _) => (zeroRange, Some ErrInvalidStartByte)
        | (startByte, None) =>
            let parsedEnd :=
              if negb (String.eqb part1 EmptyString) then strconv.ParseInt part1
              else (Int64.sub totalSize 1, None) in
            match parsedEnd with
            | (_, Some _) => (zeroRange, Some ErrInvalidEndByte)
            | (endByte, None) =>
                if (startByte <? 0) || (totalSize <=? endByte) || (endByte <? startByte)
                then (zeroRange, Some ErrRangeOutOfBounds)
                else
                  let startTime := position startByte totalSize duration in
                  let endTime := position (Int64.add endByte 1) totalSize duration in
                  let endTime := if duration <? endTime then duration else endTime in
                  (mkNPTRange startTime endTime startByte endByte, None)
            end
        end
    | _ => (zeroRange, Some ErrInvalidRangeFormat)
    end.

Definition ParseHTTPRangeToNPTRange : string -> Z -> Z -> NPTRange * option error :=
  ParseHTTPRangeToNPTRange_with calculateNPTPosition.

End dlna.

(** ** Package transcode *)

Module transcode.

(** A value of type [interface{}] as [encoding/json] decodes it. *)
Inductive value : Type :=
| VNil
| VString (s : string)
| VFloat64 (f : Q)
| VNumber (n : string)   (* json.Number *)
| VOther.

(** A [map[string]interface{}]; a key that is absent reads as [VNil]. *)
Definition stream : Type := string -> value.

(** A [case] of a [switch] on an interface value with string constants. *)
Definition isStr (v : value) (s : string) : bool :=
  match v with
  | VString t => String.eqb t s
  | _ => false
  end.

Definition isAny (v : value) (l : list string) : bool :=
  existsb (isStr v) l.

(** The conversion [int(f)] truncates towards zero. *)
Definition int_of_float (f : Q) : Z :=
  int64_of_float64 (if Qle_bool 0 f then Qfloor f else Qceiling f).

Section Planner.

(** [json.Number.Float64], that is [strconv.ParseFloat(n, 64)], with its
    error dropped as the caller does. *)
Variable numberFloat64 : string -> Q.

(** The empty [json.Number] of a failed type assertion is no number:
    [ParseFloat] gives 0 and a syntax error. *)
Definition getStreamAlias (st : stream) : Z * string :=
  let indexF :=
    match st "index" with
    | VFloat64 f => f
    | VNumber n => numberFloat64 n
    | _ => 0%Q
    end in
  let inputIndex := int_of_float indexF in
  (inputIndex, "0:" ++ strconv.Itoa inputIndex).

(** The variables of the loop. *)
Record plan : Type := mkPlan {
  args : list string;
  outputVideoIndex : Z;
  outputAudioIndex : Z;
  outputSubtitleIndex : Z
}.

Definition videoArgs (st : stream) (outputVideoIndex : Z) : list string :=
  let '(_, streamAlias) := getStreamAlias st in
  let n := strconv.Itoa outputVideoIndex in
  if isAny (st "codec_name") ["mjpeg"; "png"; "bmp"; "webp"; "tiff"; "j2k"; "jpeg2000"]
  then
    ["-map"; streamAlias;
     "-c:v:" ++ n; "copy"]
  else
    ["-map"; streamAlias;
     "-c:v:" ++ n; "mpeg2video";
     "-b:v:" ++ n; "6000k";
     "-minrate:v:" ++ n; "3000k";
     "-maxrate:v:" ++ n; "8000k";
     "-bufsize:v:" ++ n; "1835k";
     "-g:v:" ++ n; "15";
     "-bf:v:" ++ n; "2";
     "-flags:v:" ++ n; "+ilme+ildct";
     "-filter:v:" ++ n; "fieldorder=tff";
     "-aspect:v:" ++ n; "16:9";
     "-s:v:" ++ n; "720x576";
     "-r:v:" ++ n; "25";
     "-vsync"; "cfr"].

Definition audioArgs (st : stream) (outputAudioIndex : Z) : list string :=
  let '(_, streamAlias) := getStreamAlias st in
  let n := strconv.Itoa outputAudioIndex in
  let '(new, defaultFilter) :=
    if isAny (st "codec_name")
         ["aac"; "dca"; "ac3"; "mp2"; "mp3"; "opus"; "flac"; "pcm_s16le"]
    then
      (["-map"; streamAlias;
        "-c:a:" ++ n; "ac3";
        "-b:a:" ++ n; "224k";
        "-ac:a:" ++ n; "2"], true)
    else if isAny (st "codec_name") ["eac3"; "dts"]
    then
      (["-map"; streamAlias;
        "-c:a:" ++ n; "ac3";
        "-b:a:" ++ n; "448k";
        "-ac:a:" ++ n; "2"], true)
    else if isStr (st "codec_name") "truehd"
    then
      (["-map"; streamAlias;
        "-c:a:" ++ n; "ac3";
        "-b:a:" ++ n; "640k";
        "-ac:a:" ++ n; "6";
        "-ar:a:" ++ n; "48000";
        "-sample_fmt:a:3" ++ n; "fltp";
        "-filter:a:" ++ n;
        "aresample=ocl=stereo:async=10000," ++ "channelmap=channel_layout=5.1"],
       false)
    else
      (["-map"; streamAlias;
        "-c:a:" ++ n; "copy"], false) in
  if defaultFilter
  then List.app new ["-filter:a:" ++ n; "aresample=async=10000"]
  else new.

Definition subtitleArgs (st : stream) (outputSubtitleIndex : Z) : list string :=
  let '(_, streamAlias) := getStreamAlias st in
  let n := strconv.Itoa outputSubtitleIndex in
  if isAny (st "codec_name") ["srt"; "dvdsub"]
  then
    ["-map"; streamAlias;
     "-c:s:" ++ n; "dvbsub"; "-fix_sub_duration"; "-canvas_size"; "720x576"]
  else
    ["-map"; streamAlias;
     "-c:s:" ++ n; "copy"].

Definition otherArgs (st : stream) : list string :=
  let '(_, streamAlias) := getStreamAlias st in
  ["-map"; streamAlias;
   "-c"; "copy"].

(** One iteration of the loop over the streams. *)
Definition planStream (p : plan) (st : stream) : plan :=
  if isStr (st "codec_type") "video" then
    mkPlan (List.app (args p) (videoArgs st (outputVideoIndex p)))
           (Int64.add (outputVideoIndex p) 1)
           (outputAudioIndex p) (outputSubtitleIndex p)
  else if isStr (st "codec_type") "audio" then
    mkPlan (List.app (args p) (audioArgs st (outputAudioIndex p)))
           (outputVideoIndex p)
           (Int64.add (outputAudioIndex p) 1) (outputSubtitleIndex p)
  else if isStr (st "codec_type") "subtitle" then
    mkPlan (List.app (args p) (subtitleArgs st (outputSubtitleIndex p)))
           (outputVideoIndex p) (outputAudioIndex p)
           (Int64.add (outputSubtitleIndex p) 1)
  else
    mkPlan (List.app (args p) (otherArgs st))
           (outputVideoIndex p) (outputAudioIndex p) (outputSubtitleIndex p).

Definition planStreams (p : plan) (streams : list stream) : plan :=
  fold_left planStream streams p.

Definition generateStreamArgs (streams : list stream) : list string :=
  args (planStreams (mkPlan [] 0 0 0) streams).

End Planner.

(** The conversion [string(c)] of a byte: the UTF-8 encoding of the code
    point [c], two bytes from 128 on. *)
Definition string_of_byte (c : ascii) : string :=
  let n := N_of_ascii c in
  if (n <? 128)%N then String c EmptyString
  else String (ascii_of_N (192 + n / 64))
         (String (ascii_of_N (128 + n mod 64)) EmptyString).

(** The values of the variable [state]: "start", "arg" and "quotes". *)
Inductive lexState : Type := StateStart | StateArg | StateQuotes.

(** The variables of the loop of [parseCommandLine]. *)
Record lexer : Type := mkLexer {
  largs : list string;
  state : lexState;
  current : string;
  quote : string;
  escapeNext : bool
}.

(** The double quote, as a byte and as a string of one byte. *)
Definition dquote : ascii := "034"%char.
Definition dquoteString : string := String dquote EmptyString.

Definition initial : lexer := mkLexer [] StateStart EmptyString dquoteString true.

(** One iteration of the loop, on the byte [c]. *)
Definition step (l : lexer) (c : ascii) : lexer :=
  match state l with
  | StateQuotes =>
      if negb (String.eqb (string_of_byte c) (quote l)) then
        mkLexer (largs l) (state l) (current l ++ string_of_byte c) (quote l) (escapeNext l)
      else
        mkLexer (List.app (largs l) [current l]) StateStart EmptyString (quote l)
          (escapeNext l)
  | _ =>
      if escapeNext l then
        mkLexer (largs l) (state l) (current l ++ string_of_byte c) (quote l) false
      else if Ascii.eqb c "\" then
        mkLexer (largs l) (state l) (current l) (quote l) true
      else if Ascii.eqb c dquote || Ascii.eqb c "'" then
        mkLexer (largs l) StateQuotes (current l) (string_of_byte c) (escapeNext l)
      else
        match state l with
        | StateArg =>
            if Ascii.eqb c " " || Ascii.eqb c "009" then
              mkLexer (List.app (largs l) [current l]) StateStart EmptyString (quote l)
          (escapeNext l)
            else
              mkLexer (largs l) (state l) (current l ++ string_of_byte c) (quote l)
                (escapeNext l)
        | _ =>
            if negb (Ascii.eqb c " ") && negb (Ascii.eqb c "009") then
              mkLexer (largs l) StateArg (current l ++ string_of_byte c) (quote l)
                (escapeNext l)
            else l
        end
  end.

Fixpoint run (l : lexer) (command : string) : lexer :=
  match command with
  | EmptyString => l
  | String c rest => run (step l c) rest
  end.

Definition parseCommandLine (command : string) : list string * option error :=
  let l := run initial command in
  match state l with
  | StateQuotes => ([], Some (ErrUnclosedQuote command))
  | _ =>
      if negb (String.eqb (current l) EmptyString)
      then (List.app (largs l) [current l], None)
      else (largs l, None)
  end.

End transcode.

(** ** Package misc *)

Module misc.

(** [strings.TrimRight(s, cutset)] for a cutset of one byte: the trailing
    bytes equal to [c] are removed. *)
Fixpoint TrimRight (s : string) (c : ascii) : string :=
  match s with
  | EmptyString => EmptyString
  | String d t =>
      match TrimRight t c with
      | EmptyString => if Ascii.eqb d c then EmptyString else String d EmptyString
      | t' => String d t'
      end
  end.

(** The verb [%d] on an integer. *)
Definition fmt_d (v : Z) : string := strconv.FormatInt v.

Definition FormatDurationSexagesimal (d : Z) : string :=
  let ns := Z.rem d dlna.Second in
  let d := Z.quot d dlna.Second in
  let s := Z.rem d 60 in
  let d := Z.quot d 60 in
  let m := Z.rem d 60 in
  let d := Z.quot d 60 in
  let h := d in
  let ret := fmt_d h ++ ":" ++ fmt.fmt_0d 2 m ++ ":" ++ fmt.fmt_0d 2 s ++ "."
             ++ fmt.fmt_0d 9 ns in
  let ret := TrimRight ret "0" in
  let ret := TrimRight ret "." in
  ret.

End misc.

(** ** Package dlna: the content features header *)

Module features.

Record ContentFeatures : Type := mkContentFeatures {
  ProfileName : string;
  SupportTimeSeek : bool;
  SupportRange : bool;
  Transcoded : bool;
  Flags : string
}.

Definition BinaryInt (b : bool) : Z := if b then 1 else 0.

(** The digits of a positive number in base 2. *)
Fixpoint binaryDigits (p : positive) : string :=
  match p with
  | xH => "1"
  | xO q => binaryDigits q ++ "0"
  | xI q => binaryDigits q ++ "1"
  end.

(** The verb [%b] on an unsigned integer. *)
Definition fmt_b (u : Z) : string :=
  match u with
  | Zpos p => binaryDigits p
  | _ => "0"
  end.

(** [strings.Join]. *)
Fixpoint Join (elems : list string) (sep : string) : string :=
  match elems with
  | [] => EmptyString
  | [e] => e
  | e :: rest => e ++ sep ++ Join rest sep
  end.

Definition defaultFlags : string := "01700000000000000000000000000000".

(** The method [String] of [ContentFeatures]. *)
Definition ContentFeatures_String (cf : ContentFeatures) : string :=
  let params := [] in
  let params :=
    if negb (String.eqb (ProfileName cf) EmptyString)
    then List.app params ["DLNA.ORG_PN=" ++ ProfileName cf]
    else params in
  let params :=
    List.app params
      ["DLNA.ORG_OP=" ++ fmt_b (BinaryInt (SupportTimeSeek cf))
         ++ fmt_b (BinaryInt (SupportRange cf))
         ++ ";DLNA.ORG_CI=" ++ fmt_b (BinaryInt (Transcoded cf))] in
  let flags :=
    if negb (String.eqb (Flags cf) EmptyString) then Flags cf else defaultFlags in
  let params := List.app params ["DLNA.ORG_FLAGS=" ++ flags] in
  Join params ";".

End features.

(** ** Package transcode: launching a command *)

Module launch.

(** The run-time errors of an index expression and of a slice expression,
    with the two numbers their messages show. *)
Inductive boundsError : Type :=
| IndexOutOfRange (index len : nat)       (* index out of range [index] with length len *)
| SliceBoundsOutOfRange (low len : nat).  (* slice bounds out of range [low:len] *)

(** What a call comes to: a result, or a panic with a run-time error. *)
Inductive run (A : Type) : Type :=
| Returned (a : A)
| Panicked (e : boundsError).
Arguments Returned {A} a.
Arguments Panicked {A} e.

(** The index expression [s[i]]. *)
Definition index (s : list string) (i : nat) : run string :=
  match nth_error s i with
  | Some x => Returned x
  | None => Panicked (IndexOutOfRange i (List.length s))
  end.

(** The slice expression [s[low:]]: [low] may be the length, not more. *)
Definition sliceFrom (s : list string) (low : nat) : run (list string) :=
  if (low <=? List.length s)%nat then Returned (skipn low s)
  else Panicked (SliceBoundsOutOfRange low (List.length s)).

Section Launch.

(** What [transcodePipe] does with the name of the executable and its
    arguments once [exec.CommandContext] has them is the library's and the
    operating system's: the [Cancel] hook that sends the interrupt signal,
    the standard error, [StdoutPipe], [Start] with their two early returns,
    and the goroutine that waits for the process.  It is the parameter
    [start], which may give a reader, an error, or a panic of its own.  The
    line that [log.Println] writes first is no part of the result. *)
Variable Reader : Type.
Variable nilReader : Reader.
Variable start : string -> list string -> run (Reader * option error).

(** [exec.CommandContext(ctx, args[0], args[1:]...)].  The language leaves
    open which of the two operands is evaluated first; the compiled code
    checks the bounds of [args[1:]] before it reads [args[0]], so that an
    empty list fails with [slice bounds out of range [1:0]]. *)
Definition transcodePipe (args : list string) : run (Reader * option error) :=
  match sliceFrom args 1 with
  | Panicked e => Panicked e
  | Returned arg =>
      match index args 0 with
      | Panicked e => Panicked e
      | Returned name => start name arg
      end
  end.

(** The results [r] and [err] are named: with an error of the tokenizer
    the reader returned is [nil]. *)
Definition Exec (cmds : string) : run (Reader * option error) :=
  match transcode.parseCommandLine cmds with
  | (_, Some aerr) => Returned (nilReader, Some aerr)
  | (cmda, None) => transcodePipe cmda
  end.

End Launch.

End launch.

(** ** Package transcode, the second copy (src/unnamed/part_000) *)

Module strict.

Section Planner.

Variable numberFloat64 : string -> Q.

Definition getStreamAlias (key : string) (st : transcode.stream) : Z * string :=
  let indexF :=
    match st "index" with
    | transcode.VFloat64 f => f
    | transcode.VNumber n => numberFloat64 n
    | _ => 0%Q
    end in
  let inputIndex := transcode.int_of_float indexF in
  (inputIndex, "0:" ++ key ++ ":" ++ strconv.Itoa inputIndex).

Definition videoArgs (st : transcode.stream) (outputVideoIndex : Z) : list string :=
  let '(_, streamAlias) := getStreamAlias "v" st in
  let n := strconv.Itoa outputVideoIndex in
  ["-map"; streamAlias;
   "-c:v:" ++ n; "mpeg2video";
   "-b:v:" ++ n; "6000k"; "-maxrate"; "8000k"; "-bufsize"; "1835k";
   "-minrate"; "3000k";
   "-g"; "15"; "-bf"; "2"; "-flags"; "+ilme+ildct"; "-vf"; "fieldorder=tff";
   "-aspect"; "16:9"; "-s"; "720x576"; "-r"; "25"; "-vsync"; "cfr"].

(** [json.Number.Int64] is [strconv.ParseInt] in base 10; its error is
    dropped and its value kept. *)
Definition tooManyChannels (st : transcode.stream) : bool :=
  match st "channels" with
  | transcode.VNumber channelsJ => 6 <? fst (strconv.ParseInt channelsJ)
  | _ => false
  end.

(** The arguments of an audio stream, or [None] where the loop goes on to
    the next stream ([continue]). *)
Definition audioArgs (st : transcode.stream) (outputAudioIndex : Z)
  : option (list string) :=
  let '(_, streamAlias) := getStreamAlias "a" st in
  let n := strconv.Itoa outputAudioIndex in
  let selected :=
    if transcode.isAny (st "codec_name") ["aac"; "dca"; "ac3"; "mp2"]
    then
      Some ["-map"; streamAlias;
            "-c:a:" ++ n; "ac3";
            "-b:a:" ++ n; "224k";
            "-ac:a:" ++ n; "2"]
    else if transcode.isStr (st "codec_name") "eac3"
    then
      Some ["-map"; streamAlias;
            "-c:a:" ++ n; "ac3";
            "-b:a:" ++ n; "448k";
            "-ac:a:" ++ n; "2"]
    else if transcode.isStr (st "codec_name") "truehd"
    then
      if tooManyChannels st then None
      else
        Some ["-map"; streamAlias;
              "-c:a:" ++ n; "ac3";
              "-b:a:" ++ n; "640k";
              "-ac:a:" ++ n; "2"]
    else None in
  match selected with
  | Some new =>
      Some (List.app new ["-filter:a:" ++ n; "aresample=async=1000000:first_pts=0"])
  | None => None
  end.

Definition subtitleArgs (st : transcode.stream) (outputSubtitleIndex : Z)
  : option (list string) :=
  if transcode.isAny (st "codec_name") ["srt"; "dvdsub"]
  then
    let '(_, streamAlias) := getStreamAlias "s" st in
    Some ["-map"; streamAlias;
          "-c:s:" ++ strconv.Itoa outputSubtitleIndex; "dvbsub";
          "-fix_sub_duration"; "-canvas_size"; "720x576"]
  else None.

(** One iteration of the loop over the streams. *)
Definition planStream (p : transcode.plan) (st : transcode.stream) : transcode.plan :=
  if transcode.isStr (st "codec_type") "video" then
    transcode.mkPlan
      (List.app (transcode.args p) (videoArgs st (transcode.outputVideoIndex p)))
      (Int64.add (transcode.outputVideoIndex p) 1)
      (transcode.outputAudioIndex p) (transcode.outputSubtitleIndex p)
  else if transcode.isStr (st "codec_type") "audio" then
    match audioArgs st (transcode.outputAudioIndex p) with
    | Some new =>
        transcode.mkPlan (List.app (transcode.args p) new)
          (transcode.outputVideoIndex p)
          (Int64.add (transcode.outputAudioIndex p) 1)
          (transcode.outputSubtitleIndex p)
    | None => p
    end
  else if transcode.isStr (st "codec_type") "subtitle" then
    match subtitleArgs st (transcode.outputSubtitleIndex p) with
    | Some new =>
        transcode.mkPlan (List.app (transcode.args p) new)
          (transcode.outputVideoIndex p) (transcode.outputAudioIndex p)
          (Int64.add (transcode.outputSubtitleIndex p) 1)
    | None => p
    end
  else p.

Definition planStreams (p : transcode.plan) (streams : list transcode.stream)
  : transcode.plan :=
  fold_left planStream streams p.

Definition generateStreamArgs (streams : list transcode.stream) : list string :=
  transcode.args (planStreams (transcode.mkPlan [] 0 0 0) streams).

End Planner.

End strict.

(** * Definitions used in the statements *)

(** ** Scanning and decimal digits *)

(** The number of operands of a format. *)
Fixpoint verbs (format : list fmt.directive) : nat :=
  match format with
  | [] => 0
  | fmt.Verb_d _ :: f => S (verbs f)
  | fmt.Lit _ :: f => verbs f
  end.

(** Every byte is a decimal digit. *)
Fixpoint allDigits (s : string) : bool :=
  match s with
  | EmptyString => true
  | String c t => strconv.isDigit c && allDigits t
  end.

(** The syntax of a byte offset that [strconv.ParseInt] takes in base 10: an
    optional sign and at least one decimal digit, nothing else. *)
Definition isDecimal (s : string) : bool :=
  match s with
  | EmptyString => false
  | String c t =>
      let body := if Ascii.eqb c "+" || Ascii.eqb c "-" then t else s in
      match body with
      | EmptyString => false
      | _ => allDigits body
      end
  end.

(** The number a string of decimal digits denotes, read from the left with
    the value [n] of the digits before it. *)
Fixpoint valueFrom (n : Z) (s : string) : Z :=
  match s with
  | EmptyString => n
  | String c t => valueFrom (n * 10 + strconv.digitVal c) t
  end.

Definition decimalValue (s : string) : Z := valueFrom 0 s.

(** The digits without their leading zeros, the last digit being kept. *)
Fixpoint stripZeros (s : string) : string :=
  match s with
  | EmptyString => EmptyString
  | String c t =>
      match t with
      | EmptyString => s
      | _ => if Ascii.eqb c "0" then stripZeros t else s
      end
  end.

(** The first digit is not a zero. *)
Definition noLeadingZero (s : string) : bool :=
  match s with
  | EmptyString => false
  | String c _ => negb (Ascii.eqb c "0")
  end.

(** The text [hh:MM:SS.mmm] made of the given digits. *)
Definition nptText (hh : string) (m1 m2 s1 s2 f1 f2 f3 : ascii) : string :=
  hh ++ String ":" (String m1 (String m2 (String ":" (String s1 (String s2
    (String "." (String f1 (String f2 (String f3 EmptyString))))))))).

(** ** Byte ranges and positions *)

(** The test of the whole-resource fast path. *)
Definition wholeResource (rangeHeader : string) (totalSize : Z) : bool :=
  String.eqb rangeHeader "bytes=0-"
  || String.eqb rangeHeader ("bytes=0-" ++ strconv.FormatInt (Int64.sub totalSize 1)).

(** The largest duration whose [float64] is below 2^63, so that the
    conversion of the rounded position to [time.Duration] is defined. *)
Definition maxSafeDuration : Z := 2 ^ 63 - 513.

(** Every duration up to 2^53 nanoseconds (104 days) is a [float64]. *)
Definition maxExactDuration : Z := 2 ^ 53.

(** The product that [calculateNPTPosition] rounds. *)
Definition nanosAt (totalSize duration bytePos : Z) : Q :=
  big.Mul (big.SetFrac64 bytePos totalSize) (big.SetInt64 duration).

(** The rational a finite [spec_float] of the Standard Library denotes. *)
Definition Q_of_spec_float (f : spec_float) : Q :=
  match f with
  | S754_finite s m e =>
      Qmult (inject_Z (if s then Zneg m else Zpos m)) (big.pow2 e)
  | _ => 0%Q
  end.

(** The quotient [a/b] rounded as IEEE 754 binary64 does, by the division
    of [SpecFloat] on the integers [a] and [b]. *)
Definition binary64_quotient (a b : positive) : Q :=
  Q_of_spec_float (SFdiv 53 1024 (S754_finite false a 0) (S754_finite false b 0)).

(** ** Streams and tokenizer states *)


(** The reading of claim C6 on every state of the loop: a backslash and
    the byte after it add that byte, and nothing else, to the current
    field. *)
Definition backslash_escapes (l : transcode.lexer) (c : ascii) : Prop :=
  transcode.step (transcode.step l "\") c
  = transcode.mkLexer (transcode.largs l) (transcode.state l)
      (transcode.current l ++ transcode.string_of_byte c) (transcode.quote l)
      (transcode.escapeNext l).

(** ** Definitions for the further properties *)

(** The text starts with a decimal digit. *)
Definition startsWithDigit (s : string) : bool :=
  match s with
  | EmptyString => false
  | String c _ => strconv.isDigit c
  end.

(** The text has exactly two, or three, bytes. *)
Definition twoBytes (s : string) : bool :=
  match s with
  | String _ (String _ EmptyString) => true
  | _ => false
  end.

Definition threeBytes (s : string) : bool :=
  match s with
  | String _ (String _ (String _ EmptyString)) => true
  | _ => false
  end.

(** The text [hh:MM:SS.] followed by the fraction and the rest. *)
Definition nptPrefix (hh : string) (m1 m2 s1 s2 : ascii) (rest : string) : string :=
  hh ++ String ":" (String m1 (String m2 (String ":" (String s1 (String s2
    (String "." rest)))))).

(** ** Command lines *)

(** A byte with no meaning for the tokenizer: ASCII, and no blank, quote
    or backslash. *)
Definition plainByte (c : ascii) : bool :=
  (N_of_ascii c <? 128)%N
  && negb (Ascii.eqb c " ") && negb (Ascii.eqb c "009")
  && negb (Ascii.eqb c transcode.dquote) && negb (Ascii.eqb c "'")
  && negb (Ascii.eqb c "\").

Fixpoint plainBytes (w : string) : bool :=
  match w with
  | EmptyString => true
  | String c t => plainByte c && plainBytes t
  end.

(** A word: one plain byte at least. *)
Definition plainWord (w : string) : bool :=
  negb (String.eqb w EmptyString) && plainBytes w.

(** The words, with one space between two of them. *)
Fixpoint joinWords (ws : list string) : string :=
  match ws with
  | [] => EmptyString
  | [w] => w
  | w :: ws' => w ++ String " " (joinWords ws')
  end.

(** The bytes are ASCII, and none is the byte [q]. *)
Fixpoint asciiWithout (q : ascii) (s : string) : bool :=
  match s with
  | EmptyString => true
  | String c t => (N_of_ascii c <? 128)%N && negb (Ascii.eqb c q) && asciiWithout q t
  end.

(** All the bytes, in order. *)
Definition allBytes : list ascii := map (fun n => ascii_of_nat n) (seq 0 256).

(** The loop of the tokenizer holds an argument: one that is complete, or
    bytes of the current field. *)
Definition holdsArgument (l : transcode.lexer) : Prop :=
  transcode.largs l <> [] \/ transcode.current l <> EmptyString.

(** One of the two quotes. *)
Definition isQuote (q : ascii) : bool :=
  Ascii.eqb q transcode.dquote || Ascii.eqb q "'".

(** ** Stream plans *)

(** The number of [-map] options among the arguments. *)
Definition countMap (l : list string) : nat :=
  List.length (filter (String.eqb "-map") l).

(** The number of streams of a type. *)
Definition streamsOfType (ty : string) (l : list transcode.stream) : nat :=
  List.length (filter (fun st => transcode.isStr (st "codec_type") ty) l).

(** The streams for which the second copy of [generateStreamArgs] adds
    arguments: every video stream, the audio streams of six codecs
    ([truehd] with six channels at most) and the subtitles of two. *)
Definition strictSelected (st : transcode.stream) : bool :=
  transcode.isStr (st "codec_type") "video"
  || transcode.isStr (st "codec_type") "audio"
     && (transcode.isAny (st "codec_name") ["aac"; "dca"; "ac3"; "mp2"; "eac3"]
         || transcode.isStr (st "codec_name") "truehd"
            && negb (strict.tooManyChannels st))
  || transcode.isStr (st "codec_type") "subtitle"
     && transcode.isAny (st "codec_name") ["srt"; "dvdsub"].

(** The selected streams of a type. *)
Definition strictOfType (ty : string) (l : list transcode.stream) : nat :=
  streamsOfType ty (filter strictSelected l).

(** The counter of a type after a stream: one more if the stream is of
    that type. *)
Definition bump (st : transcode.stream) (ty : string) (k : Z) : Z :=
  if transcode.isStr (st "codec_type") ty then Int64.add k 1 else k.

(** ** The content features header *)

(** The flags that the header shows: the default ones for none. *)
Definition shownFlags (cf : features.ContentFeatures) : string :=
  if String.eqb (features.Flags cf) EmptyString then features.defaultFlags
  else features.Flags cf.

(** * Properties *)

(** ** The library models on sample inputs *)

Example FormatInt_ex1 : strconv.FormatInt 1234567890123 = "1234567890123".
Proof. reflexivity. Qed.
Example FormatInt_ex2 : strconv.FormatInt (-45) = "-45".
Proof. reflexivity. Qed.
Example FormatInt_ex3 : strconv.FormatInt 0 = "0".
Proof. reflexivity. Qed.
Example ParseInt_ex1 : strconv.ParseInt "+0012" = (12, None).
Proof. reflexivity. Qed.
Example ParseInt_ex2 : strconv.ParseInt "-9223372036854775808" = (- 2 ^ 63, None).
Proof. reflexivity. Qed.
Example ParseInt_ex3 :
  strconv.ParseInt "9223372036854775808"
  = (2 ^ 63 - 1, Some (ErrRange "ParseInt" "9223372036854775808")).
Proof. reflexivity. Qed.
Example ParseInt_ex4 :
  strconv.ParseInt "5,10-20" = (0, Some (ErrSyntax "ParseInt" "5,10-20")).
Proof. reflexivity. Qed.

Example ParseNPTTime_ex1 : dlna.ParseNPTTime "01:02:03.004" = (3723004000000, None).
Proof. reflexivity. Qed.
Example ParseNPTTime_ex2 : dlna.ParseNPTTime "abc" = (-1, Some ErrExpectedInteger).
Proof. reflexivity. Qed.
Example FormatNPTTime_ex1 : dlna.FormatNPTTime 3723004000000 = "01:02:03.004".
Proof. reflexivity. Qed.

(** The command [foo "bar baz" qux]. *)
Example parseCommandLine_ex1 :
  transcode.parseCommandLine
    ("foo " ++ String transcode.dquote ("bar baz" ++ String transcode.dquote " qux"))
  = (["foo"; "bar baz"; "qux"], None).
Proof. reflexivity. Qed.

Example Float64_one_third : (big.Float64 (1 # 3) == 6004799503160661 # 2 ^ 54)%Q.
Proof. reflexivity. Qed.
Example Float64_one_tenth : (big.Float64 (1 # 10) == 3602879701896397 # 2 ^ 55)%Q.
Proof. reflexivity. Qed.
Example Float64_tie_to_even :
  (big.Float64 (inject_Z (2 ^ 53 + 1)) == inject_Z (2 ^ 53))%Q
  /\ (big.Float64 (inject_Z (2 ^ 53 + 3)) == inject_Z (2 ^ 53 + 4))%Q.
Proof. split; reflexivity. Qed.
Example Round_half_away : math.Round (5 # 2) = 3 /\ math.Round (- 5 # 2) = -3.
Proof. split; reflexivity. Qed.

(** [Rat.Float64] as modelled agrees with the binary64 division of the
    Standard Library on quotients of every kind: inexact, tied, beyond 53
    bits and below one. *)
Example Float64_agrees_with_SpecFloat :
  (big.Float64 (1 # 3) == binary64_quotient 1 3)%Q
  /\ (big.Float64 (9007199254740993 # 1) == binary64_quotient 9007199254740993 1)%Q
  /\ (big.Float64 (9007199254740995 # 1) == binary64_quotient 9007199254740995 1)%Q
  /\ (big.Float64 (4611686018427388417 # 7)
      == binary64_quotient 4611686018427388417 7)%Q
  /\ (big.Float64 (9223372036854775807 # 9223372036854775806)
      == binary64_quotient 9223372036854775807 9223372036854775806)%Q
  /\ (big.Float64 (1 # 9223372036854775807)
      == binary64_quotient 1 9223372036854775807)%Q.
Proof. repeat split; vm_compute; reflexivity. Qed.

(** ** Machine integers and strings *)

Lemma wrap_in_range (z : Z) : Int64.in_range z -> Int64.wrap z = z.
Proof.
  unfold Int64.in_range, Int64.wrap, Int64.min_int, Int64.max_int.
  change (2 ^ 63) with 9223372036854775808.
  change (2 ^ 64) with 18446744073709551616.
  intros H. rewrite Z.mod_small; lia.
Qed.

Lemma in_rangeb_spec (z : Z) : Int64.in_rangeb z = true <-> Int64.in_range z.
Proof.
  unfold Int64.in_rangeb, Int64.in_range.
  rewrite andb_true_iff, !Z.leb_le. tauto.
Qed.

Lemma string_eqb_refl (s : string) : String.eqb s s = true.
Proof. apply String.eqb_eq. reflexivity. Qed.

Lemma Cut_Contains_false (s : string) (c : ascii) :
  strings.Contains s c = false -> strings.Cut s c = None.
Proof.
  induction s as [|d t IH]; simpl; [reflexivity|].
  rewrite orb_false_iff. intros [Hd Ht].
  rewrite Hd, (IH Ht). reflexivity.
Qed.

Lemma Cut_Contains_true (s : string) (c : ascii) :
  strings.Contains s c = true -> exists a b, strings.Cut s c = Some (a, b).
Proof.
  induction s as [|d t IH]; simpl; [discriminate|].
  destruct (Ascii.eqb d c); simpl.
  - intros _. now exists EmptyString, t.
  - intros Ht. destruct (IH Ht) as (a & b & ->). now exists (String d a), b.
Qed.

(** What [Cut] returns: the text around the first separator. *)
Lemma Cut_Some (s : string) (c : ascii) (a b : string) :
  strings.Cut s c = Some (a, b) ->
  s = a ++ String c b /\ strings.Contains a c = false.
Proof.
  revert a b. induction s as [|d t IH]; simpl; intros a b; [discriminate|].
  destruct (Ascii.eqb d c) eqn:E.
  - intros [= <- <-]. apply Ascii.eqb_eq in E. subst d. now split.
  - destruct (strings.Cut t c) as [[a' b']|]; [|discriminate].
    intros [= <- <-]. destruct (IH a' b' eq_refl) as [-> Hc].
    simpl. now rewrite E.
Qed.

Lemma strip_prefix_Some (p s t : string) :
  strings.strip_prefix p s = Some t -> s = p ++ t.
Proof.
  revert s. induction p as [|a p IH]; intros [|b s]; simpl; try discriminate.
  - now intros [= <-].
  - now intros [= <-].
  - destruct (Ascii.eqb a b) eqn:E; [|discriminate].
    apply Ascii.eqb_eq in E. subst b. intros H. now rewrite (IH _ H).
Qed.

(** ** The whole-resource fast path (claim C1) *)

(** C1.  For every total size that is positive (and an [int64]) and every
    duration, the headers ["bytes=0-"] and ["bytes=0-<totalSize-1>"] give,
    without an error, the range from time 0 to the whole duration and from
    byte 0 to byte [totalSize-1].  The result is the same whatever function
    is put in the place of [calculateNPTPosition]: the fast path does not
    call the rational arithmetic. *)
Theorem ParseHTTPRangeToNPTRange_whole_resource :
  forall (position : Z -> Z -> Z -> Z) (totalSize duration : Z),
    0 < totalSize -> totalSize <= Int64.max_int ->
    let whole := (dlna.mkNPTRange 0 duration 0 (totalSize - 1), @None error) in
    let lastByte := "bytes=0-" ++ strconv.FormatInt (totalSize - 1) in
    dlna.ParseHTTPRangeToNPTRange_with position "bytes=0-" totalSize duration = whole
    /\ dlna.ParseHTTPRangeToNPTRange_with position lastByte totalSize duration = whole
    /\ dlna.ParseHTTPRangeToNPTRange "bytes=0-" totalSize duration = whole
    /\ dlna.ParseHTTPRangeToNPTRange lastByte totalSize duration = whole.
Proof.
  intros position totalSize duration Hpos Hmax whole lastByte.
  assert (Hsub : Int64.sub totalSize 1 = totalSize - 1).
  { apply wrap_in_range. unfold Int64.in_range, Int64.min_int, Int64.max_int in *.
    change (2 ^ 63) with 9223372036854775808 in *. lia. }
  assert (Hfast : forall pos h,
             h = "bytes=0-" \/ h = lastByte ->
             dlna.ParseHTTPRangeToNPTRange_with pos h totalSize duration = whole).
  { intros pos h Hh. unfold dlna.ParseHTTPRangeToNPTRange_with.
    rewrite Hsub.
    destruct Hh as [-> | ->].
    - reflexivity.
    - unfold lastByte, dlna.prefix.
      replace (String.eqb _ ("bytes=" ++ "0-" ++ strconv.FormatInt (totalSize - 1)))
        with true by (symmetry; apply string_eqb_refl).
      rewrite orb_true_r. reflexivity. }
  unfold dlna.ParseHTTPRangeToNPTRange.
  repeat split; apply Hfast; auto.
Qed.

Lemma ParseHTTPRangeToNPTRange_whole_resource_witness :
  dlna.ParseHTTPRangeToNPTRange "bytes=0-" 100 1000
  = (dlna.mkNPTRange 0 1000 0 99, None)
  /\ dlna.ParseHTTPRangeToNPTRange "bytes=0-99" 100 1000
     = (dlna.mkNPTRange 0 1000 0 99, None).
Proof.
  destruct (ParseHTTPRangeToNPTRange_whole_resource
              dlna.calculateNPTPosition 100 1000) as (_ & _ & H1 & H2).
  - lia.
  - vm_compute. discriminate.
  - split; [exact H1 | exact H2].
Defined.

(** ** NPT times need their fraction (claim C3) *)

(** A scan that ends without an error has assigned every operand. *)
Lemma doScanf_complete (format : list fmt.directive) :
  forall s vals vals',
    fmt.doScanf format s vals = (vals', None) ->
    List.length vals' = (List.length vals + verbs format)%nat.
Proof.
  induction format as [|d format IH]; intros s vals vals'; simpl.
  - intros [= <-]. lia.
  - destruct d as [w|c].
    + destruct (fmt.SkipSpace s) as [s1|e]; [|discriminate].
      destruct (fmt.scanInt w s1) as [[v s2]|e]; [|discriminate].
      intros H. apply IH in H. rewrite H, length_app. simpl. lia.
    + destruct s as [|c' s']; [discriminate|].
      destruct (Ascii.eqb c c'); [|discriminate].
      intros H. apply IH in H. rewrite H. lia.
Qed.

(** C3.  The text ["1:00:00"] has its hour, minute and second fields, and
    [ParseNPTTime] rejects it: [Sscanf] reports the missing ["."] of the
    format as an error, and the function returns on that error before it
    looks at the count.  In general a successful parse has scanned all four
    fields, so that [n < 3] never holds where it is tested. *)
Theorem ParseNPTTime_rejects_missing_fraction :
  dlna.ParseNPTTime "1:00:00" = (-1, Some ErrUnexpectedEOF)
  /\ fmt.Sscanf "1:00:00" dlna.nptFormat = ([1; 0; 0], Some ErrUnexpectedEOF)
  /\ forall s, snd (dlna.ParseNPTTime s) = None ->
               List.length (fst (fmt.Sscanf s dlna.nptFormat)) = 4%nat.
Proof.
  split; [reflexivity|]. split; [reflexivity|].
  intros s. unfold dlna.ParseNPTTime, fmt.Sscanf.
  destruct (fmt.doScanf dlna.nptFormat s []) as [vals [e|]] eqn:E; simpl.
  - discriminate.
  - intros _. apply doScanf_complete in E. exact E.
Qed.

(** ** The command line tokenizer (claims C5 and C6) *)

Section Tokenizer.
Import transcode.

(** The loop ends inside a quoted field: the tokenizer reports the whole
    command and returns no argument. *)
Lemma parseCommandLine_unclosed (command : string) :
  state (run initial command) = StateQuotes ->
  parseCommandLine command = ([], Some (ErrUnclosedQuote command)).
Proof.
  unfold parseCommandLine. intros ->. reflexivity.
Qed.

Lemma string_of_byte_eqb (c q : ascii) :
  Ascii.eqb c q = false ->
  String.eqb (string_of_byte c) (String q EmptyString) = false.
Proof.
  intros Hcq. apply String.eqb_neq. unfold string_of_byte.
  destruct (N_of_ascii c <? 128)%N.
  - intros [= ->]. now rewrite Ascii.eqb_refl in Hcq.
  - discriminate.
Qed.

(** Once inside a quoted field, bytes other than the quote keep the loop
    there. *)
Lemma run_in_quotes (rest : string) :
  forall l q,
    state l = StateQuotes -> quote l = String q EmptyString ->
    strings.Contains rest q = false ->
    state (run l rest) = StateQuotes.
Proof.
  induction rest as [|c rest IH]; intros l q Hs Hq Hc.
  - exact Hs.
  - simpl in Hc. apply orb_false_iff in Hc. destruct Hc as [Hcq Hrest].
    change (run l (String c rest)) with (run (step l c) rest).
    assert (Hstep : step l c
                    = mkLexer (largs l) StateQuotes (current l ++ string_of_byte c)
                        (quote l) (escapeNext l)).
    { unfold step. rewrite Hs, Hq, (string_of_byte_eqb _ _ Hcq). reflexivity. }
    rewrite Hstep. apply (IH _ q); simpl; auto.
Qed.

(** C5.  The command made of a double quote and [abc] opens a quoted
    field that nothing closes, and the tokenizer returns it as one
    argument, without an error: the flag [escapeNext] starts at [true],
    so the quote at position 0 is taken for an escaped byte.  A quote
    that is opened at a later position and never closed is reported, as
    the second part states for a quote after a complete first argument. *)
Theorem parseCommandLine_leading_quote_not_reported :
  parseCommandLine (String dquote "abc") = ([String dquote "abc"], None)
  /\ (forall rest, strings.Contains rest dquote = false ->
        parseCommandLine ("x " ++ String dquote rest)
        = ([], Some (ErrUnclosedQuote ("x " ++ String dquote rest)))).
Proof.
  split; [reflexivity|].
  intros rest Hrest. apply parseCommandLine_unclosed.
  change (run initial ("x " ++ String dquote rest))
    with (run (mkLexer [] StateQuotes "x" dquoteString false) rest).
  now apply (run_in_quotes rest _ dquote).
Qed.

(** Inside a quoted field the backslash is an ordinary byte: in the
    command [ab "c\" d] it stays in the field and the quote after it
    closes the field. *)
Lemma backslash_in_quotes_is_literal :
  parseCommandLine ("ab " ++ String dquote ("c\" ++ String dquote " d"))
  = (["ab"; "c\"; "d"], None)
  /\ ~ backslash_escapes (mkLexer ["ab"] StateQuotes "c" dquoteString false) dquote.
Proof.
  split; [reflexivity|]. unfold backslash_escapes. simpl. discriminate.
Qed.

(** C6, amended.  Outside a quoted field a backslash that is not itself
    escaped is dropped and the byte after it is added to the current
    field as it is, whatever that byte.  The first byte of the command is
    treated in the same way: the loop goes on from the state in which the
    current field holds that byte, no field is open and no escape is
    pending, so that a quote or a backslash at position 0 has no special
    meaning. *)
Theorem backslash_escapes_outside_quotes :
  forall (l : lexer) (c : ascii) (rest : string),
    state l <> StateQuotes -> escapeNext l = false ->
    backslash_escapes l c
    /\ run initial (String c rest)
       = run (mkLexer [] StateStart (string_of_byte c) dquoteString false) rest.
Proof.
  intros l c rest Hs He. split.
  - unfold backslash_escapes, step.
    destruct l as [a s cur q e]. simpl in *. subst e.
    destruct s; try congruence; reflexivity.
  - reflexivity.
Qed.

Lemma backslash_escapes_outside_quotes_witness :
  step (step (mkLexer ["a"] StateArg "b" dquoteString false) "\") dquote
  = mkLexer ["a"] StateArg (String "b" dquoteString) dquoteString false
  /\ run initial (String dquote "abc")
     = run (mkLexer [] StateStart dquoteString dquoteString false) "abc".
Proof.
  destruct (backslash_escapes_outside_quotes
              (mkLexer ["a"] StateArg "b" dquoteString false) dquote "abc") as [H1 H2].
  - simpl. discriminate.
  - reflexivity.
  - split; [exact H1 | exact H2].
Defined.

End Tokenizer.

(** ** The stream codec planner (claim C8) *)

Section PlannerProperties.
Import transcode.

Variable numberFloat64 : string -> Q.






End PlannerProperties.


(** ** NPT ranges without a separator (claim C10) *)

(** A text with no ["-"] and no NPT time either: [ParseNPTRange] returns
    the error of [ParseNPTTime] and never reads the second component. *)
Lemma ParseNPTRange_returns_without_separator :
  strings.Contains "abc" "-" = false
  /\ dlna.ParseNPTRange "abc"
     = Returns (dlna.mkNPTRange (-1) 0 0 0, Some ErrExpectedInteger).
Proof. split; reflexivity. Qed.

(** C10, amended.  On a text with a ["-"] [ParseNPTRange] returns.  On a
    text without one it panics on the second component (index 1 of a slice
    of length 1) when the text is empty or is an NPT time; when the text is
    not empty and [ParseNPTTime] rejects it, the function returns that error,
    with the [-1] of the failed parse in [Start]. *)
Theorem ParseNPTRange_outcome :
  forall s : string,
    if strings.Contains s "-"
    then exists r, dlna.ParseNPTRange s = Returns r
    else dlna.ParseNPTRange s
         = match dlna.ParseNPTTime s with
           | (t, Some e) =>
               if String.eqb s EmptyString
               then Panics (IndexOutOfRange 1 1)
               else Returns (dlna.mkNPTRange t 0 0 0, Some e)
           | (_, None) => Panics (IndexOutOfRange 1 1)
           end.
Proof.
  intros s. destruct (strings.Contains s "-") eqn:Hc.
  - destruct (Cut_Contains_true _ _ Hc) as (a & b & Hcut).
    unfold dlna.ParseNPTRange, strings.SplitN2. rewrite Hcut. simpl.
    destruct (negb (String.eqb a EmptyString)).
    + destruct (dlna.ParseNPTTime a) as [t [e|]].
      * eexists; reflexivity.
      * destruct (negb (String.eqb b EmptyString));
          [destruct (dlna.ParseNPTTime b)|]; eexists; reflexivity.
    + destruct (negb (String.eqb b EmptyString));
        [destruct (dlna.ParseNPTTime b)|]; eexists; reflexivity.
  - unfold dlna.ParseNPTRange, strings.SplitN2.
    rewrite (Cut_Contains_false _ _ Hc). simpl.
    destruct (String.eqb s EmptyString) eqn:E; simpl.
    + apply String.eqb_eq in E. subst s. reflexivity.
    + destruct (dlna.ParseNPTTime s) as [t [e|]]; reflexivity.
Qed.

(** ** Validation of a byte range (claim C4) *)

Lemma Contains_app (s t : string) (c : ascii) :
  strings.Contains (s ++ t) c = strings.Contains s c || strings.Contains t c.
Proof.
  induction s as [|d s IH]; simpl; [reflexivity|].
  now rewrite IH, orb_assoc.
Qed.

(** The digit loop fails with a syntax error, or with a range error and the
    largest value; when it succeeds every byte was a digit. *)
Lemma parseUintLoop_result (s0 s : string) :
  forall n un err,
    strconv.parseUintLoop s0 s n = (un, err) ->
    match err with
    | None => allDigits s = true
    | Some (ErrSyntax _ _) => True
    | Some (ErrRange _ _) => un = strconv.maxUint64
    | Some _ => False
    end.
Proof.
  induction s as [|c t IH]; intros n un err;
    cbn [strconv.parseUintLoop allDigits].
  - intros [= <- <-]. reflexivity.
  - destruct (strconv.isDigit c); cbn [andb].
    + destruct (strconv.maxUint64 / 10 + 1 <=? n).
      * intros [= <- <-]. reflexivity.
      * destruct (strconv.maxUint64 <? n * 10 + strconv.digitVal c).
        -- intros [= <- <-]. reflexivity.
        -- apply IH.
    + intros [= <- <-]. exact I.
Qed.

Lemma ParseInt_isDecimal (s : string) (v : Z) :
  strconv.ParseInt s = (v, None) -> isDecimal s = true.
Proof.
  unfold strconv.ParseInt, isDecimal.
  destruct s as [|c t]; [discriminate|]. cbv zeta.
  set (body := if Ascii.eqb c "+" || Ascii.eqb c "-" then t else String c t).
  unfold strconv.ParseUint.
  destruct body as [|d u]; [discriminate|].
  destruct (strconv.parseUintLoop (String d u) (String d u) 0) as [un err] eqn:E.
  pose proof (parseUintLoop_result _ _ _ _ _ E) as H.
  destruct err as [e|].
  - destruct e; try contradiction; try discriminate.
    subst un. change (2 ^ 63 <=? strconv.maxUint64) with true.
    change (2 ^ 63 <? strconv.maxUint64) with true.
    destruct (Ascii.eqb c "-"); discriminate.
  - intros _. exact H.
Qed.

Lemma isDigit_not_comma (c : ascii) :
  strconv.isDigit c = true -> Ascii.eqb c "," = false.
Proof.
  intros H. destruct (Ascii.eqb c ",") eqn:E; [|reflexivity].
  apply Ascii.eqb_eq in E. subst c. discriminate.
Qed.

Lemma allDigits_no_comma (s : string) :
  allDigits s = true -> strings.Contains s "," = false.
Proof.
  induction s as [|c t IH]; simpl; [reflexivity|].
  rewrite andb_true_iff. intros [Hc Ht].
  now rewrite (isDigit_not_comma _ Hc), (IH Ht).
Qed.

Lemma isDecimal_no_comma (s : string) :
  isDecimal s = true -> strings.Contains s "," = false.
Proof.
  unfold isDecimal. destruct s as [|c t]; [discriminate|].
  destruct (Ascii.eqb c "+" || Ascii.eqb c "-") eqn:Hsign.
  - destruct t as [|d u]; [discriminate|]. intros H.
    change (strings.Contains (String c (String d u)) ",")
      with (Ascii.eqb c "," || strings.Contains (String d u) ",").
    rewrite (allDigits_no_comma _ H), orb_false_r.
    apply orb_true_iff in Hsign.
    destruct Hsign as [E|E]; apply Ascii.eqb_eq in E; subst c; reflexivity.
  - apply allDigits_no_comma.
Qed.

(** Numbers with a sign are not malformed for [ParseHTTPRangeToNPTRange]:
    it reads them with [strconv.ParseInt], so that [bytes=+1-+2] gives the
    range of the bytes 1 to 2, and [bytes=0--0], whose end is [-0], the
    range of byte 0.  Neither header takes the fast path. *)
Lemma ParseHTTPRangeToNPTRange_accepts_signed :
  dlna.ParseHTTPRangeToNPTRange "bytes=+1-+2" 100 1000
  = (dlna.mkNPTRange 10 30 1 2, None)
  /\ dlna.ParseHTTPRangeToNPTRange "bytes=0--0" 100 1000
     = (dlna.mkNPTRange 0 10 0 0, None)
  /\ wholeResource "bytes=+1-+2" 100 = false
  /\ wholeResource "bytes=0--0" 100 = false.
Proof. vm_compute. repeat split. Qed.

(** C4, amended.  A header that does not take the fast path gives a range
    only when it reads ["bytes=" start "-" end], both numbers in the syntax
    of [strconv.ParseInt]: [start] is made of digits, after a [+] or not
    (it holds no [-], the header being cut at the first one), and [end] is
    nothing (then the last byte) or digits after a sign or not; the values
    read satisfy [0 <= start <= end < totalSize], and the bytes of the range
    are those offsets.  Every error comes with the zero range, and a header
    with a comma (several ranges) is an error. *)
Theorem ParseHTTPRangeToNPTRange_validates :
  forall (rangeHeader : string) (totalSize duration : Z)
         (r : dlna.NPTRange) (err : option error),
    Int64.in_range totalSize ->
    wholeResource rangeHeader totalSize = false ->
    dlna.ParseHTTPRangeToNPTRange rangeHeader totalSize duration = (r, err) ->
    (err = None ->
     exists a b,
       rangeHeader = "bytes=" ++ a ++ "-" ++ b
       /\ isDecimal a = true
       /\ strings.Contains a "-" = false
       /\ strconv.ParseInt a = (dlna.StartByte r, None)
       /\ (if String.eqb b EmptyString
           then dlna.EndByte r = totalSize - 1
           else isDecimal b = true /\ strconv.ParseInt b = (dlna.EndByte r, None))
       /\ 0 <= dlna.StartByte r <= dlna.EndByte r
       /\ dlna.EndByte r < totalSize)
    /\ (err <> None -> r = dlna.zeroRange)
    /\ (strings.Contains rangeHeader "," = true -> err <> None).
Proof.
  intros h ts d r err Hts Hw.
  unfold dlna.ParseHTTPRangeToNPTRange, dlna.ParseHTTPRangeToNPTRange_with.
  change (String.eqb h (dlna.prefix ++ "0-")
          || String.eqb h (dlna.prefix ++ "0-" ++ strconv.FormatInt (Int64.sub ts 1)))
    with (wholeResource h ts).
  rewrite Hw.
  unfold strings.HasPrefix, strings.TrimPrefix.
  destruct (strings.strip_prefix dlna.prefix h) as [spec|] eqn:Hp; cbn [negb];
    [|intros [= <- <-]; repeat split; congruence].
  apply strip_prefix_Some in Hp.
  unfold strings.SplitN2.
  destruct (strings.Cut spec "-") as [[a b]|] eqn:Hcut;
    [|intros [= <- <-]; repeat split; congruence].
  apply Cut_Some in Hcut. destruct Hcut as [Hspec Hdash].
  destruct (strconv.ParseInt a) as [sb [ea|]] eqn:Ha;
    [intros [= <- <-]; repeat split; congruence|].
  destruct (String.eqb b EmptyString) eqn:Hb; cbn [negb].
  - (* no end: the last byte *)
    destruct ((sb <? 0) || (ts <=? Int64.sub ts 1) || (Int64.sub ts 1 <? sb)) eqn:Hbounds;
      [intros [= <- <-]; repeat split; congruence|].
    intros [= <- <-].
    apply orb_false_iff in Hbounds. destruct Hbounds as [Hbounds H3].
    apply orb_false_iff in Hbounds. destruct Hbounds as [H1 H2].
    apply Z.ltb_ge in H1, H3. apply Z.leb_gt in H2.
    assert (Hlast : Int64.sub ts 1 = ts - 1).
    { unfold Int64.sub. apply wrap_in_range.
      unfold Int64.sub, Int64.wrap, Int64.in_range, Int64.min_int, Int64.max_int in *.
      change (2 ^ 63) with 9223372036854775808 in *.
      change (2 ^ 64) with 18446744073709551616 in *.
      destruct (Z.eq_dec ts (-9223372036854775808)) as [->|Hne]; [|lia].
      exfalso. revert H2. vm_compute. discriminate. }
    apply String.eqb_eq in Hb. subst b.
    split; [|split].
    + intros _. exists a, EmptyString. cbn [dlna.StartByte dlna.EndByte].
      rewrite Hlast in *.
      repeat split; try lia; try assumption.
      * rewrite Hp, Hspec. reflexivity.
      * exact (ParseInt_isDecimal _ _ Ha).
    + congruence.
    + intros Hcomma _. rewrite Hp, Hspec, !Contains_app in Hcomma.
      rewrite (isDecimal_no_comma _ (ParseInt_isDecimal _ _ Ha)) in Hcomma.
      discriminate.
  - (* an end offset *)
    destruct (strconv.ParseInt b) as [eb [ee|]] eqn:Heb;
      [intros [= <- <-]; repeat split; congruence|].
    destruct ((sb <? 0) || (ts <=? eb) || (eb <? sb)) eqn:Hbounds;
      [intros [= <- <-]; repeat split; congruence|].
    intros [= <- <-].
    apply orb_false_iff in Hbounds. destruct Hbounds as [Hbounds H3].
    apply orb_false_iff in Hbounds. destruct Hbounds as [H1 H2].
    apply Z.ltb_ge in H1, H3. apply Z.leb_gt in H2.
    split; [|split].
    + intros _. exists a, b. cbn [dlna.StartByte dlna.EndByte]. rewrite Hb.
      repeat split; try lia; try assumption.
      * rewrite Hp, Hspec. reflexivity.
      * exact (ParseInt_isDecimal _ _ Ha).
      * exact (ParseInt_isDecimal _ _ Heb).
    + congruence.
    + intros Hcomma _. rewrite Hp, Hspec, !Contains_app in Hcomma.
      rewrite (isDecimal_no_comma _ (ParseInt_isDecimal _ _ Ha)) in Hcomma.
      cbn [strings.Contains] in Hcomma.
      rewrite (isDecimal_no_comma _ (ParseInt_isDecimal _ _ Heb)) in Hcomma.
      discriminate.
Qed.

Lemma ParseHTTPRangeToNPTRange_validates_witness :
  (exists a b,
     "bytes=10-19" = "bytes=" ++ a ++ "-" ++ b
     /\ isDecimal a = true
     /\ strings.Contains a "-" = false
     /\ strconv.ParseInt a = (10, None)
     /\ (if String.eqb b EmptyString then 19 = 100 - 1
         else isDecimal b = true /\ strconv.ParseInt b = (19, None))
     /\ 0 <= 10 <= 19 /\ 19 < 100)
  /\ snd (dlna.ParseHTTPRangeToNPTRange "bytes=0-5,10-20" 100 1000) <> None.
Proof.
  split.
  - destruct (ParseHTTPRangeToNPTRange_validates "bytes=10-19" 100 1000
                (dlna.mkNPTRange 100 200 10 19) None) as [H _].
    + vm_compute. split; discriminate.
    + reflexivity.
    + vm_compute. reflexivity.
    + exact (H eq_refl).
  - destruct (ParseHTTPRangeToNPTRange_validates "bytes=0-5,10-20" 100 1000
                dlna.zeroRange (Some ErrInvalidEndByte)) as (_ & _ & H).
    + vm_compute. split; discriminate.
    + reflexivity.
    + vm_compute. reflexivity.
    + exact (H eq_refl).
Defined.

(** ** Decimal digits *)

Lemma isDigit_cases (c : ascii) :
  strconv.isDigit c = true ->
  c = "0"%char \/ c = "1"%char \/ c = "2"%char \/ c = "3"%char \/ c = "4"%char
  \/ c = "5"%char \/ c = "6"%char \/ c = "7"%char \/ c = "8"%char \/ c = "9"%char.
Proof.
  destruct c as [[] [] [] [] [] [] [] []]; intros H; try discriminate H; tauto.
Qed.

Ltac digit_cases H :=
  apply isDigit_cases in H;
  destruct H as [H|[H|[H|[H|[H|[H|[H|[H|[H|H]]]]]]]]]; subst.

Lemma digitVal_range (c : ascii) :
  strconv.isDigit c = true -> 0 <= strconv.digitVal c <= 9.
Proof. intros H. digit_cases H; vm_compute; split; discriminate. Qed.

Lemma digitChar_digitVal (c : ascii) :
  strconv.isDigit c = true -> strconv.digitChar (strconv.digitVal c) = c.
Proof. intros H. digit_cases H; reflexivity. Qed.

Lemma digitVal_zero (c : ascii) :
  strconv.isDigit c = true -> strconv.digitVal c = 0 -> c = "0"%char.
Proof. intros H. digit_cases H; vm_compute; congruence. Qed.

Lemma isDigit_not_sign (c : ascii) :
  strconv.isDigit c = true -> Ascii.eqb c "+" || Ascii.eqb c "-" = false.
Proof. intros H. digit_cases H; reflexivity. Qed.

Lemma SkipSpace_digit (c : ascii) (t : string) :
  strconv.isDigit c = true -> fmt.SkipSpace (String c t) = inl (String c t).
Proof.
  intros H. destruct t as [|c2 [|c3 t3]]; digit_cases H; reflexivity.
Qed.

Lemma valueFrom_ge (s : string) :
  forall n, 0 <= n -> allDigits s = true -> n <= valueFrom n s.
Proof.
  induction s as [|c t IH]; intros n Hn Hs; simpl in *; [lia|].
  apply andb_true_iff in Hs. destruct Hs as [Hc Ht].
  pose proof (digitVal_range c Hc).
  specialize (IH (n * 10 + strconv.digitVal c) ltac:(lia) Ht). lia.
Qed.

Lemma valueFrom_snoc (s : string) (c : ascii) :
  forall n, valueFrom n (s ++ String c EmptyString)
            = valueFrom n s * 10 + strconv.digitVal c.
Proof. induction s as [|d t IH]; intros n; simpl; [reflexivity|apply IH]. Qed.

(** A number has at least as many bits as decimal digits. *)
Lemma valueFrom_pow2 (s : string) :
  forall n, 0 <= n -> allDigits s = true ->
            n * 2 ^ Z.of_nat (String.length s) <= valueFrom n s.
Proof.
  induction s as [|c t IH]; intros n Hn Hs.
  - simpl. lia.
  - cbn [valueFrom String.length]. simpl in Hs.
    apply andb_true_iff in Hs. destruct Hs as [Hc Ht].
    pose proof (digitVal_range c Hc).
    specialize (IH (n * 10 + strconv.digitVal c) ltac:(lia) Ht).
    rewrite Nat2Z.inj_succ, Z.pow_succ_r by lia.
    assert (0 < 2 ^ Z.of_nat (String.length t)) by (apply Z.pow_pos_nonneg; lia).
    nia.
Qed.

(** The digit loop of [ParseUint] computes the value of a string of digits
    that fits 64 bits. *)
Lemma parseUintLoop_digits (s0 s : string) :
  forall n, 0 <= n -> allDigits s = true -> valueFrom n s <= strconv.maxUint64 ->
            strconv.parseUintLoop s0 s n = (valueFrom n s, None).
Proof.
  induction s as [|c t IH]; intros n Hn Hs Hmax;
    cbn [strconv.parseUintLoop valueFrom]; [reflexivity|].
  simpl in Hs. apply andb_true_iff in Hs. destruct Hs as [Hc Ht].
  rewrite Hc.
  pose proof (digitVal_range c Hc) as Hd.
  pose proof (valueFrom_ge t (n * 10 + strconv.digitVal c) ltac:(lia) Ht) as Hge.
  cbn [valueFrom] in Hmax.
  unfold strconv.maxUint64 in *.
  change (2 ^ 64 - 1) with 18446744073709551615 in *.
  change (18446744073709551615 / 10 + 1) with 1844674407370955162.
  destruct (1844674407370955162 <=? n) eqn:E1; [apply Z.leb_le in E1; lia|].
  destruct (18446744073709551615 <? n * 10 + strconv.digitVal c) eqn:E2;
    [apply Z.ltb_lt in E2; lia|].
  apply IH; [lia|exact Ht|exact Hmax].
Qed.

Lemma ParseInt_digits (s : string) :
  s <> EmptyString -> allDigits s = true -> decimalValue s <= Int64.max_int ->
  strconv.ParseInt s = (decimalValue s, None).
Proof.
  intros Hne Hs Hmax. destruct s as [|c t]; [congruence|].
  unfold strconv.ParseInt. cbv zeta.
  pose proof Hs as Hs'. simpl in Hs'. apply andb_true_iff in Hs'.
  destruct Hs' as [Hc _].
  pose proof (isDigit_not_sign c Hc) as Hsign.
  apply orb_false_iff in Hsign. destruct Hsign as [Hplus Hminus].
  rewrite Hplus, Hminus. cbn [orb negb andb].
  unfold strconv.ParseUint.
  unfold Int64.max_int in Hmax. change (2 ^ 63 - 1) with 9223372036854775807 in Hmax.
  rewrite parseUintLoop_digits; fold (decimalValue (String c t)).
  - change (2 ^ 63) with 9223372036854775808.
    destruct (9223372036854775808 <=? decimalValue (String c t)) eqn:E;
      [apply Z.leb_le in E; lia|reflexivity].
  - lia.
  - exact Hs.
  - unfold strconv.maxUint64. change (2 ^ 64 - 1) with 18446744073709551615. lia.
Qed.

Lemma string_last (t : string) :
  forall c, exists s d,
    String c t = s ++ String d EmptyString /\ String.length s = String.length t.
Proof.
  induction t as [|c' t IH]; intros c.
  - exists EmptyString, c. now split.
  - destruct (IH c') as (s & d & Hs & Hl).
    exists (String c s), d. simpl. rewrite Hs, Hl. now split.
Qed.

Lemma string_snoc_ind (P : string -> Prop) :
  P EmptyString ->
  (forall s c, P s -> P (s ++ String c EmptyString)) ->
  forall s, P s.
Proof.
  intros Hnil Hsnoc s.
  remember (String.length s) as n eqn:Hn. revert s Hn.
  induction n as [|n IH]; intros s Hn.
  - destruct s; [exact Hnil|discriminate].
  - destruct s as [|c t]; [discriminate|].
    destruct (string_last t c) as (s' & d & -> & Hl).
    apply Hsnoc, IH. simpl in Hn. congruence.
Qed.

Lemma append_assoc (a b c : string) : (a ++ b) ++ c = a ++ (b ++ c).
Proof. induction a as [|x a IH]; simpl; [reflexivity|now rewrite IH]. Qed.

Lemma append_nil_r (a : string) : a ++ EmptyString = a.
Proof. induction a as [|x a IH]; simpl; [reflexivity|now rewrite IH]. Qed.

Lemma length_append (a b : string) :
  String.length (a ++ b) = (String.length a + String.length b)%nat.
Proof. induction a as [|x a IH]; simpl; [reflexivity|now rewrite IH]. Qed.

Lemma allDigits_app (a b : string) :
  allDigits (a ++ b) = allDigits a && allDigits b.
Proof.
  induction a as [|x a IH]; simpl; [reflexivity|].
  now rewrite IH, andb_assoc.
Qed.

Lemma decimalValue_positive (s : string) :
  allDigits s = true -> noLeadingZero s = true -> 1 <= decimalValue s.
Proof.
  destruct s as [|c t]; [discriminate|]. simpl. intros Hs Hc.
  apply andb_true_iff in Hs. destruct Hs as [Hd Ht].
  unfold decimalValue. cbn [valueFrom].
  pose proof (digitVal_range c Hd) as Hr.
  pose proof (valueFrom_ge t (0 * 10 + strconv.digitVal c) ltac:(lia) Ht) as Hge.
  assert (strconv.digitVal c <> 0).
  { intros H0. apply (digitVal_zero c Hd) in H0. subst c. discriminate. }
  lia.
Qed.

(** The digit loop of [formatBits] writes back the digits of a number that
    has no leading zero, given fuel for each of them. *)
Lemma formatBits_digits (s : string) :
  forall acc fuel,
    allDigits s = true -> noLeadingZero s = true ->
    (String.length s <= fuel)%nat ->
    strconv.formatBits fuel (decimalValue s) acc = s ++ acc.
Proof.
  induction s as [|s c IH] using string_snoc_ind; intros acc fuel Hs Hz Hf.
  - discriminate.
  - rewrite allDigits_app in Hs. apply andb_true_iff in Hs.
    destruct Hs as [Hs Hc]. simpl in Hc. rewrite andb_true_r in Hc.
    rewrite length_append in Hf. simpl in Hf.
    destruct fuel as [|f]; [lia|].
    unfold decimalValue. rewrite valueFrom_snoc. fold (decimalValue s).
    pose proof (digitVal_range c Hc) as Hr.
    cbn [strconv.formatBits].
    destruct s as [|c0 t].
    + (* one digit *)
      simpl in Hz. change (decimalValue EmptyString) with 0.
      replace (0 * 10 + strconv.digitVal c) with (strconv.digitVal c) by lia.
      destruct (strconv.digitVal c <? 10) eqn:E; [|apply Z.ltb_ge in E; lia].
      now rewrite (digitChar_digitVal c Hc).
    + (* the digits before the last one are a number of their own *)
      assert (Hz' : noLeadingZero (String c0 t) = true) by exact Hz.
      pose proof (decimalValue_positive _ Hs Hz') as Hpos.
      destruct (decimalValue (String c0 t) * 10 + strconv.digitVal c <? 10) eqn:E;
        [apply Z.ltb_lt in E; lia|].
      replace ((decimalValue (String c0 t) * 10 + strconv.digitVal c) / 10)
        with (decimalValue (String c0 t))
        by (apply Z.div_unique with (r := strconv.digitVal c); lia).
      replace ((decimalValue (String c0 t) * 10 + strconv.digitVal c) mod 10)
        with (strconv.digitVal c)
        by (apply Z.mod_unique with (q := decimalValue (String c0 t)); lia).
      rewrite (digitChar_digitVal c Hc).
      rewrite IH by (auto; lia).
      now rewrite append_assoc.
Qed.

Lemma FormatUint_digits (s : string) :
  allDigits s = true -> noLeadingZero s = true ->
  strconv.FormatUint (decimalValue s) = s.
Proof.
  intros Hs Hz. unfold strconv.FormatUint.
  rewrite formatBits_digits; auto using append_nil_r.
  destruct s as [|c t]; [discriminate|].
  pose proof Hs as Hs'. simpl in Hs'. apply andb_true_iff in Hs'.
  destruct Hs' as [Hc Ht].
  pose proof (decimalValue_positive _ Hs Hz) as Hpos.
  assert (Hc1 : 1 <= strconv.digitVal c).
  { pose proof (digitVal_range c Hc).
    assert (strconv.digitVal c <> 0); [|lia].
    intros H0. apply (digitVal_zero c Hc) in H0. subst c. discriminate. }
  pose proof (valueFrom_pow2 t (0 * 10 + strconv.digitVal c) ltac:(lia) Ht) as Hp.
  assert (Hpow : 2 ^ Z.of_nat (String.length t) <= decimalValue (String c t)).
  { unfold decimalValue. cbn [valueFrom].
    assert (0 < 2 ^ Z.of_nat (String.length t)) by (apply Z.pow_pos_nonneg; lia).
    nia. }
  apply Z.log2_le_mono in Hpow. rewrite Z.log2_pow2 in Hpow by lia.
  simpl String.length. lia.
Qed.

Lemma FormatUint_digit (c : ascii) :
  strconv.isDigit c = true ->
  strconv.FormatUint (strconv.digitVal c) = String c EmptyString.
Proof. intros H. digit_cases H; reflexivity. Qed.

Lemma FormatUint_stripZeros (s : string) :
  allDigits s = true -> s <> EmptyString ->
  strconv.FormatUint (decimalValue s) = stripZeros s.
Proof.
  induction s as [|c t IH]; intros Hs Hne; [congruence|].
  pose proof Hs as Hs'. simpl in Hs'. apply andb_true_iff in Hs'.
  destruct Hs' as [Hc Ht].
  destruct t as [|c' t'].
  - simpl. unfold decimalValue. simpl. now apply FormatUint_digit.
  - cbn [stripZeros]. destruct (Ascii.eqb c "0") eqn:E.
    + apply Ascii.eqb_eq in E. subst c.
      change (decimalValue (String "0" (String c' t')))
        with (decimalValue (String c' t')).
      apply IH; [exact Ht|discriminate].
    + apply FormatUint_digits; [exact Hs|]. simpl. now rewrite E.
Qed.

Lemma stripZeros_length (s : string) :
  (String.length (stripZeros s) <= String.length s)%nat.
Proof.
  induction s as [|c t IH]; [simpl; lia|].
  cbn [stripZeros]. destruct t as [|c' t']; [lia|].
  destruct (Ascii.eqb c "0"); [|lia].
  simpl String.length in *. lia.
Qed.

(** Padding with zeros gives back the leading zeros that were stripped. *)
Lemma zeros_stripZeros (s : string) :
  allDigits s = true ->
  fmt.zeros (String.length s - String.length (stripZeros s)) ++ stripZeros s = s.
Proof.
  induction s as [|c t IH]; intros Hs; [reflexivity|].
  simpl in Hs. apply andb_true_iff in Hs. destruct Hs as [Hc Ht].
  cbn [stripZeros]. destruct t as [|c' t'].
  - now rewrite Nat.sub_diag.
  - destruct (Ascii.eqb c "0") eqn:E.
    + apply Ascii.eqb_eq in E. subst c.
      pose proof (stripZeros_length (String c' t')) as Hl.
      replace (String.length (String "0" (String c' t'))
               - String.length (stripZeros (String c' t')))%nat
        with (S (String.length (String c' t')
                 - String.length (stripZeros (String c' t'))))
        by (simpl String.length in *; lia).
      cbn [fmt.zeros append]. now rewrite (IH Ht).
    + now rewrite Nat.sub_diag.
Qed.

Lemma stripZeros_noLeadingZero (s : string) :
  noLeadingZero s = true -> stripZeros s = s.
Proof.
  destruct s as [|c t]; [reflexivity|]. simpl.
  destruct t; [reflexivity|]. now destruct (Ascii.eqb c "0").
Qed.

Lemma decimalValue_nonneg (s : string) : allDigits s = true -> 0 <= decimalValue s.
Proof. intros Hs. apply (valueFrom_ge s 0); [lia|exact Hs]. Qed.

(** [%0<w>d] writes back a string of [w] digits, and a longer one that has
    no leading zero. *)
Lemma fmt_0d_digits (w : nat) (s : string) :
  allDigits s = true -> s <> EmptyString ->
  String.length s = w \/ ((w <= String.length s)%nat /\ noLeadingZero s = true) ->
  fmt.fmt_0d w (decimalValue s) = s.
Proof.
  intros Hs Hne Hw. unfold fmt.fmt_0d.
  pose proof (decimalValue_nonneg s Hs) as H0.
  destruct (decimalValue s <? 0) eqn:E; [apply Z.ltb_lt in E; lia|].
  rewrite Z.abs_eq by exact H0.
  rewrite (FormatUint_stripZeros s Hs Hne).
  destruct Hw as [<- | [Hlen Hz]].
  - now apply zeros_stripZeros.
  - rewrite (stripZeros_noLeadingZero s Hz).
    replace (w - String.length s)%nat with 0%nat by lia. reflexivity.
Qed.

(** ** The NPT round trip (claim C7) *)

Lemma acceptDigits_all (ds : string) (sep : ascii) (rest : string) :
  allDigits ds = true -> strconv.isDigit sep = false ->
  fmt.acceptDigits None (ds ++ String sep rest) = (ds, String sep rest).
Proof.
  intros Hds Hsep. induction ds as [|c t IH]; cbn [append fmt.acceptDigits].
  - cbn. now rewrite Hsep.
  - simpl in Hds. apply andb_true_iff in Hds. destruct Hds as [Hc Ht].
    cbn. rewrite Hc. cbn in IH. now rewrite (IH Ht).
Qed.

(** [%d] without a width reads all the digits in front of a byte that is
    no digit. *)
Lemma scanInt_digits (ds : string) (sep : ascii) (rest : string) :
  ds <> EmptyString -> allDigits ds = true -> strconv.isDigit sep = false ->
  decimalValue ds <= Int64.max_int ->
  fmt.scanInt None (ds ++ String sep rest) = inl (decimalValue ds, String sep rest).
Proof.
  intros Hne Hds Hsep Hmax. unfold fmt.scanInt.
  destruct ds as [|c t]; [congruence|].
  pose proof Hds as Hds'. simpl in Hds'. apply andb_true_iff in Hds'.
  destruct Hds' as [Hc Ht].
  cbn [append]. rewrite (SkipSpace_digit c _ Hc).
  cbn [fmt.exhausted]. rewrite (isDigit_not_sign c Hc), Hc. cbn [negb].
  change (String c (t ++ String sep rest)) with (String c t ++ String sep rest).
  rewrite (acceptDigits_all _ _ _ Hds Hsep).
  now rewrite (ParseInt_digits _ Hne Hds Hmax).
Qed.

Lemma decimalValue_two (a b : ascii) :
  strconv.isDigit a = true -> strconv.isDigit b = true ->
  0 <= decimalValue (String a (String b EmptyString)) <= 99.
Proof.
  intros Ha Hb. unfold decimalValue. simpl.
  pose proof (digitVal_range a Ha). pose proof (digitVal_range b Hb). lia.
Qed.

Lemma decimalValue_three (a b c : ascii) :
  strconv.isDigit a = true -> strconv.isDigit b = true -> strconv.isDigit c = true ->
  0 <= decimalValue (String a (String b (String c EmptyString))) <= 999.
Proof.
  intros Ha Hb Hc. unfold decimalValue. simpl.
  pose proof (digitVal_range a Ha). pose proof (digitVal_range b Hb).
  pose proof (digitVal_range c Hc). lia.
Qed.

(** [%2d] reads two digits and stops, whatever follows. *)
Lemma scanInt_width2 (a b : ascii) (rest : string) :
  strconv.isDigit a = true -> strconv.isDigit b = true ->
  fmt.scanInt (Some 2%nat) (String a (String b rest))
  = inl (decimalValue (String a (String b EmptyString)), rest).
Proof.
  intros Ha Hb. unfold fmt.scanInt.
  rewrite (SkipSpace_digit a _ Ha).
  cbn [fmt.exhausted]. rewrite (isDigit_not_sign a Ha), Ha. cbn [negb].
  assert (Hacc : fmt.acceptDigits (Some 2%nat) (String a (String b rest))
                 = (String a (String b EmptyString), rest)).
  { cbn. rewrite Ha, Hb. destruct rest; reflexivity. }
  rewrite Hacc.
  rewrite ParseInt_digits; [reflexivity|discriminate|simpl; now rewrite Ha, Hb|].
  pose proof (decimalValue_two a b Ha Hb). unfold Int64.max_int.
  change (2 ^ 63 - 1) with 9223372036854775807. lia.
Qed.

(** [%3d] reads three digits and stops. *)
Lemma scanInt_width3 (a b c : ascii) (rest : string) :
  strconv.isDigit a = true -> strconv.isDigit b = true -> strconv.isDigit c = true ->
  fmt.scanInt (Some 3%nat) (String a (String b (String c rest)))
  = inl (decimalValue (String a (String b (String c EmptyString))), rest).
Proof.
  intros Ha Hb Hc. unfold fmt.scanInt.
  rewrite (SkipSpace_digit a _ Ha).
  cbn [fmt.exhausted]. rewrite (isDigit_not_sign a Ha), Ha. cbn [negb].
  assert (Hacc : fmt.acceptDigits (Some 3%nat) (String a (String b (String c rest)))
                 = (String a (String b (String c EmptyString)), rest)).
  { cbn. rewrite Ha, Hb, Hc. destruct rest; reflexivity. }
  rewrite Hacc.
  rewrite ParseInt_digits; [reflexivity|discriminate|simpl; now rewrite Ha, Hb, Hc|].
  pose proof (decimalValue_three a b c Ha Hb Hc). unfold Int64.max_int.
  change (2 ^ 63 - 1) with 9223372036854775807. lia.
Qed.

Lemma Sscanf_nptText (hh : string) (m1 m2 s1 s2 f1 f2 f3 : ascii) :
  hh <> EmptyString -> allDigits hh = true -> decimalValue hh <= Int64.max_int ->
  allDigits (String m1 (String m2 (String s1 (String s2
    (String f1 (String f2 (String f3 EmptyString))))))) = true ->
  fmt.Sscanf (nptText hh m1 m2 s1 s2 f1 f2 f3) dlna.nptFormat
  = ([decimalValue hh;
      decimalValue (String m1 (String m2 EmptyString));
      decimalValue (String s1 (String s2 EmptyString));
      decimalValue (String f1 (String f2 (String f3 EmptyString)))], None).
Proof.
  intros Hne Hhh Hmax Hrest.
  cbn [allDigits] in Hrest. rewrite !andb_true_iff in Hrest.
  destruct Hrest as (Hm1 & Hm2 & Hs1 & Hs2 & Hf1 & Hf2 & Hf3 & _).
  unfold fmt.Sscanf, dlna.nptFormat, nptText.
  cbn [fmt.doScanf].
  destruct hh as [|c t]; [congruence|].
  pose proof Hhh as Hhh'. simpl in Hhh'. apply andb_true_iff in Hhh'.
  destruct Hhh' as [Hc _].
  cbn [append]. rewrite (SkipSpace_digit c _ Hc).
  change (String c (t ++ ?r)) with (String c t ++ r).
  rewrite (scanInt_digits (String c t) ":" _ Hne Hhh eq_refl Hmax).
  cbn [Ascii.eqb Bool.eqb app].
  rewrite (SkipSpace_digit m1 _ Hm1), (scanInt_width2 m1 m2 _ Hm1 Hm2).
  cbn [Ascii.eqb Bool.eqb app].
  rewrite (SkipSpace_digit s1 _ Hs1), (scanInt_width2 s1 s2 _ Hs1 Hs2).
  cbn [Ascii.eqb Bool.eqb app].
  rewrite (SkipSpace_digit f1 _ Hf1), (scanInt_width3 f1 f2 f3 _ Hf1 Hf2 Hf3).
  reflexivity.
Qed.

(** The fields that [FormatNPTTime] computes from a duration are those the
    duration was built from. *)
Lemma FormatNPTTime_fields (h m sec ms : Z) :
  0 <= h -> 0 <= m < 60 -> 0 <= sec < 60 -> 0 <= ms < 1000 ->
  dlna.FormatNPTTime
    (h * dlna.Hour + m * dlna.Minute + sec * dlna.Second + ms * dlna.Millisecond)
  = fmt.fmt_0d 2 h ++ ":" ++ fmt.fmt_0d 2 m ++ ":" ++ fmt.fmt_0d 2 sec ++ "."
      ++ fmt.fmt_0d 3 ms.
Proof.
  intros Hh Hm Hsec Hms. unfold dlna.FormatNPTTime. cbv zeta.
  set (q0 := ((h * 60 + m) * 60 + sec) * 1000 + ms).
  assert (E0 : Z.quot (h * dlna.Hour + m * dlna.Minute + sec * dlna.Second
                       + ms * dlna.Millisecond) dlna.Millisecond = q0).
  { replace (h * dlna.Hour + m * dlna.Minute + sec * dlna.Second
             + ms * dlna.Millisecond) with (q0 * dlna.Millisecond)
      by (unfold q0, dlna.Hour, dlna.Minute, dlna.Second, dlna.Millisecond; ring).
    apply Z.quot_mul. discriminate. }
  rewrite E0.
  assert (Hq0 : 0 <= q0) by (unfold q0; nia).
  assert (E1 : Z.rem q0 1000 = ms).
  { rewrite Z.rem_mod_nonneg by lia. symmetry.
    apply Z.mod_unique with (q := (h * 60 + m) * 60 + sec); unfold q0; lia. }
  assert (E2 : Z.quot q0 1000 = (h * 60 + m) * 60 + sec).
  { rewrite Z.quot_div_nonneg by lia. symmetry.
    apply Z.div_unique with (r := ms); unfold q0; lia. }
  rewrite E1, E2.
  assert (E3 : Z.rem ((h * 60 + m) * 60 + sec) 60 = sec).
  { rewrite Z.rem_mod_nonneg by nia. symmetry.
    apply Z.mod_unique with (q := h * 60 + m); lia. }
  assert (E4 : Z.quot ((h * 60 + m) * 60 + sec) 60 = h * 60 + m).
  { rewrite Z.quot_div_nonneg by nia. symmetry.
    apply Z.div_unique with (r := sec); lia. }
  rewrite E3, E4.
  assert (E5 : Z.rem (h * 60 + m) 60 = m).
  { rewrite Z.rem_mod_nonneg by nia. symmetry.
    apply Z.mod_unique with (q := h); lia. }
  assert (E6 : Z.quot (h * 60 + m) 60 = h).
  { rewrite Z.quot_div_nonneg by nia. symmetry.
    apply Z.div_unique with (r := m); lia. }
  rewrite E5, E6. reflexivity.
Qed.

(** The text ["1:00:00.000"] is canonical in the sense of the claim (an
    hour, two minute digits, two second digits, three fractional digits);
    it is parsed as one hour, which is written back with a two-digit
    hour. *)
Lemma NPT_round_trip_single_digit_hour :
  dlna.ParseNPTTime "1:00:00.000" = (3600000000000, None)
  /\ dlna.FormatNPTTime 3600000000000 = "01:00:00.000"
  /\ String.eqb (dlna.FormatNPTTime (fst (dlna.ParseNPTTime "1:00:00.000")))
       "1:00:00.000" = false.
Proof. repeat split; reflexivity. Qed.

(** C7, amended.  A text [hh:MM:SS.mmm] whose hour has two digits, or more
    than two and then no leading zero, whose minutes and seconds are below
    60 and whose duration fits 64 bits is parsed into that duration, and
    [FormatNPTTime] writes the same text back. *)
Theorem NPT_round_trip :
  forall (hh : string) (m1 m2 s1 s2 f1 f2 f3 : ascii),
    let h := decimalValue hh in
    let m := decimalValue (String m1 (String m2 EmptyString)) in
    let sec := decimalValue (String s1 (String s2 EmptyString)) in
    let ms := decimalValue (String f1 (String f2 (String f3 EmptyString))) in
    let text := nptText hh m1 m2 s1 s2 f1 f2 f3 in
    let npt := h * dlna.Hour + m * dlna.Minute + sec * dlna.Second
               + ms * dlna.Millisecond in
    allDigits hh = true ->
    String.length hh = 2%nat
    \/ ((2 <= String.length hh)%nat /\ noLeadingZero hh = true) ->
    allDigits (String m1 (String m2 (String s1 (String s2
      (String f1 (String f2 (String f3 EmptyString))))))) = true ->
    m < 60 -> sec < 60 ->
    npt <= Int64.max_int ->
    dlna.ParseNPTTime text = (npt, None)
    /\ dlna.FormatNPTTime (fst (dlna.ParseNPTTime text)) = text.
Proof.
  intros hh m1 m2 s1 s2 f1 f2 f3 h m sec ms text npt Hhh Hlen Hrest Hm Hsec Hmax.
  assert (Hne : hh <> EmptyString).
  { intros ->. simpl in Hlen. destruct Hlen as [H|[H _]]; [discriminate|lia]. }
  pose proof Hrest as Hrest'.
  cbn [allDigits] in Hrest'. rewrite !andb_true_iff in Hrest'.
  destruct Hrest' as (Hm1 & Hm2 & Hs1 & Hs2 & Hf1 & Hf2 & Hf3 & _).
  pose proof (decimalValue_nonneg hh Hhh) as Hh0. fold h in Hh0.
  pose proof (decimalValue_two m1 m2 Hm1 Hm2) as Hm0. fold m in Hm0.
  pose proof (decimalValue_two s1 s2 Hs1 Hs2) as Hs0. fold sec in Hs0.
  pose proof (decimalValue_three f1 f2 f3 Hf1 Hf2 Hf3) as Hf0. fold ms in Hf0.
  unfold Int64.max_int in Hmax. change (2 ^ 63 - 1) with 9223372036854775807 in Hmax.
  unfold npt, dlna.Hour, dlna.Minute, dlna.Second, dlna.Millisecond in Hmax.
  assert (Hparse : dlna.ParseNPTTime text = (npt, None)).
  { unfold dlna.ParseNPTTime, text.
    rewrite Sscanf_nptText; auto.
    2:{ fold h. unfold Int64.max_int. change (2 ^ 63 - 1) with 9223372036854775807.
        lia. }
    cbn [List.length nth Nat.ltb Nat.leb].
    fold h m sec ms.
    unfold Int64.add, Int64.mul, dlna.Hour, dlna.Minute, dlna.Second,
      dlna.Millisecond.
    assert (Hr : forall z, 0 <= z <= 9223372036854775807 -> Int64.wrap z = z).
    { intros z Hz. apply wrap_in_range.
      unfold Int64.in_range, Int64.min_int, Int64.max_int.
      change (2 ^ 63) with 9223372036854775808. lia. }
    rewrite (Hr (h * _)) by lia.
    rewrite (Hr (m * _)) by lia.
    rewrite (Hr (sec * _)) by lia.
    rewrite (Hr (ms * _)) by lia.
    rewrite (Hr (h * _ + m * _)) by lia.
    rewrite (Hr (h * _ + m * _ + sec * _)) by lia.
    rewrite (Hr (h * _ + m * _ + sec * _ + ms * _)) by lia.
    reflexivity. }
  split; [exact Hparse|].
  rewrite Hparse. cbn [fst]. unfold npt.
  rewrite FormatNPTTime_fields by lia.
  unfold h, m, sec, ms.
  rewrite (fmt_0d_digits 2 hh Hhh Hne Hlen).
  rewrite (fmt_0d_digits 2 (String m1 (String m2 EmptyString)));
    [|simpl; now rewrite Hm1, Hm2|discriminate|now left].
  rewrite (fmt_0d_digits 2 (String s1 (String s2 EmptyString)));
    [|simpl; now rewrite Hs1, Hs2|discriminate|now left].
  rewrite (fmt_0d_digits 3 (String f1 (String f2 (String f3 EmptyString))));
    [|simpl; now rewrite Hf1, Hf2, Hf3|discriminate|now left].
  unfold text, nptText. reflexivity.
Qed.

Lemma NPT_round_trip_witness :
  dlna.ParseNPTTime "01:02:03.004" = (3723004000000, None)
  /\ dlna.FormatNPTTime (fst (dlna.ParseNPTTime "01:02:03.004")) = "01:02:03.004".
Proof.
  apply (NPT_round_trip "01" "0" "2" "0" "3" "0" "0" "4").
  - reflexivity.
  - left. reflexivity.
  - reflexivity.
  - reflexivity.
  - reflexivity.
  - vm_compute. discriminate.
Defined.

(** ** The byte offset to time mapping (claim C2) *)

Section Float64.
Local Open Scope Q_scope.

Lemma pow2_pos (e : Z) : 0 < big.pow2 e.
Proof. unfold big.pow2. apply Qpower_0_lt. reflexivity. Qed.

Lemma pow2_le (a b : Z) : (a <= b)%Z -> big.pow2 a <= big.pow2 b.
Proof. intros H. unfold big.pow2. apply Qpower_le_compat_l; [exact H|discriminate]. Qed.

Lemma pow2_lt_inv (a b : Z) : big.pow2 a < big.pow2 b -> (a < b)%Z.
Proof. intros H. apply (Qpower_lt_compat_l_inv (2 # 1)); [exact H|reflexivity]. Qed.

Lemma pow2_add (a b : Z) : big.pow2 (a + b) == big.pow2 a * big.pow2 b.
Proof. unfold big.pow2. apply Qpower_plus. discriminate. Qed.

Lemma pow2_inject (a : Z) : (0 <= a)%Z -> inject_Z (2 ^ a) == big.pow2 a.
Proof. intros H. unfold big.pow2. now rewrite Zpower_Qpower. Qed.

(** [ilog2 x] is the binary exponent of [x]. *)
Lemma ilog2_spec (x : Q) :
  0 < x -> big.pow2 (big.ilog2 x) <= x /\ x < big.pow2 (big.ilog2 x + 1).
Proof.
  intros Hx. destruct x as [n d].
  assert (Hn : (0 < n)%Z).
  { unfold Qlt in Hx. simpl in Hx. lia. }
  unfold big.ilog2. cbn [Qnum Qden].
  set (a := Z.log2 n). set (b := Z.log2 (Zpos d)).
  destruct (Z.log2_spec n Hn) as [Ha1 Ha2]. fold a in Ha1, Ha2.
  destruct (Z.log2_spec (Zpos d) eq_refl) as [Hb1 Hb2]. fold b in Hb1, Hb2.
  assert (Ha0 : (0 <= a)%Z) by apply Z.log2_nonneg.
  assert (Hb0 : (0 <= b)%Z) by apply Z.log2_nonneg.
  rewrite Zle_Qle in Ha1, Hb1. rewrite Zlt_Qlt in Ha2, Hb2.
  rewrite pow2_inject in Ha1, Hb1 by lia.
  replace (Z.succ a) with (a + 1)%Z in Ha2 by lia.
  replace (Z.succ b) with (b + 1)%Z in Hb2 by lia.
  rewrite pow2_inject in Ha2, Hb2 by lia.
  assert (Hxd : (n # d) * inject_Z (Zpos d) == inject_Z n).
  { rewrite Qmake_Qdiv. field. discriminate. }
  assert (Hd : 0 < inject_Z (Zpos d)) by reflexivity.
  pose proof (pow2_pos (a - b)) as Hk.
  pose proof (pow2_pos (a - b - 1)) as Hk1.
  pose proof (pow2_pos (a - b + 1)) as Hk2.
  pose proof (pow2_pos b) as Hpb.
  assert (E1 : big.pow2 (a + 1) == big.pow2 (a - b + 1) * big.pow2 b).
  { rewrite <- pow2_add. now replace (a - b + 1 + b)%Z with (a + 1)%Z by lia. }
  assert (E2 : big.pow2 a == big.pow2 (a - b - 1) * big.pow2 (b + 1)).
  { rewrite <- pow2_add. now replace (a - b - 1 + (b + 1))%Z with a by lia. }
  assert (Hup : (n # d) < big.pow2 (a - b + 1)).
  { apply (Qmult_lt_r _ _ (inject_Z (Zpos d)) Hd). rewrite Hxd.
    apply (Qlt_le_trans _ _ _ Ha2). rewrite E1.
    apply Qmult_le_l; assumption. }
  assert (Hlow : big.pow2 (a - b - 1) <= (n # d)).
  { apply (Qmult_le_r _ _ (inject_Z (Zpos d)) Hd). rewrite Hxd.
    apply (fun H => Qle_trans _ _ _ H Ha1). rewrite E2.
    apply Qmult_le_l; [assumption|]. now apply Qlt_le_weak. }
  destruct (Qle_bool (big.pow2 (a - b)) (n # d)) eqn:E.
  - apply Qle_bool_iff in E. split; assumption.
  - replace (a - b - 1 + 1)%Z with (a - b)%Z by lia. split; [assumption|].
    apply Qnot_le_lt. intros H. apply Qle_bool_iff in H. congruence.
Qed.

End Float64.

Section Rounding.
Local Open Scope Q_scope.

(** The result of [roundHalfEven] is the floor or the integer above it. *)
Lemma roundHalfEven_cases (x : Q) :
  (big.roundHalfEven x = Qfloor x /\ x - inject_Z (Qfloor x) <= 1 # 2)
  \/ (big.roundHalfEven x = (Qfloor x + 1)%Z /\ 1 # 2 <= x - inject_Z (Qfloor x)).
Proof.
  unfold big.roundHalfEven.
  destruct (Qcompare_spec (x - inject_Z (Qfloor x)) (1 # 2)) as [H|H|H].
  - destruct (Z.even (Qfloor x)); [left|right]; split; auto; rewrite H; apply Qle_refl.
  - left. split; [reflexivity|now apply Qlt_le_weak].
  - right. split; [reflexivity|now apply Qlt_le_weak].
Qed.

Lemma roundHalfEven_mono (x y : Q) :
  x <= y -> (big.roundHalfEven x <= big.roundHalfEven y)%Z.
Proof.
  intros Hxy.
  pose proof (Qfloor_resp_le x y Hxy) as Hf.
  destruct (Z.eq_dec (Qfloor x) (Qfloor y)) as [E|E].
  - unfold big.roundHalfEven. rewrite <- E.
    assert (Hr : x - inject_Z (Qfloor x) <= y - inject_Z (Qfloor x)) by lra.
    destruct (Qcompare_spec (x - inject_Z (Qfloor x)) (1 # 2)) as [H1|H1|H1];
      destruct (Qcompare_spec (y - inject_Z (Qfloor x)) (1 # 2)) as [H2|H2|H2];
      try lia; try (destruct (Z.even (Qfloor x)); lia); exfalso; lra.
  - destruct (roundHalfEven_cases x) as [[-> _]|[-> _]];
      destruct (roundHalfEven_cases y) as [[-> _]|[-> _]]; lia.
Qed.

Lemma roundHalfEven_inject (k : Z) : big.roundHalfEven (inject_Z k) = k.
Proof.
  unfold big.roundHalfEven. rewrite Qfloor_Z.
  destruct (Qcompare_spec (inject_Z k - inject_Z k) (1 # 2)) as [H|H|H].
  - exfalso. lra.
  - reflexivity.
  - exfalso. lra.
Qed.

Lemma Round_mono (x y : Q) : 0 <= x -> x <= y -> (math.Round x <= math.Round y)%Z.
Proof.
  intros Hx Hxy. unfold math.Round.
  assert (Hy : 0 <= y) by lra.
  apply Qle_bool_iff in Hx, Hy. rewrite Hx, Hy.
  apply Qfloor_resp_le. lra.
Qed.

Lemma Round_inject (x : Q) (k : Z) : (0 <= k)%Z -> x == inject_Z k -> math.Round x = k.
Proof.
  intros Hk Hx. unfold math.Round.
  assert (H0 : 0 <= x).
  { rewrite Hx. rewrite Zle_Qle in Hk. exact Hk. }
  apply Qle_bool_iff in H0. rewrite H0.
  assert (E : x + (1 # 2) == inject_Z k + (1 # 2)) by (rewrite Hx; reflexivity).
  rewrite E.
  apply Z.le_antisymm.
  - assert (H : inject_Z (Qfloor (inject_Z k + (1 # 2))) < inject_Z (k + 1)).
    { apply (Qle_lt_trans _ _ _ (Qfloor_le _)). rewrite inject_Z_plus.
      change (inject_Z 1) with 1. lra. }
    rewrite <- Zlt_Qlt in H. lia.
  - rewrite <- (Qfloor_Z k) at 1. apply Qfloor_resp_le. lra.
Qed.

End Rounding.

Section Nearest.
Local Open Scope Q_scope.

Lemma roundHalfEven_integer (x : Q) (k : Z) :
  x == inject_Z k -> big.roundHalfEven x = k.
Proof.
  intros H. apply Z.le_antisymm.
  - rewrite <- (roundHalfEven_inject k). apply roundHalfEven_mono.
    rewrite H. apply Qle_refl.
  - rewrite <- (roundHalfEven_inject k) at 1. apply roundHalfEven_mono.
    rewrite H. apply Qle_refl.
Qed.

Lemma pow2_div (a b : Z) : big.pow2 a / big.pow2 b == big.pow2 (a - b).
Proof.
  pose proof (pow2_pos b) as Hb.
  assert (E : big.pow2 a == big.pow2 (a - b) * big.pow2 b).
  { rewrite <- pow2_add. now replace (a - b + b)%Z with a by lia. }
  rewrite E. field. intros H. rewrite H in Hb. discriminate.
Qed.

(** The value of [nearest53 x] lies in the binade of [x], its end
    included. *)
Lemma nearest53_bounds (x : Q) :
  0 < x ->
  big.pow2 (big.ilog2 x) <= big.nearest53 x
  /\ big.nearest53 x <= big.pow2 (big.ilog2 x + 1).
Proof.
  intros Hx. destruct (ilog2_spec x Hx) as [Hlo Hhi].
  unfold big.nearest53.
  set (e := big.ilog2 x) in *. set (u := big.pow2 (e - 52)).
  pose proof (pow2_pos (e - 52)) as Hu. fold u in Hu.
  assert (Hunz : ~ u == 0) by (intros H; rewrite H in Hu; discriminate).
  assert (E52 : big.pow2 e / u == inject_Z (2 ^ 52)).
  { unfold u. rewrite pow2_div. replace (e - (e - 52))%Z with 52%Z by lia.
    rewrite pow2_inject by lia. reflexivity. }
  assert (E53 : big.pow2 (e + 1) / u == inject_Z (2 ^ 53)).
  { unfold u. rewrite pow2_div. replace (e + 1 - (e - 52))%Z with 53%Z by lia.
    rewrite pow2_inject by lia. reflexivity. }
  assert (Hq1 : big.pow2 e / u <= x / u).
  { apply Qmult_le_r; [now apply Qinv_lt_0_compat|exact Hlo]. }
  assert (Hq2 : x / u <= big.pow2 (e + 1) / u).
  { apply Qmult_le_r; [now apply Qinv_lt_0_compat|now apply Qlt_le_weak]. }
  pose proof (roundHalfEven_mono _ _ Hq1) as Hm1.
  pose proof (roundHalfEven_mono _ _ Hq2) as Hm2.
  rewrite (roundHalfEven_integer _ _ E52) in Hm1.
  rewrite (roundHalfEven_integer _ _ E53) in Hm2.
  rewrite Zle_Qle in Hm1, Hm2.
  split.
  - assert (E : big.pow2 e == inject_Z (2 ^ 52) * u).
    { rewrite <- E52. field. exact Hunz. }
    rewrite E. apply Qmult_le_r; assumption.
  - assert (E : big.pow2 (e + 1) == inject_Z (2 ^ 53) * u).
    { rewrite <- E53. field. exact Hunz. }
    rewrite E. apply Qmult_le_r; assumption.
Qed.

Lemma ilog2_mono (x y : Q) : 0 < x -> x <= y -> (big.ilog2 x <= big.ilog2 y)%Z.
Proof.
  intros Hx Hxy.
  assert (Hy : 0 < y) by lra.
  destruct (ilog2_spec x Hx) as [Hx1 _].
  destruct (ilog2_spec y Hy) as [_ Hy2].
  assert (H : big.pow2 (big.ilog2 x) < big.pow2 (big.ilog2 y + 1)) by lra.
  apply pow2_lt_inv in H. lia.
Qed.

(** Rounding to 53 bits is monotone. *)
Lemma nearest53_mono (x y : Q) :
  0 < x -> x <= y -> big.nearest53 x <= big.nearest53 y.
Proof.
  intros Hx Hxy.
  assert (Hy : 0 < y) by lra.
  pose proof (ilog2_mono x y Hx Hxy) as He.
  destruct (Z.eq_dec (big.ilog2 x) (big.ilog2 y)) as [E|E].
  - unfold big.nearest53. rewrite <- E.
    pose proof (pow2_pos (big.ilog2 x - 52)) as Hu.
    apply Qmult_le_r; [exact Hu|].
    rewrite <- Zle_Qle. apply roundHalfEven_mono.
    apply Qmult_le_r; [now apply Qinv_lt_0_compat|exact Hxy].
  - destruct (nearest53_bounds x Hx) as [_ Hxb].
    destruct (nearest53_bounds y Hy) as [Hyb _].
    apply (Qle_trans _ _ _ Hxb). apply (fun H => Qle_trans _ _ _ H Hyb).
    apply pow2_le. lia.
Qed.

Lemma Float64_nonneg (x : Q) : 0 <= x -> 0 <= big.Float64 x.
Proof.
  intros Hx. unfold big.Float64.
  destruct (Qcompare_spec x 0) as [H|H|H].
  - apply Qle_refl.
  - exfalso. lra.
  - destruct (nearest53_bounds x H) as [Hb _].
    pose proof (pow2_pos (big.ilog2 x)). lra.
Qed.

Lemma Float64_mono (x y : Q) : 0 <= x -> x <= y -> big.Float64 x <= big.Float64 y.
Proof.
  intros Hx Hxy. unfold big.Float64 at 1.
  destruct (Qcompare_spec x 0) as [H|H|H].
  - apply Float64_nonneg. lra.
  - exfalso. lra.
  - unfold big.Float64.
    destruct (Qcompare_spec y 0) as [H'|H'|H']; try (exfalso; lra).
    now apply nearest53_mono.
Qed.

(** An integer of at most 53 bits is a [float64]. *)
Lemma nearest53_exact (x : Q) (z : Z) :
  (0 < z <= 2 ^ 53)%Z -> x == inject_Z z -> big.nearest53 x == x.
Proof.
  intros Hz Hxz.
  assert (Hx : 0 < x).
  { rewrite Hxz. change 0 with (inject_Z 0). rewrite <- Zlt_Qlt. lia. }
  destruct (ilog2_spec x Hx) as [Hlo Hhi].
  unfold big.nearest53. set (e := big.ilog2 x) in *.
  pose proof (pow2_pos (e - 52)) as Hu.
  assert (Hunz : ~ big.pow2 (e - 52) == 0) by (intros H; rewrite H in Hu; discriminate).
  assert (He0 : (0 <= e)%Z).
  { assert (H : big.pow2 0 < big.pow2 (e + 1)).
    { apply (Qle_lt_trans _ x); [|exact Hhi]. rewrite Hxz.
      change (big.pow2 0) with (inject_Z 1). rewrite <- Zle_Qle. lia. }
    apply pow2_lt_inv in H. lia. }
  assert (He53 : (e <= 53)%Z).
  { assert (H : big.pow2 e < big.pow2 54).
    { apply (Qle_lt_trans _ x); [exact Hlo|]. rewrite Hxz.
      rewrite <- (pow2_inject 54) by lia. rewrite <- Zlt_Qlt. lia. }
    apply pow2_lt_inv in H. lia. }
  assert (Hk : exists k, x / big.pow2 (e - 52) == inject_Z k).
  { destruct (Z.eq_dec e 53) as [E53|E53].
    - exists (2 ^ 52)%Z.
      assert (z = 2 ^ 53)%Z.
      { rewrite E53, Hxz, <- (pow2_inject 53), <- Zle_Qle in Hlo by lia. lia. }
      subst z. rewrite Hxz, E53. reflexivity.
    - exists (z * 2 ^ (52 - e))%Z.
      rewrite inject_Z_mult, pow2_inject by lia.
      assert (Einv : big.pow2 (52 - e) == / big.pow2 (e - 52)).
      { unfold big.pow2. rewrite <- Qpower_opp.
        now replace (- (e - 52))%Z with (52 - e)%Z by lia. }
      rewrite Einv, Hxz. reflexivity. }
  destruct Hk as [k Hk].
  rewrite (roundHalfEven_integer _ _ Hk), <- Hk. field. exact Hunz.
Qed.

End Nearest.

Section Position.
Local Open Scope Q_scope.

Variables totalSize duration : Z.
Hypothesis totalSize_pos : (0 < totalSize)%Z.

Lemma nanosAt_value (b : Z) :
  nanosAt totalSize duration b == (b # Z.to_pos totalSize) * inject_Z duration.
Proof.
  unfold nanosAt, big.Mul, big.SetFrac64, big.SetInt64.
  destruct (totalSize <? 0)%Z eqn:E; [apply Z.ltb_lt in E; lia|].
  now rewrite !Qred_correct.
Qed.

Lemma calculateNPTPosition_nanosAt (b : Z) :
  dlna.calculateNPTPosition b totalSize duration
  = int64_of_float64 (math.Round (big.Float64 (nanosAt totalSize duration b))).
Proof.
  unfold dlna.calculateNPTPosition.
  destruct (totalSize <=? 0)%Z eqn:E; [apply Z.leb_le in E; lia|reflexivity].
Qed.

Hypothesis duration_nonneg : (0 <= duration)%Z.

Lemma duration_nonneg_Q : 0 <= inject_Z duration.
Proof. change 0 with (inject_Z 0). now rewrite <- Zle_Qle. Qed.

Lemma nanosAt_mono (b1 b2 : Z) :
  (b1 <= b2)%Z -> nanosAt totalSize duration b1 <= nanosAt totalSize duration b2.
Proof.
  intros H. rewrite !nanosAt_value.
  apply Qmult_le_compat_r; [|exact duration_nonneg_Q].
  unfold Qle. cbn [Qnum Qden]. nia.
Qed.

Lemma nanosAt_zero : nanosAt totalSize duration 0 == 0.
Proof. rewrite nanosAt_value. reflexivity. Qed.

Lemma nanosAt_total : nanosAt totalSize duration totalSize == inject_Z duration.
Proof.
  rewrite nanosAt_value.
  assert (E : (totalSize # Z.to_pos totalSize) == 1).
  { unfold Qeq. cbn [Qnum Qden]. rewrite Z2Pos.id by lia. lia. }
  rewrite E. apply Qmult_1_l.
Qed.

Hypothesis duration_safe : (duration <= maxSafeDuration)%Z.

(** The rounded position fits 64 bits: the conversion is the identity. *)
Lemma position_in_range (b : Z) :
  (0 <= b <= totalSize)%Z ->
  Int64.in_range (math.Round (big.Float64 (nanosAt totalSize duration b))).
Proof.
  intros Hb.
  assert (H0 : 0 <= nanosAt totalSize duration b).
  { rewrite <- nanosAt_zero. apply nanosAt_mono. lia. }
  assert (Hd : nanosAt totalSize duration b <= inject_Z maxSafeDuration).
  { apply (Qle_trans _ (nanosAt totalSize duration totalSize));
      [apply nanosAt_mono; lia|].
    rewrite nanosAt_total. now rewrite <- Zle_Qle. }
  pose proof (Float64_nonneg _ H0) as HF0.
  pose proof (Float64_mono _ _ H0 Hd) as HF1.
  pose proof (Round_mono _ _ (Qle_refl 0) HF0) as HR0.
  pose proof (Round_mono _ _ HF0 HF1) as HR1.
  change (math.Round 0) with 0%Z in HR0.
  replace (math.Round (big.Float64 (inject_Z maxSafeDuration)))
    with (2 ^ 63 - 1024)%Z in HR1 by (vm_compute; reflexivity).
  unfold Int64.in_range, Int64.min_int, Int64.max_int.
  change (2 ^ 63)%Z with 9223372036854775808%Z in *.
  lia.
Qed.

Lemma calculateNPTPosition_value (b : Z) :
  (0 <= b <= totalSize)%Z ->
  dlna.calculateNPTPosition b totalSize duration
  = math.Round (big.Float64 (nanosAt totalSize duration b)).
Proof.
  intros Hb. rewrite calculateNPTPosition_nanosAt. unfold int64_of_float64.
  pose proof (position_in_range b Hb) as H. apply in_rangeb_spec in H.
  now rewrite H.
Qed.

Lemma calculateNPTPosition_mono (b1 b2 : Z) :
  (0 <= b1 <= b2)%Z -> (b2 <= totalSize)%Z ->
  (dlna.calculateNPTPosition b1 totalSize duration
   <= dlna.calculateNPTPosition b2 totalSize duration)%Z.
Proof.
  intros H1 H2. rewrite !calculateNPTPosition_value by lia.
  assert (H0 : 0 <= nanosAt totalSize duration b1).
  { rewrite <- nanosAt_zero. apply nanosAt_mono. lia. }
  apply Round_mono; [now apply Float64_nonneg|].
  apply Float64_mono; [exact H0|]. apply nanosAt_mono. lia.
Qed.

Lemma calculateNPTPosition_zero :
  dlna.calculateNPTPosition 0 totalSize duration = 0%Z.
Proof.
  rewrite calculateNPTPosition_value by lia.
  assert (E : nanosAt totalSize duration 0 = 0).
  { unfold nanosAt, big.Mul. rewrite (Qred_complete _ 0); [reflexivity|].
    unfold big.SetFrac64.
    destruct (totalSize <? 0)%Z; rewrite Qred_correct; reflexivity. }
  rewrite E. reflexivity.
Qed.

Lemma calculateNPTPosition_total :
  (duration <= maxExactDuration)%Z ->
  dlna.calculateNPTPosition totalSize totalSize duration = duration.
Proof.
  intros Hd. rewrite calculateNPTPosition_value by lia.
  apply Round_inject; [exact duration_nonneg|].
  unfold big.Float64.
  destruct (Qcompare_spec (nanosAt totalSize duration totalSize) 0) as [H|H|H].
  - rewrite <- H. apply nanosAt_total.
  - exfalso. rewrite nanosAt_total in H. pose proof duration_nonneg_Q. lra.
  - rewrite (nearest53_exact _ duration); [apply nanosAt_total| |apply nanosAt_total].
    rewrite nanosAt_total in H. change 0 with (inject_Z 0) in H.
    rewrite <- Zlt_Qlt in H. unfold maxExactDuration in Hd. lia.
Qed.

End Position.

Section NormalRange.
Local Open Scope Q_scope.

(** With 64-bit operands, a product that is not zero has a magnitude
    between 2^-63 and 2^126: its [float64] is a normal number. *)
Lemma nanosAt_normal_range (totalSize duration bytePos : Z) :
  (0 < totalSize <= Int64.max_int)%Z ->
  Int64.in_range bytePos -> Int64.in_range duration ->
  ~ nanosAt totalSize duration bytePos == 0 ->
  big.pow2 (-63) <= Qabs (nanosAt totalSize duration bytePos)
  /\ Qabs (nanosAt totalSize duration bytePos) <= big.pow2 126.
Proof.
  intros Hts Hb Hd Hnz.
  unfold Int64.in_range, Int64.min_int, Int64.max_int in *.
  change (2 ^ 63)%Z with 9223372036854775808%Z in *.
  assert (Hv : nanosAt totalSize duration bytePos
               == (bytePos * duration # Z.to_pos totalSize)).
  { rewrite nanosAt_value by lia. unfold Qeq, Qmult, inject_Z. cbn [Qnum Qden].
    now rewrite Pos.mul_1_r. }
  rewrite Hv in Hnz. rewrite Hv.
  assert (Hprod : (bytePos * duration <> 0)%Z).
  { intros E. apply Hnz. rewrite E. reflexivity. }
  assert (Hp : Zpos (Z.to_pos totalSize) = totalSize) by (apply Z2Pos.id; lia).
  assert (E63 : big.pow2 (-63) == 1 # 9223372036854775808) by reflexivity.
  assert (E126 : big.pow2 126 == inject_Z (2 ^ 126)) by reflexivity.
  rewrite E63, E126.
  unfold Qabs, Qle, inject_Z. cbn [Qnum Qden]. rewrite Hp.
  change (2 ^ 126)%Z with (9223372036854775808 * 9223372036854775808)%Z.
  rewrite Z.abs_mul.
  assert (bytePos <> 0)%Z by (intros E; apply Hprod; rewrite E; ring).
  assert (duration <> 0)%Z by (intros E; apply Hprod; rewrite E; ring).
  assert (1 <= Z.abs bytePos <= 9223372036854775808)%Z by lia.
  assert (1 <= Z.abs duration <= 9223372036854775808)%Z by lia.
  split; nia.
Qed.

End NormalRange.

(** The start time of a range that is not the whole resource is the
    position of its first byte, which lies within the resource. *)
Lemma ParseHTTPRangeToNPTRange_start (h : string) (ts d : Z) (r : dlna.NPTRange) :
  wholeResource h ts = false ->
  dlna.ParseHTTPRangeToNPTRange h ts d = (r, None) ->
  dlna.Start r = dlna.calculateNPTPosition (dlna.StartByte r) ts d
  /\ 0 <= dlna.StartByte r <= dlna.EndByte r /\ dlna.EndByte r < ts.
Proof.
  intros Hw.
  unfold dlna.ParseHTTPRangeToNPTRange, dlna.ParseHTTPRangeToNPTRange_with.
  change (String.eqb h (dlna.prefix ++ "0-")
          || String.eqb h (dlna.prefix ++ "0-" ++ strconv.FormatInt (Int64.sub ts 1)))
    with (wholeResource h ts).
  rewrite Hw.
  destruct (negb (strings.HasPrefix h dlna.prefix)); [discriminate|].
  destruct (strings.SplitN2 (strings.TrimPrefix h dlna.prefix) "-")
    as [|a [|b [|c l]]]; try discriminate.
  destruct (strconv.ParseInt a) as [sb [ea|]]; [discriminate|].
  destruct (if negb (String.eqb b EmptyString) then strconv.ParseInt b
            else (Int64.sub ts 1, None)) as [eb [ee|]]; [discriminate|].
  destruct ((sb <? 0) || (ts <=? eb) || (eb <? sb)) eqn:Hbounds; [discriminate|].
  intros [= <-]. cbn [dlna.Start dlna.StartByte dlna.EndByte].
  apply orb_false_iff in Hbounds. destruct Hbounds as [Hbounds H3].
  apply orb_false_iff in Hbounds. destruct Hbounds as [H1 H2].
  apply Z.ltb_ge in H1, H3. apply Z.leb_gt in H2.
  repeat split; lia.
Qed.

(** A duration of 2^53+1 nanoseconds is no [float64]: the position of the
    end of the resource is rounded to 2^53, one nanosecond short of the
    duration.  With a negative duration the position decreases as the
    offset grows. *)
Lemma calculateNPTPosition_inexact_at_end :
  dlna.calculateNPTPosition 1 1 9007199254740993 = 9007199254740992
  /\ Int64.in_rangeb 9007199254740993 = true
  /\ dlna.calculateNPTPosition 0 2 (-10) = 0
  /\ dlna.calculateNPTPosition 1 2 (-10) = -5.
Proof. repeat split; reflexivity. Qed.

(** C2, amended.  For a positive total size and a duration that is not
    negative and whose [float64] is below 2^63, the position computed by
    [calculateNPTPosition] does not decrease with the byte offset on
    [0, totalSize], and offset 0 is sent to time 0.  Offset [totalSize] is
    sent to the duration when the duration is at most 2^53 nanoseconds.
    The start time that [ParseHTTPRangeToNPTRange] returns for a range
    that is not the whole resource is this position of its first byte. *)
Theorem calculateNPTPosition_monotone_exact :
  forall totalSize duration : Z,
    0 < totalSize -> 0 <= duration <= maxSafeDuration ->
    (forall b1 b2 : Z,
        0 <= b1 < b2 -> b2 <= totalSize ->
        dlna.calculateNPTPosition b1 totalSize duration
        <= dlna.calculateNPTPosition b2 totalSize duration)
    /\ dlna.calculateNPTPosition 0 totalSize duration = 0
    /\ (duration <= maxExactDuration ->
        dlna.calculateNPTPosition totalSize totalSize duration = duration)
    /\ (forall (rangeHeader : string) (r : dlna.NPTRange),
           wholeResource rangeHeader totalSize = false ->
           dlna.ParseHTTPRangeToNPTRange rangeHeader totalSize duration = (r, None) ->
           0 <= dlna.StartByte r < totalSize
           /\ dlna.Start r
              = dlna.calculateNPTPosition (dlna.StartByte r) totalSize duration).
Proof.
  intros totalSize duration Hts [Hd0 Hd1].
  split; [|split; [|split]].
  - intros b1 b2 Hb1 Hb2.
    apply calculateNPTPosition_mono; auto; lia.
  - now apply calculateNPTPosition_zero.
  - intros Hd2. now apply calculateNPTPosition_total.
  - intros h r Hw Hr.
    destruct (ParseHTTPRangeToNPTRange_start h totalSize duration r Hw Hr)
      as (Hstart & Hb & He).
    split; [lia|exact Hstart].
Qed.

Lemma calculateNPTPosition_monotone_exact_witness :
  dlna.calculateNPTPosition 10 100 1000 <= dlna.calculateNPTPosition 20 100 1000
  /\ dlna.calculateNPTPosition 0 100 1000 = 0
  /\ dlna.calculateNPTPosition 100 100 1000 = 1000.
Proof.
  destruct (calculateNPTPosition_monotone_exact 100 1000) as (Hm & H0 & Ht & _).
  - reflexivity.
  - vm_compute. split; discriminate.
  - split; [apply Hm; lia|]. split; [exact H0|].
    apply Ht. vm_compute. discriminate.
Defined.

(** * Further properties *)

(** ** Decimal output *)

Lemma digitChar_isDigit (u : Z) :
  0 <= u <= 9 ->
  strconv.isDigit (strconv.digitChar u) = true
  /\ strconv.digitVal (strconv.digitChar u) = u.
Proof.
  intros H.
  assert (C : u = 0 \/ u = 1 \/ u = 2 \/ u = 3 \/ u = 4 \/ u = 5 \/ u = 6
              \/ u = 7 \/ u = 8 \/ u = 9) by lia.
  destruct C as [->|[->|[->|[->|[->|[->|[->|[->|[->| ->]]]]]]]]]; split; reflexivity.
Qed.

Lemma valueFrom_app (s t : string) :
  forall n, valueFrom n (s ++ t) = valueFrom (valueFrom n s) t.
Proof. induction s as [|c s IH]; intros n; simpl; [reflexivity|apply IH]. Qed.

Lemma formatBits_S (f : nat) (u : Z) (acc : string) :
  strconv.formatBits (S f) u acc
  = if u <? 10 then String (strconv.digitChar u) acc
    else strconv.formatBits f (u / 10) (String (strconv.digitChar (u mod 10)) acc).
Proof. reflexivity. Qed.

(** The digit loop of [formatBits] writes, in front of [acc], digits whose
    value is the number, provided the fuel covers them. *)
Lemma formatBits_value (f : nat) :
  forall u acc,
    0 <= u < 10 ^ Z.of_nat (S f) ->
    exists ds,
      strconv.formatBits (S f) u acc = ds ++ acc
      /\ allDigits ds = true /\ ds <> EmptyString /\ decimalValue ds = u.
Proof.
  induction f as [|f IH]; intros u acc Hu.
  - change (10 ^ Z.of_nat 1) with 10 in Hu.
    rewrite formatBits_S.
    destruct (u <? 10) eqn:E; [|apply Z.ltb_ge in E; lia].
    destruct (digitChar_isDigit u ltac:(lia)) as [Hd Hv].
    exists (String (strconv.digitChar u) EmptyString).
    repeat split.
    + cbn [allDigits]. now rewrite Hd.
    + discriminate.
    + unfold decimalValue. cbn [valueFrom]. lia.
  - rewrite formatBits_S.
    destruct (u <? 10) eqn:E.
    + apply Z.ltb_lt in E.
      destruct (digitChar_isDigit u ltac:(lia)) as [Hd Hv].
      exists (String (strconv.digitChar u) EmptyString).
      repeat split.
      * cbn [allDigits]. now rewrite Hd.
      * discriminate.
      * unfold decimalValue. cbn [valueFrom]. lia.
    + apply Z.ltb_ge in E.
      assert (Hq : 0 <= u / 10 < 10 ^ Z.of_nat (S f)).
      { split; [apply Z.div_pos; lia|].
        apply Z.div_lt_upper_bound; [lia|].
        rewrite (Nat2Z.inj_succ (S f)), Z.pow_succ_r in Hu by lia. lia. }
      destruct (IH (u / 10) (String (strconv.digitChar (u mod 10)) acc) Hq)
        as (ds & Hds & Hall & Hne & Hval).
      pose proof (Z.mod_pos_bound u 10 ltac:(lia)) as Hm.
      destruct (digitChar_isDigit (u mod 10) ltac:(lia)) as [Hd Hv].
      exists (ds ++ String (strconv.digitChar (u mod 10)) EmptyString).
      repeat split.
      * rewrite Hds, append_assoc. reflexivity.
      * rewrite allDigits_app, Hall. cbn [allDigits andb]. now rewrite Hd.
      * destruct ds; [congruence|discriminate].
      * unfold decimalValue in *. rewrite valueFrom_snoc, Hval, Hv.
        pose proof (Z.div_mod u 10 ltac:(lia)). lia.
Qed.

Lemma FormatUint_value (u : Z) :
  0 <= u ->
  allDigits (strconv.FormatUint u) = true
  /\ strconv.FormatUint u <> EmptyString
  /\ decimalValue (strconv.FormatUint u) = u.
Proof.
  intros Hu. unfold strconv.FormatUint.
  assert (Hfuel : 0 <= u < 10 ^ Z.of_nat (S (Z.to_nat (Z.log2 u)))).
  { split; [exact Hu|].
    rewrite Nat2Z.inj_succ, Z2Nat.id by apply Z.log2_nonneg.
    destruct (Z.eq_dec u 0) as [->|Hnz]; [reflexivity|].
    destruct (Z.log2_spec u ltac:(lia)) as [_ Hlt].
    apply (Z.lt_le_trans _ _ _ Hlt).
    apply Z.pow_le_mono_l. pose proof (Z.log2_nonneg u). lia. }
  destruct (formatBits_value _ u EmptyString Hfuel) as (ds & Hds & Hall & Hne & Hval).
  rewrite Hds, append_nil_r. auto.
Qed.

(** [ParseInt] reads back what [FormatInt] writes. *)
Lemma ParseInt_FormatInt (n : Z) :
  0 <= n <= Int64.max_int -> strconv.ParseInt (strconv.FormatInt n) = (n, None).
Proof.
  intros Hn. unfold strconv.FormatInt.
  destruct (n <? 0) eqn:E; [apply Z.ltb_lt in E; lia|].
  destruct (FormatUint_value n ltac:(lia)) as (Hall & Hne & Hval).
  rewrite ParseInt_digits; auto; rewrite Hval; [reflexivity|lia].
Qed.

Lemma allDigits_zeros (k : nat) : allDigits (fmt.zeros k) = true.
Proof. induction k; simpl; auto. Qed.

Lemma decimalValue_zeros (k : nat) (s : string) :
  decimalValue (fmt.zeros k ++ s) = decimalValue s.
Proof. induction k as [|k IH]; simpl; [reflexivity|exact IH]. Qed.

(** What [%0<w>d] writes for a number that is not negative. *)
Lemma fmt_0d_value (w : nat) (v : Z) :
  0 <= v ->
  allDigits (fmt.fmt_0d w v) = true
  /\ fmt.fmt_0d w v <> EmptyString
  /\ decimalValue (fmt.fmt_0d w v) = v.
Proof.
  intros Hv. unfold fmt.fmt_0d.
  destruct (v <? 0) eqn:E; [apply Z.ltb_lt in E; lia|].
  rewrite Z.abs_eq by exact Hv.
  destruct (FormatUint_value v Hv) as (Hall & Hne & Hval).
  repeat split.
  - now rewrite allDigits_app, allDigits_zeros, Hall.
  - intros H. destruct (fmt.zeros (w - String.length (strconv.FormatUint v)));
      [simpl in H; congruence|discriminate].
  - now rewrite decimalValue_zeros.
Qed.

Lemma fmt_0d_two_bytes :
  forallb (fun n => twoBytes (fmt.fmt_0d 2 (Z.of_nat n))) (seq 0 100) = true.
Proof. vm_compute. reflexivity. Qed.

Lemma fmt_0d_three_bytes :
  forallb (fun n => threeBytes (fmt.fmt_0d 3 (Z.of_nat n))) (seq 0 1000) = true.
Proof. vm_compute. reflexivity. Qed.

(** [%02d] writes a number below 100 with two digits. *)
Lemma fmt_0d_2 (v : Z) :
  0 <= v < 100 ->
  exists a b,
    fmt.fmt_0d 2 v = String a (String b EmptyString)
    /\ strconv.isDigit a = true /\ strconv.isDigit b = true
    /\ decimalValue (String a (String b EmptyString)) = v.
Proof.
  intros Hv.
  pose proof fmt_0d_two_bytes as H. rewrite forallb_forall in H.
  specialize (H (Z.to_nat v)). rewrite Z2Nat.id in H by lia.
  assert (Hin : In (Z.to_nat v) (seq 0 100)) by (apply in_seq; lia).
  specialize (H Hin).
  destruct (fmt_0d_value 2 v ltac:(lia)) as (Hall & _ & Hval).
  destruct (fmt.fmt_0d 2 v) as [|a [|b [|c t]]]; try discriminate H.
  exists a, b. simpl in Hall. rewrite !andb_true_iff in Hall.
  destruct Hall as (Ha & Hb & _). auto.
Qed.

(** [%03d] writes a number below 1000 with three digits. *)
Lemma fmt_0d_3 (v : Z) :
  0 <= v < 1000 ->
  exists a b c,
    fmt.fmt_0d 3 v = String a (String b (String c EmptyString))
    /\ strconv.isDigit a = true /\ strconv.isDigit b = true
    /\ strconv.isDigit c = true
    /\ decimalValue (String a (String b (String c EmptyString))) = v.
Proof.
  intros Hv.
  pose proof fmt_0d_three_bytes as H. rewrite forallb_forall in H.
  specialize (H (Z.to_nat v)). rewrite Z2Nat.id in H by lia.
  assert (Hin : In (Z.to_nat v) (seq 0 1000)) by (apply in_seq; lia).
  specialize (H Hin).
  destruct (fmt_0d_value 3 v ltac:(lia)) as (Hall & _ & Hval).
  destruct (fmt.fmt_0d 3 v) as [|a [|b [|c [|e t]]]]; try discriminate H.
  exists a, b, c. simpl in Hall. rewrite !andb_true_iff in Hall.
  destruct Hall as (Ha & Hb & Hc & _). auto.
Qed.

(** ** What [ParseNPTTime] accepts *)

Lemma acceptDigits_width (ds : string) :
  forall (w : nat) (rest : string),
    allDigits ds = true -> (String.length ds <= w)%nat ->
    String.length ds = w \/ startsWithDigit rest = false ->
    fmt.acceptDigits (Some w) (ds ++ rest) = (ds, rest).
Proof.
  induction ds as [|c t IH]; intros w rest Hds Hlen Hstop.
  - cbn [append]. destruct rest as [|r rest']; [reflexivity|].
    cbn [fmt.acceptDigits]. destruct w as [|w].
    + reflexivity.
    + destruct Hstop as [H|H]; [discriminate|].
      cbn [startsWithDigit] in H. rewrite H. now rewrite andb_false_r.
  - cbn [allDigits] in Hds. apply andb_true_iff in Hds. destruct Hds as [Hc Ht].
    cbn [String.length] in Hlen. destruct w as [|w]; [lia|].
    cbn [append fmt.acceptDigits fmt.exhausted negb andb]. rewrite Hc.
    change (fmt.consume (Some (S w))) with (Some w).
    rewrite (IH w rest Ht); [reflexivity|lia|].
    destruct Hstop as [H|H]; [left; cbn [String.length] in H; lia|now right].
Qed.

(** [%3d] reads a fraction of one to three digits; a shorter one ends at
    the end of the text or at a byte that is no digit. *)
Lemma scanInt_fraction (frac rest : string) :
  frac <> EmptyString -> allDigits frac = true ->
  (String.length frac <= 3)%nat ->
  String.length frac = 3%nat \/ startsWithDigit rest = false ->
  decimalValue frac <= Int64.max_int ->
  fmt.scanInt (Some 3%nat) (frac ++ rest) = inl (decimalValue frac, rest).
Proof.
  intros Hne Hds Hlen Hstop Hmax. unfold fmt.scanInt.
  destruct frac as [|c t]; [congruence|].
  pose proof Hds as Hds'. cbn [allDigits] in Hds'. apply andb_true_iff in Hds'.
  destruct Hds' as [Hc Ht].
  cbn [append]. rewrite (SkipSpace_digit c _ Hc).
  cbn [fmt.exhausted]. rewrite (isDigit_not_sign c Hc), Hc. cbn [negb].
  change (String c (t ++ rest)) with (String c t ++ rest).
  rewrite (acceptDigits_width _ 3 rest Hds Hlen Hstop).
  now rewrite (ParseInt_digits _ Hne Hds Hmax).
Qed.

Lemma Sscanf_nptPrefix (hh : string) (m1 m2 s1 s2 : ascii) (frac rest : string) :
  hh <> EmptyString -> allDigits hh = true -> decimalValue hh <= Int64.max_int ->
  allDigits (String m1 (String m2 (String s1 (String s2 EmptyString)))) = true ->
  frac <> EmptyString -> allDigits frac = true ->
  (String.length frac <= 3)%nat ->
  String.length frac = 3%nat \/ startsWithDigit rest = false ->
  decimalValue frac <= Int64.max_int ->
  fmt.Sscanf (nptPrefix hh m1 m2 s1 s2 (frac ++ rest)) dlna.nptFormat
  = ([decimalValue hh;
      decimalValue (String m1 (String m2 EmptyString));
      decimalValue (String s1 (String s2 EmptyString));
      decimalValue frac], None).
Proof.
  intros Hne Hhh Hmax Hms Hfne Hfrac Hflen Hstop Hfmax.
  cbn [allDigits] in Hms. rewrite !andb_true_iff in Hms.
  destruct Hms as (Hm1 & Hm2 & Hs1 & Hs2 & _).
  unfold fmt.Sscanf, dlna.nptFormat, nptPrefix.
  cbn [fmt.doScanf].
  destruct hh as [|c t]; [congruence|].
  pose proof Hhh as Hhh'. cbn [allDigits] in Hhh'. apply andb_true_iff in Hhh'.
  destruct Hhh' as [Hc _].
  cbn [append]. rewrite (SkipSpace_digit c _ Hc).
  change (String c (t ++ ?r)) with (String c t ++ r).
  rewrite (scanInt_digits (String c t) ":" _ Hne Hhh eq_refl Hmax).
  cbn [Ascii.eqb Bool.eqb app].
  rewrite (SkipSpace_digit m1 _ Hm1), (scanInt_width2 m1 m2 _ Hm1 Hm2).
  cbn [Ascii.eqb Bool.eqb app].
  rewrite (SkipSpace_digit s1 _ Hs1), (scanInt_width2 s1 s2 _ Hs1 Hs2).
  cbn [Ascii.eqb Bool.eqb app].
  destruct frac as [|f1 ft]; [congruence|].
  pose proof Hfrac as Hfrac'. cbn [allDigits] in Hfrac'.
  apply andb_true_iff in Hfrac'. destruct Hfrac' as [Hf1 _].
  cbn [append]. rewrite (SkipSpace_digit f1 _ Hf1).
  change (String f1 (ft ++ rest)) with (String f1 ft ++ rest).
  rewrite (scanInt_fraction (String f1 ft) rest Hfne Hfrac Hflen Hstop Hfmax).
  reflexivity.
Qed.

(** The duration [ParseNPTTime] builds from four fields that are not
    negative, when it fits 64 bits. *)
Lemma ParseNPTTime_of_fields (text : string) (h m sec ms : Z) :
  fmt.Sscanf text dlna.nptFormat = ([h; m; sec; ms], None) ->
  0 <= h -> 0 <= m -> 0 <= sec -> 0 <= ms ->
  h * dlna.Hour + m * dlna.Minute + sec * dlna.Second + ms * dlna.Millisecond
  <= Int64.max_int ->
  dlna.ParseNPTTime text
  = (h * dlna.Hour + m * dlna.Minute + sec * dlna.Second + ms * dlna.Millisecond,
     None).
Proof.
  intros Hscan Hh Hm Hsec Hms Hmax.
  unfold dlna.ParseNPTTime. rewrite Hscan.
  cbn [List.length nth Nat.ltb Nat.leb].
  unfold Int64.max_int in Hmax. change (2 ^ 63 - 1) with 9223372036854775807 in Hmax.
  unfold Int64.add, Int64.mul, dlna.Hour, dlna.Minute, dlna.Second,
    dlna.Millisecond in *.
  assert (Hr : forall z, 0 <= z <= 9223372036854775807 -> Int64.wrap z = z).
  { intros z Hz. apply wrap_in_range.
    unfold Int64.in_range, Int64.min_int, Int64.max_int.
    change (2 ^ 63) with 9223372036854775808. lia. }
  rewrite (Hr (h * _)) by lia.
  rewrite (Hr (m * _)) by lia.
  rewrite (Hr (sec * _)) by lia.
  rewrite (Hr (ms * _)) by lia.
  rewrite (Hr (h * _ + m * _)) by lia.
  rewrite (Hr (h * _ + m * _ + sec * _)) by lia.
  rewrite (Hr (h * _ + m * _ + sec * _ + ms * _)) by lia.
  reflexivity.
Qed.

(** The general form: hour digits, two minute digits, two second digits,
    a fraction of one to three digits, and a rest. *)
Lemma ParseNPTTime_nptPrefix (hh : string) (m1 m2 s1 s2 : ascii) (frac rest : string) :
  hh <> EmptyString -> allDigits hh = true ->
  allDigits (String m1 (String m2 (String s1 (String s2 EmptyString)))) = true ->
  frac <> EmptyString -> allDigits frac = true ->
  (String.length frac <= 3)%nat ->
  String.length frac = 3%nat \/ startsWithDigit rest = false ->
  decimalValue hh * dlna.Hour
  + decimalValue (String m1 (String m2 EmptyString)) * dlna.Minute
  + decimalValue (String s1 (String s2 EmptyString)) * dlna.Second
  + decimalValue frac * dlna.Millisecond <= Int64.max_int ->
  dlna.ParseNPTTime (nptPrefix hh m1 m2 s1 s2 (frac ++ rest))
  = (decimalValue hh * dlna.Hour
     + decimalValue (String m1 (String m2 EmptyString)) * dlna.Minute
     + decimalValue (String s1 (String s2 EmptyString)) * dlna.Second
     + decimalValue frac * dlna.Millisecond, None).
Proof.
  intros Hne Hhh Hms Hfne Hfrac Hflen Hstop Hmax.
  pose proof Hms as Hms'. cbn [allDigits] in Hms'. rewrite !andb_true_iff in Hms'.
  destruct Hms' as (Hm1 & Hm2 & Hs1 & Hs2 & _).
  pose proof (decimalValue_nonneg hh Hhh) as Hh0.
  pose proof (decimalValue_two m1 m2 Hm1 Hm2) as Hm0.
  pose proof (decimalValue_two s1 s2 Hs1 Hs2) as Hs0.
  pose proof (decimalValue_nonneg frac Hfrac) as Hf0.
  assert (Hbound : decimalValue hh <= Int64.max_int
                   /\ decimalValue frac <= Int64.max_int).
  { unfold dlna.Hour, dlna.Minute, dlna.Second, dlna.Millisecond in Hmax.
    unfold Int64.max_int in *. change (2 ^ 63 - 1) with 9223372036854775807 in *.
    lia. }
  destruct Hbound as [Hb1 Hb2].
  apply ParseNPTTime_of_fields; try lia.
  now apply Sscanf_nptPrefix.
Qed.

(** X1.  What [FormatNPTTime] writes for a duration that is not negative,
    [ParseNPTTime] reads back without an error as the same duration cut down
    to whole milliseconds; the hour field may have any number of digits. *)
Theorem ParseNPTTime_FormatNPTTime (d : Z) :
  0 <= d <= Int64.max_int ->
  dlna.ParseNPTTime (dlna.FormatNPTTime d) = (d - d mod dlna.Millisecond, None).
Proof.
  intros Hd. unfold dlna.FormatNPTTime. cbv zeta.
  unfold dlna.Millisecond.
  rewrite (Z.quot_div_nonneg d) by lia.
  set (q0 := d / 1000000).
  assert (Hq0 : 0 <= q0) by (apply Z.div_pos; lia).
  rewrite (Z.rem_mod_nonneg q0), (Z.quot_div_nonneg q0) by lia.
  set (q1 := q0 / 1000).
  assert (Hq1 : 0 <= q1) by (apply Z.div_pos; lia).
  rewrite (Z.rem_mod_nonneg q1), (Z.quot_div_nonneg q1) by lia.
  set (q2 := q1 / 60).
  assert (Hq2 : 0 <= q2) by (apply Z.div_pos; lia).
  rewrite (Z.rem_mod_nonneg q2), (Z.quot_div_nonneg q2) by lia.
  set (h := q2 / 60).
  assert (Hh : 0 <= h) by (apply Z.div_pos; lia).
  pose proof (Z.mod_pos_bound q0 1000 ltac:(lia)) as Hms.
  pose proof (Z.mod_pos_bound q1 60 ltac:(lia)) as Hs.
  pose proof (Z.mod_pos_bound q2 60 ltac:(lia)) as Hm.
  pose proof (Z.mod_pos_bound d 1000000 ltac:(lia)) as Hns.
  pose proof (Z.div_mod d 1000000 ltac:(lia)) as E0. fold q0 in E0.
  pose proof (Z.div_mod q0 1000 ltac:(lia)) as E1. fold q1 in E1.
  pose proof (Z.div_mod q1 60 ltac:(lia)) as E2. fold q2 in E2.
  pose proof (Z.div_mod q2 60 ltac:(lia)) as E3. fold h in E3.
  destruct (fmt_0d_value 2 h Hh) as (Hhall & Hhne & Hhval).
  destruct (fmt_0d_2 (q2 mod 60) ltac:(lia)) as (m1 & m2 & Em & Hm1 & Hm2 & Vm).
  destruct (fmt_0d_2 (q1 mod 60) ltac:(lia)) as (s1 & s2 & Es & Hs1 & Hs2 & Vs).
  destruct (fmt_0d_3 (q0 mod 1000) ltac:(lia))
    as (f1 & f2 & f3 & Ef & Hf1 & Hf2 & Hf3 & Vf).
  rewrite Em, Es, Ef.
  change (fmt.fmt_0d 2 h ++ ":" ++ String m1 (String m2 EmptyString) ++ ":"
          ++ String s1 (String s2 EmptyString) ++ "."
          ++ String f1 (String f2 (String f3 EmptyString)))
    with (nptPrefix (fmt.fmt_0d 2 h) m1 m2 s1 s2
            (String f1 (String f2 (String f3 EmptyString)) ++ EmptyString)).
  assert (Hsum : decimalValue (fmt.fmt_0d 2 h) * dlna.Hour
                 + decimalValue (String m1 (String m2 EmptyString)) * dlna.Minute
                 + decimalValue (String s1 (String s2 EmptyString)) * dlna.Second
                 + decimalValue (String f1 (String f2 (String f3 EmptyString)))
                   * dlna.Millisecond
                 = d - d mod 1000000).
  { rewrite Hhval, Vm, Vs, Vf.
    unfold dlna.Hour, dlna.Minute, dlna.Second, dlna.Millisecond. lia. }
  rewrite <- Hsum.
  apply ParseNPTTime_nptPrefix; auto.
  - cbn [allDigits]. now rewrite Hm1, Hm2, Hs1, Hs2.
  - discriminate.
  - cbn [allDigits]. now rewrite Hf1, Hf2, Hf3.
  - rewrite Hsum. lia.
Qed.

Lemma ParseNPTTime_FormatNPTTime_witness :
  0 <= 360000001500000 <= Int64.max_int
  /\ dlna.ParseNPTTime (dlna.FormatNPTTime 360000001500000)
     = (360000001500000 - 360000001500000 mod dlna.Millisecond, None).
Proof.
  split; [unfold Int64.max_int; lia|].
  apply (ParseNPTTime_FormatNPTTime 360000001500000).
  unfold Int64.max_int; lia.
Defined.

(** X2.  [ParseNPTTime] matches a prefix of the text: whatever follows the
    three digits of the fraction is ignored, and the minutes and the seconds
    are not checked against 60. *)
Theorem ParseNPTTime_ignores_trailing_text
  (hh : string) (m1 m2 s1 s2 f1 f2 f3 : ascii) (rest : string) :
  hh <> EmptyString -> allDigits hh = true ->
  allDigits (String m1 (String m2 (String s1 (String s2
    (String f1 (String f2 (String f3 EmptyString))))))) = true ->
  decimalValue hh * dlna.Hour + 100 * dlna.Minute + 100 * dlna.Second
  + 1000 * dlna.Millisecond <= Int64.max_int ->
  dlna.ParseNPTTime (nptText hh m1 m2 s1 s2 f1 f2 f3 ++ rest)
  = (decimalValue hh * dlna.Hour
     + decimalValue (String m1 (String m2 EmptyString)) * dlna.Minute
     + decimalValue (String s1 (String s2 EmptyString)) * dlna.Second
     + decimalValue (String f1 (String f2 (String f3 EmptyString)))
       * dlna.Millisecond, None).
Proof.
  intros Hne Hhh Hds Hmax.
  cbn [allDigits] in Hds. rewrite !andb_true_iff in Hds.
  destruct Hds as (Hm1 & Hm2 & Hs1 & Hs2 & Hf1 & Hf2 & Hf3 & _).
  assert (E : nptText hh m1 m2 s1 s2 f1 f2 f3 ++ rest
              = nptPrefix hh m1 m2 s1 s2
                  (String f1 (String f2 (String f3 EmptyString)) ++ rest)).
  { unfold nptText, nptPrefix. rewrite append_assoc. reflexivity. }
  rewrite E.
  pose proof (decimalValue_two m1 m2 Hm1 Hm2) as Bm.
  pose proof (decimalValue_two s1 s2 Hs1 Hs2) as Bs.
  pose proof (decimalValue_three f1 f2 f3 Hf1 Hf2 Hf3) as Bf.
  apply ParseNPTTime_nptPrefix; auto.
  - cbn [allDigits]. now rewrite Hm1, Hm2, Hs1, Hs2.
  - discriminate.
  - cbn [allDigits]. now rewrite Hf1, Hf2, Hf3.
  - unfold dlna.Hour, dlna.Minute, dlna.Second, dlna.Millisecond in *. lia.
Qed.

Lemma ParseNPTTime_ignores_trailing_text_witness :
  dlna.ParseNPTTime "0:99:99.9995 and more" = (6039999000000, None).
Proof.
  change (dlna.ParseNPTTime (nptText "0" "9" "9" "9" "9" "9" "9" "9" ++ "5 and more")
          = (decimalValue "0" * dlna.Hour + decimalValue "99" * dlna.Minute
             + decimalValue "99" * dlna.Second
             + decimalValue "999" * dlna.Millisecond, None)).
  apply (ParseNPTTime_ignores_trailing_text "0" "9" "9" "9" "9" "9" "9" "9"
           "5 and more").
  - discriminate.
  - reflexivity.
  - reflexivity.
  - vm_compute. discriminate.
Defined.

(** X3.  A fraction of one or two digits is read as that number of
    milliseconds, not as tenths or hundredths of a second: [.5] stands for
    five milliseconds. *)
Theorem ParseNPTTime_short_fraction
  (hh : string) (m1 m2 s1 s2 : ascii) (frac rest : string) :
  hh <> EmptyString -> allDigits hh = true ->
  allDigits (String m1 (String m2 (String s1 (String s2 EmptyString)))) = true ->
  frac <> EmptyString -> allDigits frac = true ->
  (String.length frac < 3)%nat -> startsWithDigit rest = false ->
  decimalValue hh * dlna.Hour + 100 * dlna.Minute + 100 * dlna.Second
  + 1000 * dlna.Millisecond <= Int64.max_int ->
  dlna.ParseNPTTime (nptPrefix hh m1 m2 s1 s2 (frac ++ rest))
  = (decimalValue hh * dlna.Hour
     + decimalValue (String m1 (String m2 EmptyString)) * dlna.Minute
     + decimalValue (String s1 (String s2 EmptyString)) * dlna.Second
     + decimalValue frac * dlna.Millisecond, None)
  /\ decimalValue frac < 100.
Proof.
  intros Hne Hhh Hds Hfne Hfrac Hlen Hstop Hmax.
  pose proof Hds as Hds'.
  cbn [allDigits] in Hds'. rewrite !andb_true_iff in Hds'.
  destruct Hds' as (Hm1 & Hm2 & Hs1 & Hs2 & _).
  pose proof (decimalValue_two m1 m2 Hm1 Hm2) as Bm.
  pose proof (decimalValue_two s1 s2 Hs1 Hs2) as Bs.
  assert (Bf : 0 <= decimalValue frac < 100).
  { destruct frac as [|a [|b [|c t]]]; [congruence| | |cbn [String.length] in Hlen; lia].
    - cbn [allDigits] in Hfrac. rewrite andb_true_r in Hfrac.
      pose proof (digitVal_range a Hfrac).
      unfold decimalValue. cbn [valueFrom]. lia.
    - cbn [allDigits] in Hfrac. rewrite andb_true_r in Hfrac.
      apply andb_true_iff in Hfrac. destruct Hfrac as [Ha Hb].
      pose proof (decimalValue_two a b Ha Hb). lia. }
  split; [|lia].
  apply ParseNPTTime_nptPrefix; auto.
  - lia.
  - unfold dlna.Hour, dlna.Minute, dlna.Second, dlna.Millisecond in *. lia.
Qed.

Lemma ParseNPTTime_short_fraction_witness :
  dlna.ParseNPTTime "0:00:01.5" = (1005000000, None) /\ 5 < 100.
Proof.
  change (dlna.ParseNPTTime (nptPrefix "0" "0" "0" "0" "1" ("5" ++ EmptyString))
          = (decimalValue "0" * dlna.Hour + decimalValue "00" * dlna.Minute
             + decimalValue "01" * dlna.Second
             + decimalValue "5" * dlna.Millisecond, None)
          /\ decimalValue "5" < 100).
  apply (ParseNPTTime_short_fraction "0" "0" "0" "0" "1" "5" EmptyString).
  - discriminate.
  - reflexivity.
  - reflexivity.
  - discriminate.
  - reflexivity.
  - cbn [String.length]. lia.
  - reflexivity.
  - vm_compute. discriminate.
Defined.

(** ** Byte ranges that are accepted *)

Lemma isDigit_not_dash (c : ascii) :
  strconv.isDigit c = true -> Ascii.eqb c "-" = false.
Proof. intros H. digit_cases H; reflexivity. Qed.

Lemma allDigits_no_dash (s : string) :
  allDigits s = true -> strings.Contains s "-" = false.
Proof.
  induction s as [|c t IH]; cbn [allDigits strings.Contains]; [reflexivity|].
  rewrite andb_true_iff. intros [Hc Ht].
  now rewrite (isDigit_not_dash _ Hc), (IH Ht).
Qed.

Lemma Cut_app (a b : string) (c : ascii) :
  strings.Contains a c = false -> strings.Cut (a ++ String c b) c = Some (a, b).
Proof.
  induction a as [|d t IH]; cbn [append strings.Contains strings.Cut].
  - intros _. now rewrite Ascii.eqb_refl.
  - rewrite orb_false_iff. intros [Hd Ht]. now rewrite Hd, (IH Ht).
Qed.

Lemma strip_prefix_app (p s : string) : strings.strip_prefix p (p ++ s) = Some s.
Proof.
  induction p as [|a p IH]; cbn [append strings.strip_prefix]; [now destruct s|].
  now rewrite Ascii.eqb_refl.
Qed.

(** The two fields of a header [bytes=a-b] whose [a] is made of digits. *)
Lemma Cut_range_header (a b : string) :
  allDigits a = true ->
  strings.Cut (strings.TrimPrefix (dlna.prefix ++ a ++ String "-" b) dlna.prefix) "-"
  = Some (a, b).
Proof.
  intros Ha. unfold strings.TrimPrefix. rewrite strip_prefix_app.
  apply Cut_app. now apply allDigits_no_dash.
Qed.

Lemma FormatInt_value (n : Z) :
  0 <= n ->
  allDigits (strconv.FormatInt n) = true
  /\ strconv.FormatInt n <> EmptyString
  /\ decimalValue (strconv.FormatInt n) = n.
Proof.
  intros Hn. unfold strconv.FormatInt.
  destruct (n <? 0) eqn:E; [apply Z.ltb_lt in E; lia|].
  now apply FormatUint_value.
Qed.

Lemma sub_one (ts : Z) : 0 < ts <= Int64.max_int -> Int64.sub ts 1 = ts - 1.
Proof.
  intros H. unfold Int64.sub. apply wrap_in_range.
  unfold Int64.in_range, Int64.min_int, Int64.max_int in *. lia.
Qed.

Lemma add_one (b : Z) : 0 <= b < Int64.max_int -> Int64.add b 1 = b + 1.
Proof.
  intros H. unfold Int64.add. apply wrap_in_range.
  unfold Int64.in_range, Int64.min_int, Int64.max_int in *. lia.
Qed.

(** A header [bytes=a-b] that takes the fast path has [a = 0], and [b]
    is nothing or the last byte. *)
Lemma wholeResource_fields (a b : string) (ts : Z) :
  allDigits a = true ->
  wholeResource (dlna.prefix ++ a ++ String "-" b) ts = true ->
  a = "0" /\ (b = EmptyString \/ b = strconv.FormatInt (Int64.sub ts 1)).
Proof.
  intros Ha Hw. unfold wholeResource in Hw.
  pose proof (Cut_range_header a b Ha) as Hcut.
  apply orb_true_iff in Hw. destruct Hw as [E|E]; apply String.eqb_eq in E;
    rewrite E in Hcut.
  - vm_compute in Hcut. injection Hcut as <- <-. auto.
  - change ("bytes=0-" ++ strconv.FormatInt (Int64.sub ts 1))
      with (dlna.prefix ++ "0" ++ String "-" (strconv.FormatInt (Int64.sub ts 1)))
      in Hcut.
    rewrite (Cut_range_header "0" _ eq_refl) in Hcut.
    injection Hcut as <- <-. auto.
Qed.

(** The steps of [ParseHTTPRangeToNPTRange] on a header [bytes=a-b] off
    the fast path, once the two numbers are read. *)
Lemma ParseHTTPRangeToNPTRange_fields (a b : string) (ts d sb eb : Z) :
  wholeResource (dlna.prefix ++ a ++ String "-" b) ts = false ->
  allDigits a = true ->
  strconv.ParseInt a = (sb, None) ->
  (if negb (String.eqb b EmptyString) then strconv.ParseInt b
   else (Int64.sub ts 1, None)) = (eb, None) ->
  0 <= sb <= eb -> eb < ts ->
  dlna.ParseHTTPRangeToNPTRange (dlna.prefix ++ a ++ String "-" b) ts d
  = (dlna.mkNPTRange
       (dlna.calculateNPTPosition sb ts d)
       (let endTime := dlna.calculateNPTPosition (Int64.add eb 1) ts d in
        if d <? endTime then d else endTime)
       sb eb, None).
Proof.
  intros Hw Ha Hsb Heb Hb1 Hb2.
  unfold dlna.ParseHTTPRangeToNPTRange, dlna.ParseHTTPRangeToNPTRange_with.
  change (String.eqb ?h (dlna.prefix ++ "0-")
          || String.eqb ?h (dlna.prefix ++ "0-" ++ strconv.FormatInt (Int64.sub ts 1)))
    with (wholeResource h ts).
  rewrite Hw.
  unfold strings.HasPrefix. rewrite strip_prefix_app. cbn [negb].
  unfold strings.SplitN2. rewrite (Cut_range_header a b Ha).
  rewrite Hsb, Heb.
  replace ((sb <? 0) || (ts <=? eb) || (eb <? sb)) with false; [reflexivity|].
  symmetry. rewrite !orb_false_iff, !Z.ltb_ge, Z.leb_gt. lia.
Qed.

(** X4.  A header [bytes=s-e] written with [FormatInt] from offsets with
    [0 <= s <= e < totalSize] is accepted, on the fast path or off it, and
    the bytes of the range are [s] and [e]. *)
Theorem ParseHTTPRangeToNPTRange_accepts_closed (s e totalSize duration : Z) :
  0 <= s <= e -> e < totalSize <= Int64.max_int ->
  exists r,
    dlna.ParseHTTPRangeToNPTRange
      ("bytes=" ++ strconv.FormatInt s ++ "-" ++ strconv.FormatInt e)
      totalSize duration = (r, None)
    /\ dlna.StartByte r = s /\ dlna.EndByte r = e.
Proof.
  intros Hs He.
  destruct (FormatInt_value s ltac:(lia)) as (Hsd & Hsne & Hsv).
  destruct (FormatInt_value e ltac:(lia)) as (Hed & Hene & Hev).
  change ("bytes=" ++ strconv.FormatInt s ++ "-" ++ strconv.FormatInt e)
    with (dlna.prefix ++ strconv.FormatInt s ++ String "-" (strconv.FormatInt e)).
  destruct (wholeResource
              (dlna.prefix ++ strconv.FormatInt s ++ String "-" (strconv.FormatInt e))
              totalSize) eqn:Hw.
  - destruct (wholeResource_fields _ _ _ Hsd Hw) as [E0 [E1|E1]]; [congruence|].
    assert (s = 0) by (rewrite <- Hsv, E0; reflexivity).
    assert (e = totalSize - 1).
    { rewrite <- Hev, E1, sub_one by lia.
      now destruct (FormatInt_value (totalSize - 1) ltac:(lia)) as (_ & _ & ->). }
    subst s e.
    unfold dlna.ParseHTTPRangeToNPTRange, dlna.ParseHTTPRangeToNPTRange_with.
    change (String.eqb ?h (dlna.prefix ++ "0-")
            || String.eqb ?h
                 (dlna.prefix ++ "0-" ++ strconv.FormatInt (Int64.sub totalSize 1)))
      with (wholeResource h totalSize).
    rewrite Hw. eexists. split; [reflexivity|].
    cbn [dlna.StartByte dlna.EndByte]. split; [reflexivity|apply sub_one; lia].
  - eexists. split.
    + apply ParseHTTPRangeToNPTRange_fields with (sb := s) (eb := e); auto; try lia.
      * apply ParseInt_FormatInt. lia.
      * replace (String.eqb (strconv.FormatInt e) EmptyString) with false.
        -- cbn [negb]. apply ParseInt_FormatInt. lia.
        -- symmetry. apply String.eqb_neq. exact Hene.
    + cbn [dlna.StartByte dlna.EndByte]. auto.
Qed.

Lemma ParseHTTPRangeToNPTRange_accepts_closed_witness :
  exists r,
    dlna.ParseHTTPRangeToNPTRange
      ("bytes=" ++ strconv.FormatInt 100 ++ "-" ++ strconv.FormatInt 199)
      1000 60000000000 = (r, None)
    /\ dlna.StartByte r = 100 /\ dlna.EndByte r = 199.
Proof.
  apply (ParseHTTPRangeToNPTRange_accepts_closed 100 199 1000 60000000000).
  - lia.
  - unfold Int64.max_int. lia.
Defined.

(** X5.  A header [bytes=s-] with [0 <= s < totalSize] is accepted, and its
    range ends at the last byte of the resource. *)
Theorem ParseHTTPRangeToNPTRange_accepts_open (s totalSize duration : Z) :
  0 <= s -> s < totalSize <= Int64.max_int ->
  exists r,
    dlna.ParseHTTPRangeToNPTRange
      ("bytes=" ++ strconv.FormatInt s ++ "-") totalSize duration = (r, None)
    /\ dlna.StartByte r = s /\ dlna.EndByte r = totalSize - 1.
Proof.
  intros Hs Hts.
  destruct (FormatInt_value s ltac:(lia)) as (Hsd & Hsne & Hsv).
  change ("bytes=" ++ strconv.FormatInt s ++ "-")
    with (dlna.prefix ++ strconv.FormatInt s ++ String "-" EmptyString).
  destruct (wholeResource
              (dlna.prefix ++ strconv.FormatInt s ++ String "-" EmptyString)
              totalSize) eqn:Hw.
  - destruct (wholeResource_fields _ _ _ Hsd Hw) as [E0 _].
    assert (s = 0) by (rewrite <- Hsv, E0; reflexivity).
    subst s.
    unfold dlna.ParseHTTPRangeToNPTRange, dlna.ParseHTTPRangeToNPTRange_with.
    change (String.eqb ?h (dlna.prefix ++ "0-")
            || String.eqb ?h
                 (dlna.prefix ++ "0-" ++ strconv.FormatInt (Int64.sub totalSize 1)))
      with (wholeResource h totalSize).
    rewrite Hw. eexists. split; [reflexivity|].
    cbn [dlna.StartByte dlna.EndByte]. split; [reflexivity|apply sub_one; lia].
  - eexists. split.
    + apply ParseHTTPRangeToNPTRange_fields with (sb := s) (eb := totalSize - 1);
        auto; try lia.
      * apply ParseInt_FormatInt. lia.
      * cbn [String.eqb negb]. now rewrite sub_one by lia.
    + cbn [dlna.StartByte dlna.EndByte]. auto.
Qed.

Lemma ParseHTTPRangeToNPTRange_accepts_open_witness :
  exists r,
    dlna.ParseHTTPRangeToNPTRange
      ("bytes=" ++ strconv.FormatInt 100 ++ "-") 1000 60000000000 = (r, None)
    /\ dlna.StartByte r = 100 /\ dlna.EndByte r = 1000 - 1.
Proof.
  apply (ParseHTTPRangeToNPTRange_accepts_open 100 1000 60000000000).
  - lia.
  - unfold Int64.max_int. lia.
Defined.

(** ** The times of an accepted range *)

(** Off the fast path, the times of the range are the positions of its
    first byte and of the byte after its last one, the latter capped at
    the duration. *)
Lemma ParseHTTPRangeToNPTRange_times (h : string) (ts d : Z) (r : dlna.NPTRange) :
  wholeResource h ts = false ->
  dlna.ParseHTTPRangeToNPTRange h ts d = (r, None) ->
  dlna.Start r = dlna.calculateNPTPosition (dlna.StartByte r) ts d
  /\ dlna.End r
     = Z.min d (dlna.calculateNPTPosition (Int64.add (dlna.EndByte r) 1) ts d)
  /\ 0 <= dlna.StartByte r <= dlna.EndByte r /\ dlna.EndByte r < ts.
Proof.
  intros Hw.
  unfold dlna.ParseHTTPRangeToNPTRange, dlna.ParseHTTPRangeToNPTRange_with.
  change (String.eqb h (dlna.prefix ++ "0-")
          || String.eqb h (dlna.prefix ++ "0-" ++ strconv.FormatInt (Int64.sub ts 1)))
    with (wholeResource h ts).
  rewrite Hw.
  destruct (negb (strings.HasPrefix h dlna.prefix)); [discriminate|].
  destruct (strings.SplitN2 (strings.TrimPrefix h dlna.prefix) "-")
    as [|a [|b [|c l]]]; try discriminate.
  destruct (strconv.ParseInt a) as [sb [ea|]]; [discriminate|].
  destruct (if negb (String.eqb b EmptyString) then strconv.ParseInt b
            else (Int64.sub ts 1, None)) as [eb [ee|]]; [discriminate|].
  destruct ((sb <? 0) || (ts <=? eb) || (eb <? sb)) eqn:Hbounds; [discriminate|].
  intros [= <-]. cbn [dlna.Start dlna.End dlna.StartByte dlna.EndByte].
  apply orb_false_iff in Hbounds. destruct Hbounds as [Hbounds H3].
  apply orb_false_iff in Hbounds. destruct Hbounds as [H1 H2].
  apply Z.ltb_ge in H1, H3. apply Z.leb_gt in H2.
  repeat split; try lia.
  destruct (d <? dlna.calculateNPTPosition (Int64.add eb 1) ts d) eqn:E;
    [apply Z.ltb_lt in E|apply Z.ltb_ge in E]; lia.
Qed.

(** X6.  For a positive total size and a duration between 0 and 2^53
    nanoseconds, every range that [ParseHTTPRangeToNPTRange] returns
    without an error lies within the resource: its bytes within
    [0, totalSize) and its times within [0, duration], each start at or
    before its end. *)
Theorem ParseHTTPRangeToNPTRange_within_resource
  (rangeHeader : string) (totalSize duration : Z) (r : dlna.NPTRange) :
  0 < totalSize <= Int64.max_int -> 0 <= duration <= maxExactDuration ->
  dlna.ParseHTTPRangeToNPTRange rangeHeader totalSize duration = (r, None) ->
  0 <= dlna.StartByte r <= dlna.EndByte r /\ dlna.EndByte r < totalSize
  /\ 0 <= dlna.Start r <= dlna.End r /\ dlna.End r <= duration.
Proof.
  intros Hts Hd Hr.
  assert (Hsafe : duration <= maxSafeDuration).
  { unfold maxExactDuration, maxSafeDuration in *. lia. }
  destruct (wholeResource rangeHeader totalSize) eqn:Hw.
  - revert Hr.
    unfold dlna.ParseHTTPRangeToNPTRange, dlna.ParseHTTPRangeToNPTRange_with.
    change (String.eqb rangeHeader (dlna.prefix ++ "0-")
            || String.eqb rangeHeader
                 (dlna.prefix ++ "0-" ++ strconv.FormatInt (Int64.sub totalSize 1)))
      with (wholeResource rangeHeader totalSize).
    rewrite Hw. intros [= <-].
    cbn [dlna.Start dlna.End dlna.StartByte dlna.EndByte].
    rewrite sub_one by lia. lia.
  - destruct (ParseHTTPRangeToNPTRange_times _ _ _ _ Hw Hr)
      as (Hstart & Hend & Hb & He).
    rewrite add_one in Hend by lia.
    assert (H0 : dlna.calculateNPTPosition 0 totalSize duration = 0)
      by (apply calculateNPTPosition_zero; lia).
    assert (Ht : dlna.calculateNPTPosition totalSize totalSize duration = duration)
      by (apply calculateNPTPosition_total; lia).
    assert (M1 : dlna.calculateNPTPosition 0 totalSize duration
                 <= dlna.calculateNPTPosition (dlna.StartByte r) totalSize duration)
      by (apply calculateNPTPosition_mono; lia).
    assert (M2 : dlna.calculateNPTPosition (dlna.StartByte r) totalSize duration
                 <= dlna.calculateNPTPosition (dlna.EndByte r + 1) totalSize duration)
      by (apply calculateNPTPosition_mono; lia).
    assert (M3 : dlna.calculateNPTPosition (dlna.EndByte r + 1) totalSize duration
                 <= dlna.calculateNPTPosition totalSize totalSize duration)
      by (apply calculateNPTPosition_mono; lia).
    lia.
Qed.

Lemma ParseHTTPRangeToNPTRange_within_resource_witness :
  0 <= 100 <= 199 /\ 199 < 1000 /\ 0 <= 6000000000 <= 12000000000
  /\ 12000000000 <= 60000000000.
Proof.
  apply (ParseHTTPRangeToNPTRange_within_resource "bytes=100-199" 1000 60000000000
           (dlna.mkNPTRange 6000000000 12000000000 100 199)).
  - unfold Int64.max_int. lia.
  - unfold maxExactDuration. lia.
  - vm_compute. reflexivity.
Defined.

(** X7.  Above 2^53 nanoseconds the bound of X6 on the times fails: with a
    duration of 2^54+3 and a resource of 2^55 bytes, the range of the last
    byte starts at 2^54+4, after its end 2^54+3 and after the duration. *)
Example ParseHTTPRangeToNPTRange_start_after_end :
  dlna.ParseHTTPRangeToNPTRange "bytes=36028797018963967-36028797018963967"
    36028797018963968 18014398509481987
  = (dlna.mkNPTRange 18014398509481988 18014398509481987
       36028797018963967 36028797018963967, None)
  /\ 18014398509481987 = 2 ^ 54 + 3 /\ 36028797018963968 = 2 ^ 55
  /\ Z.leb 18014398509481987 maxSafeDuration = true.
Proof. vm_compute. repeat split. Qed.

(** ** The tokenizer on words and quoted fields *)

Section TokenizerWords.
Import transcode.

(** What the end of [parseCommandLine] returns from the last state of
    the loop. *)
Lemma parseCommandLine_run (command : string) (l : lexer) :
  run initial command = l -> state l <> StateQuotes ->
  parseCommandLine command
  = if negb (String.eqb (current l) EmptyString)
    then (List.app (largs l) [current l], None)
    else (largs l, None).
Proof.
  intros <- Hs. unfold parseCommandLine.
  destruct (state (run initial command)); congruence.
Qed.

Lemma run_app (a b : string) : forall l, run l (a ++ b) = run (run l a) b.
Proof. induction a as [|c a IH]; intros l; cbn [append run]; auto. Qed.

(** The first byte of the command is added to the current field, whatever
    it is, and the loop stays at the start. *)
Lemma run_first_byte (c : ascii) (rest : string) :
  run initial (String c rest)
  = run (mkLexer [] StateStart (string_of_byte c) dquoteString false) rest.
Proof. reflexivity. Qed.

Lemma in_allBytes (c : ascii) : In c allBytes.
Proof.
  unfold allBytes. rewrite <- (ascii_nat_embedding c).
  apply in_map, in_seq. pose proof (nat_ascii_bounded c). lia.
Qed.

(** A property that holds of the 256 bytes holds of every byte. *)
Lemma for_all_bytes (P : ascii -> bool) :
  forallb P allBytes = true -> forall c, P c = true.
Proof.
  intros H c. rewrite forallb_forall in H. apply H, in_allBytes.
Qed.

Lemma plainByte_cases (c : ascii) :
  plainByte c = true ->
  string_of_byte c = String c EmptyString
  /\ Ascii.eqb c " " = false /\ Ascii.eqb c "009" = false
  /\ Ascii.eqb c dquote = false /\ Ascii.eqb c "'" = false
  /\ Ascii.eqb c "\" = false.
Proof.
  unfold plainByte, string_of_byte. rewrite !andb_true_iff, !negb_true_iff.
  intros (((((H1 & H2) & H3) & H4) & H5) & H6). rewrite H1.
  repeat split; assumption.
Qed.

(** A plain byte is added to the field; the loop is then inside an
    argument. *)
Lemma step_plain (l : lexer) (c : ascii) :
  state l <> StateQuotes -> escapeNext l = false -> plainByte c = true ->
  step l c
  = mkLexer (largs l) StateArg (current l ++ String c EmptyString) (quote l) false.
Proof.
  intros Hs He Hc.
  destruct (plainByte_cases c Hc) as (E0 & E1 & E2 & E3 & E4 & E5).
  destruct l as [a s cur q e]. cbn [state escapeNext largs current quote] in *.
  subst e. unfold step. cbn [state escapeNext largs current quote].
  rewrite E0, E1, E2, E3, E4, E5.
  destruct s; [reflexivity|reflexivity|congruence].
Qed.

Lemma run_plain (w : string) :
  forall l,
    state l = StateArg -> escapeNext l = false -> plainBytes w = true ->
    run l w = mkLexer (largs l) StateArg (current l ++ w) (quote l) false.
Proof.
  induction w as [|c w IH]; intros l Hs He Hw.
  - cbn [run]. rewrite append_nil_r. destruct l; cbn in *. now subst.
  - cbn [plainBytes] in Hw. apply andb_true_iff in Hw. destruct Hw as [Hc Hw].
    cbn [run]. rewrite step_plain by (auto; congruence).
    rewrite IH by auto. cbn [largs current quote].
    now rewrite append_assoc.
Qed.

(** A word read from the start of a field: it is added to what the
    current field holds. *)
Lemma run_word (w : string) (l : lexer) :
  state l <> StateQuotes -> escapeNext l = false -> plainWord w = true ->
  run l w = mkLexer (largs l) StateArg (current l ++ w) (quote l) false.
Proof.
  intros Hs He Hw. unfold plainWord in Hw. apply andb_true_iff in Hw.
  destruct Hw as [Hne Hw]. destruct w as [|c w]; [discriminate|].
  cbn [plainBytes] in Hw. apply andb_true_iff in Hw. destruct Hw as [Hc Hw].
  cbn [run]. rewrite step_plain by auto.
  rewrite run_plain by auto. cbn [largs current quote].
  now rewrite append_assoc.
Qed.

(** The words of a command, read from the start of a field whose
    [current] may hold bytes already: these go in front of the first
    word. *)
Lemma run_words (ws : list string) :
  forall (w : string) (l : lexer),
    state l = StateStart -> escapeNext l = false ->
    forallb plainWord (w :: ws) = true ->
    let l' := run l (joinWords (w :: ws)) in
    state l' = StateArg
    /\ List.app (largs l') [current l']
       = List.app (largs l) ((current l ++ w) :: ws)
    /\ current l' <> EmptyString.
Proof.
  induction ws as [|w' ws IH]; intros w l Hs He Hws; cbv zeta.
  - cbn [forallb] in Hws. rewrite andb_true_r in Hws.
    cbn [joinWords]. rewrite run_word by (auto; congruence).
    cbn [state largs current]. repeat split.
    unfold plainWord in Hws. destruct w; [discriminate|].
    now destruct (current l).
  - cbn [forallb] in Hws. apply andb_true_iff in Hws. destruct Hws as [Hw Hws].
    change (joinWords (w :: w' :: ws))
      with (w ++ String " " (joinWords (w' :: ws))).
    rewrite run_app, (run_word w l) by (auto; congruence).
    cbn [run].
    change (step (mkLexer (largs l) StateArg (current l ++ w) (quote l) false) " ")
      with (mkLexer (List.app (largs l) [current l ++ w]) StateStart EmptyString
              (quote l) false).
    destruct (IH w' (mkLexer (List.app (largs l) [current l ++ w]) StateStart
                       EmptyString (quote l) false) eq_refl eq_refl Hws)
      as (H1 & H2 & H3).
    cbv zeta in H2. cbn [largs current] in H2.
    repeat split; auto.
    rewrite H2, <- app_assoc. reflexivity.
Qed.

Lemma parseCommandLine_words (c : ascii) (rest : string) (w : string) (ws : list string) :
  run initial (String c EmptyString ++ rest)
  = run (mkLexer [] StateStart (String c EmptyString) dquoteString false)
      (joinWords (w :: ws)) ->
  forallb plainWord (w :: ws) = true ->
  parseCommandLine (String c EmptyString ++ rest) = (String c w :: ws, None).
Proof.
  intros Hrun Hws.
  destruct (run_words ws w (mkLexer [] StateStart (String c EmptyString)
                              dquoteString false) eq_refl eq_refl Hws)
    as (H1 & H2 & H3).
  cbv zeta in H1, H2, H3. rewrite <- Hrun in H1, H2, H3.
  rewrite (parseCommandLine_run _ _ eq_refl) by congruence.
  replace (String.eqb (current (run initial (String c EmptyString ++ rest)))
             EmptyString) with false
    by (symmetry; now apply String.eqb_neq).
  cbn [negb]. rewrite H2. reflexivity.
Qed.

End TokenizerWords.

(** X8.  A command of words of plain bytes (ASCII; no blank, quote or
    backslash) with one space between them is split into these words,
    when the first word has two bytes or more. *)
Theorem parseCommandLine_plain_words (c : ascii) (w : string) (ws : list string) :
  plainByte c = true -> forallb plainWord (w :: ws) = true ->
  transcode.parseCommandLine (joinWords (String c w :: ws)) = (String c w :: ws, None).
Proof.
  intros Hc Hws.
  destruct (plainByte_cases c Hc) as (E0 & _).
  assert (E : joinWords (String c w :: ws)
              = String c EmptyString ++ joinWords (w :: ws)).
  { cbn [joinWords]. destruct ws; reflexivity. }
  rewrite E. apply parseCommandLine_words; [|exact Hws].
  cbn [append]. rewrite run_first_byte, E0. reflexivity.
Qed.

Lemma parseCommandLine_plain_words_witness :
  transcode.parseCommandLine (joinWords ["ffmpeg"; "-i"; "in.mkv"; "-f"; "mpegts"])
  = (["ffmpeg"; "-i"; "in.mkv"; "-f"; "mpegts"], None).
Proof.
  apply (parseCommandLine_plain_words "f" "fmpeg" ["-i"; "in.mkv"; "-f"; "mpegts"]);
    reflexivity.
Defined.

(** X9.  A first word of one byte is not closed by the space after it:
    the byte stays in the current field, and the tokenizer returns it
    joined to the second word. *)
Theorem parseCommandLine_merges_first_byte (c : ascii) (w : string) (ws : list string) :
  plainByte c = true -> forallb plainWord (w :: ws) = true ->
  transcode.parseCommandLine (joinWords (String c EmptyString :: w :: ws))
  = (String c w :: ws, None).
Proof.
  intros Hc Hws.
  destruct (plainByte_cases c Hc) as (E0 & _).
  change (joinWords (String c EmptyString :: w :: ws))
    with (String c EmptyString ++ String " " (joinWords (w :: ws))).
  apply parseCommandLine_words; [|exact Hws].
  cbn [append]. rewrite run_first_byte, E0. reflexivity.
Qed.

Lemma parseCommandLine_merges_first_byte_witness :
  transcode.parseCommandLine (joinWords ["a"; "b"; "c"]) = (["ab"; "c"], None).
Proof.
  apply (parseCommandLine_merges_first_byte "a" "b" ["c"]); reflexivity.
Defined.

(** ** The arguments the tokenizer returns, and [Exec] *)

Section TokenizerArguments.
Import transcode.

Lemma string_of_byte_nonempty (c : ascii) : string_of_byte c <> EmptyString.
Proof. unfold string_of_byte. destruct (N_of_ascii c <? 128)%N; discriminate. Qed.

Lemma append_nonempty (a b : string) : b <> EmptyString -> a ++ b <> EmptyString.
Proof. destruct a; cbn [append]; [auto|discriminate]. Qed.

Lemma app_nonempty (A : Type) (l : list A) (x : A) : List.app l [x] <> [].
Proof. destruct l; discriminate. Qed.

(** No iteration of the loop loses the argument it holds. *)
Lemma step_holdsArgument (l : lexer) (c : ascii) :
  holdsArgument l -> holdsArgument (step l c).
Proof.
  pose proof (string_of_byte_nonempty c) as Hc.
  pose proof (append_nonempty (current l) _ Hc) as Hcur.
  pose proof (app_nonempty _ (largs l) (current l)) as Happ.
  unfold holdsArgument, step. intros H.
  destruct (state l);
    repeat match goal with
           | |- context [if ?b then _ else _] => destruct b
           end;
    cbn [largs current]; auto.
Qed.

Lemma run_holdsArgument (command : string) :
  forall l, holdsArgument l -> holdsArgument (run l command).
Proof.
  induction command as [|c rest IH]; intros l H; cbn [run]; [exact H|].
  apply IH. now apply step_holdsArgument.
Qed.

(** The tokenizer returns no argument and no error for the empty command
    only. *)
Lemma parseCommandLine_no_argument (command : string) :
  parseCommandLine command = ([], None) -> command = EmptyString.
Proof.
  destruct command as [|c rest]; [reflexivity|]. intros H. exfalso.
  assert (Hh : holdsArgument (run initial (String c rest))).
  { rewrite run_first_byte. apply run_holdsArgument. right.
    apply string_of_byte_nonempty. }
  revert H. unfold parseCommandLine. cbv zeta.
  destruct (state (run initial (String c rest))); try discriminate;
    (destruct (String.eqb (current (run initial (String c rest))) EmptyString) eqn:E;
     cbn [negb];
     [apply String.eqb_eq in E; destruct Hh as [Hh|Hh]; [|congruence];
      intros [= Hl]; exact (Hh Hl)
     |intros [= Hl]; now apply app_nonempty in Hl]).
Qed.

(** Bytes other than the quote, then the quote: the field is closed and
    added to the arguments as it is. *)
Lemma run_quoted (body : string) :
  forall (l : lexer) (q : ascii) (rest : string),
    state l = StateQuotes -> quote l = String q EmptyString ->
    (N_of_ascii q <? 128)%N = true -> asciiWithout q body = true ->
    run l (body ++ String q rest)
    = run (mkLexer (List.app (largs l) [current l ++ body]) StateStart EmptyString
             (quote l) (escapeNext l)) rest.
Proof.
  induction body as [|c body IH]; intros l q rest Hs Hq Hq128 Hbody.
  - cbn [append run]. f_equal. unfold step. rewrite Hs, Hq.
    unfold string_of_byte. rewrite Hq128, String.eqb_refl. cbn [negb].
    now rewrite append_nil_r.
  - cbn [asciiWithout] in Hbody. rewrite !andb_true_iff, negb_true_iff in Hbody.
    destruct Hbody as [[Hc128 Hcq] Hbody].
    cbn [append run].
    assert (Hstep : step l c
                    = mkLexer (largs l) StateQuotes
                        (current l ++ String c EmptyString) (quote l) (escapeNext l)).
    { unfold step. rewrite Hs, Hq, (string_of_byte_eqb _ _ Hcq). cbn [negb].
      unfold string_of_byte. now rewrite Hc128. }
    rewrite Hstep, (IH _ q rest) by auto.
    cbn [largs current quote escapeNext]. now rewrite append_assoc.
Qed.

Lemma isQuote_cases (q : ascii) :
  isQuote q = true -> q = dquote \/ q = "'"%char.
Proof.
  unfold isQuote. rewrite orb_true_iff.
  intros [H|H]; apply Ascii.eqb_eq in H; auto.
Qed.

(** A byte from 128 on is none of the bytes the tokenizer looks for. *)
Lemma high_byte_cases :
  forall c : ascii,
    implb (128 <=? N_of_ascii c)%N
      (negb (Ascii.eqb c " ") && negb (Ascii.eqb c "009")
       && negb (Ascii.eqb c dquote) && negb (Ascii.eqb c "'")
       && negb (Ascii.eqb c "\")
       && (String.length (string_of_byte c) =? 2)%nat
       && negb (String.eqb (string_of_byte c) (String c EmptyString))) = true.
Proof. apply for_all_bytes. vm_compute. reflexivity. Qed.

Lemma step_high_byte (l : lexer) (c : ascii) :
  state l <> StateQuotes -> escapeNext l = false -> (128 <=? N_of_ascii c)%N = true ->
  step l c
  = mkLexer (largs l) StateArg (current l ++ string_of_byte c) (quote l) false.
Proof.
  intros Hs He Hc. pose proof (high_byte_cases c) as H. rewrite Hc in H.
  cbn [implb] in H. rewrite !andb_true_iff, !negb_true_iff in H.
  destruct H as ((((((E1 & E2) & E3) & E4) & E5) & _) & _).
  destruct l as [a s cur q e]. cbn [state escapeNext largs current quote] in *.
  subst e. unfold step. cbn [state escapeNext largs current quote].
  rewrite E1, E2, E3, E4, E5.
  destruct s; [reflexivity|reflexivity|congruence].
Qed.

End TokenizerArguments.

(** X10.  [Exec] with the empty command panics in [transcodePipe], which
    takes [args[1:]] of the empty list of arguments: slice bounds out of
    range [1:0].  With any other command the list of arguments causes no
    panic: [Exec] gives back the error of the tokenizer with a [nil]
    reader, or the tokenizer returns one argument at least and [Exec] is
    the launch of the first one as the executable with the others as its
    arguments. *)
Theorem Exec_panics_on_empty_command
  (Reader : Type) (nilReader : Reader)
  (start : string -> list string -> launch.run (Reader * option error))
  (cmds : string) :
  (cmds = EmptyString
   /\ transcode.parseCommandLine cmds = ([], None)
   /\ launch.Exec Reader nilReader start cmds
      = launch.Panicked (launch.SliceBoundsOutOfRange 1 0))
  \/ (cmds <> EmptyString
      /\ ((exists aerr,
              snd (transcode.parseCommandLine cmds) = Some aerr
              /\ launch.Exec Reader nilReader start cmds
                 = launch.Returned (nilReader, Some aerr))
          \/ (exists name arg,
                 transcode.parseCommandLine cmds = (name :: arg, None)
                 /\ launch.Exec Reader nilReader start cmds = start name arg))).
Proof.
  destruct cmds as [|c rest]; [left; repeat split; reflexivity|].
  right. split; [discriminate|].
  unfold launch.Exec.
  pose proof (parseCommandLine_no_argument (String c rest)) as H.
  destruct (transcode.parseCommandLine (String c rest)) as [cmda [aerr|]].
  - left. exists aerr. split; reflexivity.
  - destruct cmda as [|name arg]; [specialize (H eq_refl); discriminate|].
    right. exists name, arg. split; reflexivity.
Qed.

(** X11.  A field between two quotes of the same kind is returned as it
    is, blanks, backslashes and quotes of the other kind included, and an
    empty one as an empty argument. *)
Theorem parseCommandLine_quoted_field
  (c : ascii) (w : string) (q : ascii) (body : string) :
  plainByte c = true -> plainWord w = true ->
  isQuote q = true -> asciiWithout q body = true ->
  transcode.parseCommandLine
    (String c w ++ " " ++ String q (body ++ String q EmptyString))
  = ([String c w; body], None).
Proof.
  intros Hc Hw Hq Hbody.
  destruct (plainByte_cases c Hc) as (E0 & _).
  assert (Hq128 : (N_of_ascii q <? 128)%N = true).
  { destruct (isQuote_cases q Hq) as [->| ->]; reflexivity. }
  assert (Hrun : transcode.run transcode.initial
                   (String c w ++ " " ++ String q (body ++ String q EmptyString))
                 = transcode.mkLexer [String c w; body] transcode.StateStart
                     EmptyString (String q EmptyString) false).
  { cbn [append]. rewrite run_first_byte, E0, run_app.
    rewrite (run_word w) by (auto; discriminate).
    cbn [transcode.largs transcode.current transcode.quote transcode.run].
    assert (Hs1 : transcode.step
                    (transcode.mkLexer [] transcode.StateArg (String c EmptyString ++ w)
                       transcode.dquoteString false) " "
                  = transcode.mkLexer [String c w] transcode.StateStart EmptyString
                      transcode.dquoteString false) by reflexivity.
    rewrite Hs1.
    assert (Hs2 : transcode.step
                    (transcode.mkLexer [String c w] transcode.StateStart EmptyString
                       transcode.dquoteString false) q
                  = transcode.mkLexer [String c w] transcode.StateQuotes EmptyString
                      (String q EmptyString) false).
    { destruct (isQuote_cases q Hq) as [->| ->]; reflexivity. }
    rewrite Hs2.
    rewrite (run_quoted body _ q EmptyString) by auto.
    reflexivity. }
  rewrite (parseCommandLine_run _ _ Hrun) by discriminate.
  reflexivity.
Qed.

Lemma parseCommandLine_quoted_field_witness :
  transcode.parseCommandLine
    ("sh" ++ " " ++ String "'" ("echo \ a" ++ String "'" EmptyString))
  = (["sh"; "echo \ a"], None).
Proof.
  apply (parseCommandLine_quoted_field "s" "h" "'" "echo \ a"); reflexivity.
Defined.

(** X12.  A byte from 128 on, outside a quoted field, is not copied: the
    tokenizer converts it as a code point, and the argument holds two
    bytes for it. *)
Theorem parseCommandLine_high_byte (c : ascii) (w : string) (b : ascii) (w' : string) :
  plainByte c = true -> plainBytes w = true -> plainBytes w' = true ->
  (128 <=? N_of_ascii b)%N = true ->
  transcode.parseCommandLine (String c w ++ String b w')
  = ([String c w ++ transcode.string_of_byte b ++ w'], None)
  /\ String.length (transcode.string_of_byte b) = 2%nat
  /\ transcode.string_of_byte b <> String b EmptyString.
Proof.
  intros Hc Hw Hw' Hb.
  destruct (plainByte_cases c Hc) as (E0 & _).
  pose proof (high_byte_cases b) as H. rewrite Hb in H.
  cbn [implb] in H. rewrite !andb_true_iff, !negb_true_iff in H.
  destruct H as ((_ & Hlen) & Hne).
  apply Nat.eqb_eq in Hlen. apply String.eqb_neq in Hne.
  split; [|split; assumption].
  assert (Hrun : transcode.run transcode.initial (String c w ++ String b w')
                 = transcode.mkLexer [] transcode.StateArg
                     (String c w ++ transcode.string_of_byte b ++ w')
                     transcode.dquoteString false).
  { cbn [append]. rewrite run_first_byte, E0, run_app.
    destruct w as [|d w].
    - cbn [transcode.run]. rewrite step_high_byte by (auto; discriminate).
      rewrite (run_plain w') by auto. cbn [transcode.largs transcode.current transcode.quote].
      rewrite append_assoc. reflexivity.
    - rewrite (run_word (String d w))
        by (auto; try discriminate; unfold plainWord; now rewrite Hw).
      cbn [transcode.run]. rewrite step_high_byte by (auto; discriminate).
      rewrite (run_plain w') by auto. cbn [transcode.largs transcode.current transcode.quote].
      rewrite !append_assoc. reflexivity. }
  rewrite (parseCommandLine_run _ _ Hrun) by discriminate.
  cbn [transcode.current transcode.largs].
  replace (String.eqb (String c w ++ transcode.string_of_byte b ++ w') EmptyString)
    with false by reflexivity.
  reflexivity.
Qed.

Lemma parseCommandLine_high_byte_witness :
  transcode.parseCommandLine ("caf" ++ String "233" ".ts")
  = (["caf" ++ transcode.string_of_byte "233" ++ ".ts"], None)
  /\ String.length (transcode.string_of_byte "233") = 2%nat
  /\ transcode.string_of_byte "233" <> String "233" EmptyString.
Proof.
  apply (parseCommandLine_high_byte "c" "af" "233" ".ts"); reflexivity.
Defined.

(** ** The stream plans *)

Lemma countMap_app (a b : list string) :
  countMap (a ++ b)%list = (countMap a + countMap b)%nat.
Proof. unfold countMap. now rewrite filter_app, length_app. Qed.

Lemma wrap_succ (a : Z) : Int64.add (Int64.wrap a) 1 = Int64.wrap (a + 1).
Proof.
  unfold Int64.add, Int64.wrap. f_equal.
  replace ((a + 2 ^ 63) mod 2 ^ 64 - 2 ^ 63 + 1 + 2 ^ 63)
    with ((a + 2 ^ 63) mod 2 ^ 64 + 1) by ring.
  rewrite Z.add_mod_idemp_l by (vm_compute; discriminate).
  f_equal. ring.
Qed.

(** An interface value equals one string constant at most. *)
Lemma isStr_exclusive (v : transcode.value) (a b : string) :
  String.eqb a b = false -> transcode.isStr v a = true -> transcode.isStr v b = false.
Proof.
  unfold transcode.isStr. destruct v; try discriminate.
  intros Hab Ha. apply String.eqb_eq in Ha. subst s. exact Hab.
Qed.

Section Plans.

Variable numberFloat64 : string -> Q.

Lemma countMap_videoArgs (st : transcode.stream) (k : Z) :
  countMap (transcode.videoArgs numberFloat64 st k) = 1%nat.
Proof.
  unfold transcode.videoArgs, transcode.getStreamAlias.
  generalize (strconv.Itoa k). generalize (strconv.Itoa
    (transcode.int_of_float
       match st "index" with
       | transcode.VFloat64 f => f
       | transcode.VNumber n => numberFloat64 n
       | _ => 0%Q
       end)).
  intros a n.
  destruct (transcode.isAny (st "codec_name") _); vm_compute; reflexivity.
Qed.

Lemma countMap_audioArgs (st : transcode.stream) (k : Z) :
  countMap (transcode.audioArgs numberFloat64 st k) = 1%nat.
Proof.
  unfold transcode.audioArgs, transcode.getStreamAlias.
  generalize (strconv.Itoa k). generalize (strconv.Itoa
    (transcode.int_of_float
       match st "index" with
       | transcode.VFloat64 f => f
       | transcode.VNumber n => numberFloat64 n
       | _ => 0%Q
       end)).
  intros a n.
  destruct (transcode.isAny (st "codec_name") _); [vm_compute; reflexivity|].
  destruct (transcode.isAny (st "codec_name") _); [vm_compute; reflexivity|].
  destruct (transcode.isStr (st "codec_name") _); vm_compute; reflexivity.
Qed.

Lemma countMap_subtitleArgs (st : transcode.stream) (k : Z) :
  countMap (transcode.subtitleArgs numberFloat64 st k) = 1%nat.
Proof.
  unfold transcode.subtitleArgs, transcode.getStreamAlias.
  generalize (strconv.Itoa k). generalize (strconv.Itoa
    (transcode.int_of_float
       match st "index" with
       | transcode.VFloat64 f => f
       | transcode.VNumber n => numberFloat64 n
       | _ => 0%Q
       end)).
  intros a n.
  destruct (transcode.isAny (st "codec_name") _); vm_compute; reflexivity.
Qed.

Lemma countMap_otherArgs (st : transcode.stream) :
  countMap (transcode.otherArgs numberFloat64 st) = 1%nat.
Proof.
  unfold transcode.otherArgs, transcode.getStreamAlias.
  generalize (strconv.Itoa
    (transcode.int_of_float
       match st "index" with
       | transcode.VFloat64 f => f
       | transcode.VNumber n => numberFloat64 n
       | _ => 0%Q
       end)).
  intros a. vm_compute. reflexivity.
Qed.

Lemma countMap_planStream (p : transcode.plan) (st : transcode.stream) :
  countMap (transcode.args (transcode.planStream numberFloat64 p st))
  = S (countMap (transcode.args p)).
Proof.
  unfold transcode.planStream.
  destruct (transcode.isStr (st "codec_type") "video");
    [|destruct (transcode.isStr (st "codec_type") "audio");
      [|destruct (transcode.isStr (st "codec_type") "subtitle")]];
    cbn [transcode.args]; rewrite countMap_app;
    rewrite ?countMap_videoArgs, ?countMap_audioArgs, ?countMap_subtitleArgs,
      ?countMap_otherArgs; lia.
Qed.

Lemma countMap_planStreams (streams : list transcode.stream) :
  forall p,
    countMap (transcode.args (transcode.planStreams numberFloat64 p streams))
    = (countMap (transcode.args p) + List.length streams)%nat.
Proof.
  induction streams as [|st streams IH]; intros p.
  - cbn [transcode.planStreams fold_left List.length]. lia.
  - change (transcode.planStreams numberFloat64 p (st :: streams))
      with (transcode.planStreams numberFloat64
              (transcode.planStream numberFloat64 p st) streams).
    rewrite IH, countMap_planStream. cbn [List.length]. lia.
Qed.

(** The counters of the loop, from any state with known counters. *)
Lemma planStreams_counters (streams : list transcode.stream) :
  forall (p : transcode.plan) (v a s : Z),
    transcode.outputVideoIndex p = Int64.wrap v ->
    transcode.outputAudioIndex p = Int64.wrap a ->
    transcode.outputSubtitleIndex p = Int64.wrap s ->
    let p' := transcode.planStreams numberFloat64 p streams in
    transcode.outputVideoIndex p'
    = Int64.wrap (v + Z.of_nat (streamsOfType "video" streams))
    /\ transcode.outputAudioIndex p'
       = Int64.wrap (a + Z.of_nat (streamsOfType "audio" streams))
    /\ transcode.outputSubtitleIndex p'
       = Int64.wrap (s + Z.of_nat (streamsOfType "subtitle" streams)).
Proof.
  induction streams as [|st streams IH]; intros p v a s Hv Ha Hs; cbv zeta.
  - unfold streamsOfType. cbn [transcode.planStreams fold_left filter List.length].
    rewrite !Z.add_0_r. auto.
  - change (transcode.planStreams numberFloat64 p (st :: streams))
      with (transcode.planStreams numberFloat64
              (transcode.planStream numberFloat64 p st) streams).
    unfold streamsOfType. cbn [filter].
    unfold transcode.planStream.
    destruct (transcode.isStr (st "codec_type") "video") eqn:Ev.
    + rewrite (isStr_exclusive _ "video" "audio" eq_refl Ev),
        (isStr_exclusive _ "video" "subtitle" eq_refl Ev).
      cbn [List.length].
      destruct (IH (transcode.mkPlan
                      (transcode.args p
                       ++ transcode.videoArgs numberFloat64 st
                            (transcode.outputVideoIndex p))%list
                      (Int64.add (transcode.outputVideoIndex p) 1)
                      (transcode.outputAudioIndex p)
                      (transcode.outputSubtitleIndex p)) (v + 1) a s)
        as (H1 & H2 & H3);
        [cbn [transcode.outputVideoIndex]; rewrite Hv; apply wrap_succ
        |exact Ha|exact Hs|].
      cbv zeta in H1, H2, H3. rewrite H1, H2, H3.
      unfold streamsOfType; cbn [List.length];
        repeat split; f_equal; lia.
    + destruct (transcode.isStr (st "codec_type") "audio") eqn:Ea.
      * rewrite (isStr_exclusive _ "audio" "subtitle" eq_refl Ea).
        cbn [List.length].
        destruct (IH (transcode.mkPlan
                        (transcode.args p
                         ++ transcode.audioArgs numberFloat64 st
                              (transcode.outputAudioIndex p))%list
                        (transcode.outputVideoIndex p)
                        (Int64.add (transcode.outputAudioIndex p) 1)
                        (transcode.outputSubtitleIndex p)) v (a + 1) s)
          as (H1 & H2 & H3);
          [exact Hv
          |cbn [transcode.outputAudioIndex]; rewrite Ha; apply wrap_succ
          |exact Hs|].
        cbv zeta in H1, H2, H3. rewrite H1, H2, H3.
        unfold streamsOfType; cbn [List.length];
        repeat split; f_equal; lia.
      * destruct (transcode.isStr (st "codec_type") "subtitle") eqn:Es.
        -- cbn [List.length].
           destruct (IH (transcode.mkPlan
                           (transcode.args p
                            ++ transcode.subtitleArgs numberFloat64 st
                                 (transcode.outputSubtitleIndex p))%list
                           (transcode.outputVideoIndex p)
                           (transcode.outputAudioIndex p)
                           (Int64.add (transcode.outputSubtitleIndex p) 1))
                       v a (s + 1))
             as (H1 & H2 & H3);
             [exact Hv|exact Ha
             |cbn [transcode.outputSubtitleIndex]; rewrite Hs; apply wrap_succ|].
           cbv zeta in H1, H2, H3. rewrite H1, H2, H3.
           unfold streamsOfType; cbn [List.length];
        repeat split; f_equal; lia.
        -- destruct (IH (transcode.mkPlan
                           (transcode.args p
                            ++ transcode.otherArgs numberFloat64 st)%list
                           (transcode.outputVideoIndex p)
                           (transcode.outputAudioIndex p)
                           (transcode.outputSubtitleIndex p)) v a s)
             as (H1 & H2 & H3); [exact Hv|exact Ha|exact Hs|].
           cbv zeta in H1, H2, H3. rewrite H1, H2, H3. unfold streamsOfType. auto.
Qed.

(** X13.  [generateStreamArgs] maps every input stream, once: its
    arguments hold as many [-map] options as there are streams, whatever
    their types and codecs. *)
Theorem generateStreamArgs_maps_every_stream (streams : list transcode.stream) :
  countMap (transcode.generateStreamArgs numberFloat64 streams) = List.length streams.
Proof.
  unfold transcode.generateStreamArgs. rewrite countMap_planStreams. reflexivity.
Qed.

(** X14.  After a list of streams, the output slot of each type is the
    number of streams of that type in the list (as a 64-bit integer):
    the slot in the options of a stream is the number of streams of its
    type before it. *)
Theorem planStreams_output_slots (streams : list transcode.stream) :
  transcode.outputVideoIndex
    (transcode.planStreams numberFloat64 (transcode.mkPlan [] 0 0 0) streams)
  = Int64.wrap (Z.of_nat (streamsOfType "video" streams))
  /\ transcode.outputAudioIndex
       (transcode.planStreams numberFloat64 (transcode.mkPlan [] 0 0 0) streams)
     = Int64.wrap (Z.of_nat (streamsOfType "audio" streams))
  /\ transcode.outputSubtitleIndex
       (transcode.planStreams numberFloat64 (transcode.mkPlan [] 0 0 0) streams)
     = Int64.wrap (Z.of_nat (streamsOfType "subtitle" streams)).
Proof.
  exact (planStreams_counters streams (transcode.mkPlan [] 0 0 0) 0 0 0
           eq_refl eq_refl eq_refl).
Qed.

End Plans.

(** ** The stream plans of the second copy *)

Section StrictPlans.

Variable numberFloat64 : string -> Q.

Lemma countMap_strict_videoArgs (st : transcode.stream) (k : Z) :
  countMap (strict.videoArgs numberFloat64 st k) = 1%nat.
Proof.
  unfold strict.videoArgs, strict.getStreamAlias.
  generalize (strconv.Itoa k). generalize (strconv.Itoa
    (transcode.int_of_float
       match st "index" with
       | transcode.VFloat64 f => f
       | transcode.VNumber n => numberFloat64 n
       | _ => 0%Q
       end)).
  intros a n. vm_compute. reflexivity.
Qed.

(** The audio streams that are planned, each with one [-map]. *)
Lemma strict_audioArgs_cases (st : transcode.stream) (k : Z) :
  if transcode.isAny (st "codec_name") ["aac"; "dca"; "ac3"; "mp2"; "eac3"]
     || transcode.isStr (st "codec_name") "truehd" && negb (strict.tooManyChannels st)
  then exists new,
      strict.audioArgs numberFloat64 st k = Some new /\ countMap new = 1%nat
  else strict.audioArgs numberFloat64 st k = None.
Proof.
  unfold strict.audioArgs, strict.getStreamAlias, transcode.isAny.
  cbn [existsb].
  generalize (strconv.Itoa k). generalize (strconv.Itoa
    (transcode.int_of_float
       match st "index" with
       | transcode.VFloat64 f => f
       | transcode.VNumber n => numberFloat64 n
       | _ => 0%Q
       end)).
  intros a n.
  destruct (transcode.isStr (st "codec_name") "aac");
    [eexists; split; [reflexivity|vm_compute; reflexivity]|].
  destruct (transcode.isStr (st "codec_name") "dca");
    [eexists; split; [reflexivity|vm_compute; reflexivity]|].
  destruct (transcode.isStr (st "codec_name") "ac3");
    [eexists; split; [reflexivity|vm_compute; reflexivity]|].
  destruct (transcode.isStr (st "codec_name") "mp2");
    [eexists; split; [reflexivity|vm_compute; reflexivity]|].
  destruct (transcode.isStr (st "codec_name") "eac3");
    [eexists; split; [reflexivity|vm_compute; reflexivity]|].
  destruct (transcode.isStr (st "codec_name") "truehd"); [|reflexivity].
  destruct (strict.tooManyChannels st); [reflexivity|].
  eexists; split; [reflexivity|vm_compute; reflexivity].
Qed.

Lemma strict_subtitleArgs_cases (st : transcode.stream) (k : Z) :
  if transcode.isAny (st "codec_name") ["srt"; "dvdsub"]
  then exists new,
      strict.subtitleArgs numberFloat64 st k = Some new /\ countMap new = 1%nat
  else strict.subtitleArgs numberFloat64 st k = None.
Proof.
  unfold strict.subtitleArgs, strict.getStreamAlias.
  generalize (strconv.Itoa k). generalize (strconv.Itoa
    (transcode.int_of_float
       match st "index" with
       | transcode.VFloat64 f => f
       | transcode.VNumber n => numberFloat64 n
       | _ => 0%Q
       end)).
  intros a n.
  destruct (transcode.isAny (st "codec_name") ["srt"; "dvdsub"]); [|reflexivity].
  eexists; split; [reflexivity|vm_compute; reflexivity].
Qed.

(** One iteration of the loop: nothing for a stream that is not selected;
    for a selected one, arguments with one [-map] and the next slot of
    its type. *)
Lemma strict_planStream_cases (p : transcode.plan) (st : transcode.stream) :
  if strictSelected st
  then exists new,
      countMap new = 1%nat
      /\ strict.planStream numberFloat64 p st
         = transcode.mkPlan (transcode.args p ++ new)%list
             (bump st "video" (transcode.outputVideoIndex p))
             (bump st "audio" (transcode.outputAudioIndex p))
             (bump st "subtitle" (transcode.outputSubtitleIndex p))
  else strict.planStream numberFloat64 p st = p.
Proof.
  unfold strictSelected, strict.planStream, bump.
  pose proof (strict_audioArgs_cases st (transcode.outputAudioIndex p)) as Ha.
  pose proof (strict_subtitleArgs_cases st (transcode.outputSubtitleIndex p)) as Hs.
  destruct (transcode.isStr (st "codec_type") "video") eqn:Ev.
  - rewrite (isStr_exclusive _ "video" "audio" eq_refl Ev),
      (isStr_exclusive _ "video" "subtitle" eq_refl Ev).
    cbn [orb]. eexists. split; [apply countMap_strict_videoArgs|reflexivity].
  - destruct (transcode.isStr (st "codec_type") "audio") eqn:Ea.
    + rewrite (isStr_exclusive _ "audio" "subtitle" eq_refl Ea).
      cbn [orb andb].
      destruct (transcode.isAny (st "codec_name") ["aac"; "dca"; "ac3"; "mp2"; "eac3"]
                || transcode.isStr (st "codec_name") "truehd"
                   && negb (strict.tooManyChannels st)).
      * destruct Ha as (new & -> & Hc). cbn [orb]. exists new. auto.
      * rewrite Ha. reflexivity.
    + destruct (transcode.isStr (st "codec_type") "subtitle") eqn:Es.
      * cbn [orb andb].
        destruct (transcode.isAny (st "codec_name") ["srt"; "dvdsub"]).
        -- destruct Hs as (new & -> & Hc). exists new. auto.
        -- rewrite Hs. reflexivity.
      * reflexivity.
Qed.

(** The streams that are not selected can be removed from the list. *)
Lemma strict_planStreams_filter (streams : list transcode.stream) :
  forall p,
    strict.planStreams numberFloat64 p (filter strictSelected streams)
    = strict.planStreams numberFloat64 p streams.
Proof.
  induction streams as [|st streams IH]; intros p; [reflexivity|].
  cbn [filter].
  pose proof (strict_planStream_cases p st) as H.
  change (strict.planStreams numberFloat64 p (st :: streams))
    with (strict.planStreams numberFloat64
            (strict.planStream numberFloat64 p st) streams).
  destruct (strictSelected st).
  - change (strict.planStreams numberFloat64 p
              (st :: filter strictSelected streams))
      with (strict.planStreams numberFloat64
              (strict.planStream numberFloat64 p st)
              (filter strictSelected streams)).
    apply IH.
  - rewrite H. apply IH.
Qed.

(** The plan of a list of selected streams. *)
Lemma strict_planStreams_selected (streams : list transcode.stream) :
  forall (p : transcode.plan) (v a s : Z),
    forallb strictSelected streams = true ->
    transcode.outputVideoIndex p = Int64.wrap v ->
    transcode.outputAudioIndex p = Int64.wrap a ->
    transcode.outputSubtitleIndex p = Int64.wrap s ->
    let p' := strict.planStreams numberFloat64 p streams in
    countMap (transcode.args p')
    = (countMap (transcode.args p) + List.length streams)%nat
    /\ transcode.outputVideoIndex p'
       = Int64.wrap (v + Z.of_nat (streamsOfType "video" streams))
    /\ transcode.outputAudioIndex p'
       = Int64.wrap (a + Z.of_nat (streamsOfType "audio" streams))
    /\ transcode.outputSubtitleIndex p'
       = Int64.wrap (s + Z.of_nat (streamsOfType "subtitle" streams)).
Proof.
  induction streams as [|st streams IH]; intros p v a s Hsel Hv Ha Hs; cbv zeta.
  - unfold streamsOfType.
    cbn [strict.planStreams fold_left filter List.length].
    rewrite !Z.add_0_r, Nat.add_0_r. auto.
  - cbn [forallb] in Hsel. apply andb_true_iff in Hsel. destruct Hsel as [Hst Hsel].
    change (strict.planStreams numberFloat64 p (st :: streams))
      with (strict.planStreams numberFloat64
              (strict.planStream numberFloat64 p st) streams).
    pose proof (strict_planStream_cases p st) as H. rewrite Hst in H.
    destruct H as (new & Hnew & ->).
    destruct (IH (transcode.mkPlan (transcode.args p ++ new)%list
                    (bump st "video" (transcode.outputVideoIndex p))
                    (bump st "audio" (transcode.outputAudioIndex p))
                    (bump st "subtitle" (transcode.outputSubtitleIndex p)))
                (v + if transcode.isStr (st "codec_type") "video" then 1 else 0)
                (a + if transcode.isStr (st "codec_type") "audio" then 1 else 0)
                (s + if transcode.isStr (st "codec_type") "subtitle" then 1 else 0)
                Hsel) as (H0 & H1 & H2 & H3).
    + cbn [transcode.outputVideoIndex]. unfold bump. rewrite Hv.
      destruct (transcode.isStr (st "codec_type") "video");
        [apply wrap_succ|now rewrite Z.add_0_r].
    + cbn [transcode.outputAudioIndex]. unfold bump. rewrite Ha.
      destruct (transcode.isStr (st "codec_type") "audio");
        [apply wrap_succ|now rewrite Z.add_0_r].
    + cbn [transcode.outputSubtitleIndex]. unfold bump. rewrite Hs.
      destruct (transcode.isStr (st "codec_type") "subtitle");
        [apply wrap_succ|now rewrite Z.add_0_r].
    + cbv zeta in H0, H1, H2, H3. rewrite H0, H1, H2, H3.
      cbn [transcode.args]. rewrite countMap_app, Hnew.
      unfold streamsOfType. cbn [filter List.length].
      destruct (transcode.isStr (st "codec_type") "video"),
        (transcode.isStr (st "codec_type") "audio"),
        (transcode.isStr (st "codec_type") "subtitle");
        cbn [List.length]; (split; [lia|repeat split; f_equal; lia]).
Qed.

Lemma forallb_filter (A : Type) (f : A -> bool) (l : list A) :
  forallb f (filter f l) = true.
Proof.
  induction l as [|x l IH]; [reflexivity|]. cbn [filter].
  destruct (f x) eqn:E; [cbn [forallb]; now rewrite E|exact IH].
Qed.

(** X15.  The second copy of [generateStreamArgs] passes over the streams
    it does not select (audio of another codec or [truehd] with more than
    six channels, subtitles other than [srt] and [dvdsub], types other
    than video, audio and subtitle): the arguments are those of the list
    without them, and hold one [-map] for each selected stream. *)
Theorem strict_generateStreamArgs_selected (streams : list transcode.stream) :
  strict.generateStreamArgs numberFloat64 (filter strictSelected streams)
  = strict.generateStreamArgs numberFloat64 streams
  /\ countMap (strict.generateStreamArgs numberFloat64 streams)
     = List.length (filter strictSelected streams).
Proof.
  unfold strict.generateStreamArgs. split.
  - now rewrite strict_planStreams_filter.
  - rewrite <- strict_planStreams_filter.
    destruct (strict_planStreams_selected (filter strictSelected streams)
                (transcode.mkPlan [] 0 0 0) 0 0 0
                (forallb_filter _ _ _) eq_refl eq_refl eq_refl) as (H & _).
    exact H.
Qed.

(** X16.  In the second copy the output slot of a type counts the
    selected streams of that type only: a stream that is passed over
    takes no slot. *)
Theorem strict_planStreams_output_slots (streams : list transcode.stream) :
  transcode.outputVideoIndex
    (strict.planStreams numberFloat64 (transcode.mkPlan [] 0 0 0) streams)
  = Int64.wrap (Z.of_nat (strictOfType "video" streams))
  /\ transcode.outputAudioIndex
       (strict.planStreams numberFloat64 (transcode.mkPlan [] 0 0 0) streams)
     = Int64.wrap (Z.of_nat (strictOfType "audio" streams))
  /\ transcode.outputSubtitleIndex
       (strict.planStreams numberFloat64 (transcode.mkPlan [] 0 0 0) streams)
     = Int64.wrap (Z.of_nat (strictOfType "subtitle" streams)).
Proof.
  rewrite <- strict_planStreams_filter.
  destruct (strict_planStreams_selected (filter strictSelected streams)
              (transcode.mkPlan [] 0 0 0) 0 0 0
              (forallb_filter _ _ _) eq_refl eq_refl eq_refl) as (_ & H).
  exact H.
Qed.

End StrictPlans.

(** ** The content features header *)

Lemma append_inj_l (p a b : string) : p ++ a = p ++ b -> a = b.
Proof.
  induction p as [|c p IH]; cbn [append]; [auto|].
  intros [= H]. auto.
Qed.

(** X17.  The header of two [ContentFeatures] with the same profile name
    is the same only if they agree on time seek, on byte ranges, on
    transcoding and on the flags they show. *)
Theorem ContentFeatures_String_injective (cf1 cf2 : features.ContentFeatures) :
  features.ProfileName cf1 = features.ProfileName cf2 ->
  features.ContentFeatures_String cf1 = features.ContentFeatures_String cf2 ->
  features.SupportTimeSeek cf1 = features.SupportTimeSeek cf2
  /\ features.SupportRange cf1 = features.SupportRange cf2
  /\ features.Transcoded cf1 = features.Transcoded cf2
  /\ shownFlags cf1 = shownFlags cf2.
Proof.
  destruct cf1 as [pn1 ts1 r1 t1 f1], cf2 as [pn2 ts2 r2 t2 f2].
  unfold features.ContentFeatures_String, shownFlags.
  cbn [features.ProfileName features.SupportTimeSeek features.SupportRange
         features.Transcoded features.Flags].
  intros <-. cbv zeta.
  set (g1 := if negb (String.eqb f1 EmptyString) then f1 else features.defaultFlags).
  set (g2 := if negb (String.eqb f2 EmptyString) then f2 else features.defaultFlags).
  assert (E1 : (if String.eqb f1 EmptyString then features.defaultFlags else f1) = g1)
    by (unfold g1; now destruct (String.eqb f1 EmptyString)).
  assert (E2 : (if String.eqb f2 EmptyString then features.defaultFlags else f2) = g2)
    by (unfold g2; now destruct (String.eqb f2 EmptyString)).
  rewrite E1, E2. clearbody g1 g2. clear E1 E2.
  destruct (negb (String.eqb pn1 EmptyString)).
  - cbn [List.app features.Join]. rewrite !append_assoc.
    intros H. apply append_inj_l in H. apply append_inj_l in H. revert H.
    destruct ts1, ts2, r1, r2, t1, t2; cbn; intros [= H];
      try discriminate; repeat split; assumption.
  - cbn [List.app features.Join].
    destruct ts1, ts2, r1, r2, t1, t2; cbn; intros [= H];
      try discriminate; repeat split; assumption.
Qed.

Lemma ContentFeatures_String_injective_witness :
  true = true /\ false = false /\ true = true
  /\ shownFlags (features.mkContentFeatures "MP3" true false true EmptyString)
     = shownFlags (features.mkContentFeatures "MP3" true false true
                     features.defaultFlags).
Proof.
  apply (ContentFeatures_String_injective
           (features.mkContentFeatures "MP3" true false true EmptyString)
           (features.mkContentFeatures "MP3" true false true features.defaultFlags));
    reflexivity.
Defined.

(** ** Durations for the transcoder *)

(** Trimming stops at a byte that is not the trimmed one. *)
Lemma TrimRight_stop (a : string) (x : ascii) (b : string) (c : ascii) :
  Ascii.eqb x c = false ->
  misc.TrimRight (a ++ String x b) c = a ++ String x (misc.TrimRight b c).
Proof.
  intros Hx. induction a as [|d a IH]; cbn [append misc.TrimRight].
  - rewrite Hx. now destruct (misc.TrimRight b c).
  - rewrite IH. now destruct a.
Qed.

Lemma isDigit_not_dot (c : ascii) :
  strconv.isDigit c = true -> Ascii.eqb c "." = false.
Proof. intros H. digit_cases H; reflexivity. Qed.

Lemma TrimRight_zeros_digits (s : string) :
  allDigits s = true ->
  allDigits (misc.TrimRight s "0") = true
  /\ (misc.TrimRight s "0" = EmptyString -> decimalValue s = 0).
Proof.
  induction s as [|d t IH]; [auto|].
  cbn [allDigits]. rewrite andb_true_iff. intros [Hd Ht].
  destruct (IH Ht) as [IH1 IH2].
  cbn [misc.TrimRight]. destruct (misc.TrimRight t "0") as [|e t'] eqn:E.
  - destruct (Ascii.eqb d "0") eqn:Ed.
    + split; [reflexivity|]. intros _. apply Ascii.eqb_eq in Ed. subst d.
      exact (IH2 eq_refl).
    + split; [cbn [allDigits]; now rewrite Hd|discriminate].
  - split; [|discriminate].
    change (allDigits (String d (String e t'))) with
      (strconv.isDigit d && allDigits (String e t')).
    now rewrite Hd, IH1.
Qed.

(** Digits are not trimmed as dots. *)
Lemma TrimRight_dot_digits (a s : string) :
  allDigits s = true -> s <> EmptyString -> misc.TrimRight (a ++ s) "." = a ++ s.
Proof.
  intros Hs Hne. destruct s as [|d t]; [congruence|]. clear Hne.
  revert a d Hs. induction t as [|e t IH]; intros a d Hs.
  - cbn [allDigits] in Hs. rewrite andb_true_r in Hs.
    rewrite TrimRight_stop by now apply isDigit_not_dot. reflexivity.
  - cbn [allDigits] in Hs. apply andb_true_iff in Hs. destruct Hs as [Hd Hs].
    rewrite TrimRight_stop by now apply isDigit_not_dot.
    f_equal. f_equal. apply (IH EmptyString e). exact Hs.
Qed.

(** X18.  For a duration that is not negative, [FormatDurationSexagesimal]
    writes the hours, two digits of minutes and two of seconds, and the
    nanoseconds without their trailing zeros, or nothing for whole seconds:
    the trimming never reaches the digits of the seconds. *)
Theorem FormatDurationSexagesimal_fields (h m s ns : Z) :
  0 <= h -> 0 <= m < 60 -> 0 <= s < 60 -> 0 <= ns < dlna.Second ->
  misc.FormatDurationSexagesimal
    (h * dlna.Hour + m * dlna.Minute + s * dlna.Second + ns)
  = strconv.FormatInt h ++ ":" ++ fmt.fmt_0d 2 m ++ ":" ++ fmt.fmt_0d 2 s
    ++ (if ns =? 0 then EmptyString
        else "." ++ misc.TrimRight (fmt.fmt_0d 9 ns) "0").
Proof.
  intros Hh Hm Hs Hns. unfold misc.FormatDurationSexagesimal. cbv zeta.
  change dlna.Hour with 3600000000000 in *.
  change dlna.Minute with 60000000000 in *.
  change dlna.Second with 1000000000 in *.
  set (q0 := (h * 60 + m) * 60 + s).
  replace (h * 3600000000000 + m * 60000000000 + s * 1000000000 + ns)
    with (q0 * 1000000000 + ns) by (unfold q0; ring).
  assert (Hq0 : 0 <= q0) by (unfold q0; nia).
  rewrite (Z.rem_mod_nonneg (q0 * 1000000000 + ns)),
    (Z.quot_div_nonneg (q0 * 1000000000 + ns)) by lia.
  assert (E0 : (q0 * 1000000000 + ns) mod 1000000000 = ns).
  { symmetry. apply Z.mod_unique with (q := q0); lia. }
  assert (E1 : (q0 * 1000000000 + ns) / 1000000000 = q0).
  { symmetry. apply Z.div_unique with (r := ns); lia. }
  rewrite E0, E1.
  rewrite (Z.rem_mod_nonneg q0), (Z.quot_div_nonneg q0) by lia.
  assert (E2 : q0 mod 60 = s).
  { symmetry. apply Z.mod_unique with (q := h * 60 + m); unfold q0; lia. }
  assert (E3 : q0 / 60 = h * 60 + m).
  { symmetry. apply Z.div_unique with (r := s); unfold q0; lia. }
  rewrite E2, E3.
  rewrite (Z.rem_mod_nonneg (h * 60 + m)), (Z.quot_div_nonneg (h * 60 + m)) by lia.
  assert (E4 : (h * 60 + m) mod 60 = m).
  { symmetry. apply Z.mod_unique with (q := h); lia. }
  assert (E5 : (h * 60 + m) / 60 = h).
  { symmetry. apply Z.div_unique with (r := m); lia. }
  rewrite E4, E5. unfold misc.fmt_d.
  destruct (fmt_0d_2 m ltac:(lia)) as (m1 & m2 & Em & Hm1 & Hm2 & _).
  destruct (fmt_0d_2 s ltac:(lia)) as (s1 & s2 & Es & Hs1 & Hs2 & _).
  destruct (fmt_0d_value 9 ns ltac:(lia)) as (Hnd & Hnne & Hnv).
  rewrite Em, Es.
  set (H := strconv.FormatInt h). set (N := fmt.fmt_0d 9 ns) in *.
  set (A := H ++ String ":" (String m1 (String m2 (String ":"
                (String s1 EmptyString))))).
  assert (Eret : H ++ ":" ++ String m1 (String m2 EmptyString) ++ ":"
                 ++ String s1 (String s2 EmptyString) ++ "." ++ N
                 = (A ++ String s2 EmptyString) ++ String "." N).
  { unfold A. rewrite !append_assoc. reflexivity. }
  rewrite Eret, (TrimRight_stop _ "." N "0" eq_refl).
  destruct (TrimRight_zeros_digits N Hnd) as [HF HF0].
  assert (Eout : forall frac,
             H ++ ":" ++ String m1 (String m2 EmptyString) ++ ":"
             ++ String s1 (String s2 EmptyString) ++ frac
             = (A ++ String s2 EmptyString) ++ frac).
  { intros frac. unfold A. rewrite !append_assoc. reflexivity. }
  rewrite Eout.
  destruct (ns =? 0) eqn:Ens.
  - apply Z.eqb_eq in Ens.
    assert (EN : misc.TrimRight N "0" = EmptyString)
      by (unfold N; rewrite Ens; reflexivity).
    rewrite EN, append_assoc. cbn [append].
    rewrite (TrimRight_stop A s2 "." ".") by now apply isDigit_not_dot.
    rewrite append_nil_r. reflexivity.
  - apply Z.eqb_neq in Ens.
    assert (HFne : misc.TrimRight N "0" <> EmptyString).
    { intros E. apply HF0 in E. lia. }
    change ((A ++ String s2 EmptyString) ++ String "." (misc.TrimRight N "0"))
      with ((A ++ String s2 EmptyString) ++ "." ++ misc.TrimRight N "0").
    rewrite <- (append_assoc (A ++ String s2 EmptyString) ".").
    now rewrite TrimRight_dot_digits.
Qed.

Lemma FormatDurationSexagesimal_fields_witness :
  misc.FormatDurationSexagesimal 3610500000000 = "1:00:10.5"
  /\ misc.FormatDurationSexagesimal 3610000000000 = "1:00:10".
Proof.
  split.
  - change (misc.FormatDurationSexagesimal
              (1 * dlna.Hour + 0 * dlna.Minute + 10 * dlna.Second + 500000000)
            = strconv.FormatInt 1 ++ ":" ++ fmt.fmt_0d 2 0 ++ ":" ++ fmt.fmt_0d 2 10
              ++ (if 500000000 =? 0 then EmptyString
                  else "." ++ misc.TrimRight (fmt.fmt_0d 9 500000000) "0")).
    apply (FormatDurationSexagesimal_fields 1 0 10 500000000);
      unfold dlna.Second, dlna.Millisecond; lia.
  - reflexivity.
Defined.

